(** * Retrieval-and-generation core of the questionnaire assistant

    A shallow embedding of [embedder.py] (chunker, index store, retriever)
    and [rag.py] (synthesizer, batch answering, coverage summary), with the
    properties stated about them, followed by [parser.py] (document
    readers, questionnaire parser), [db.py] (accounts, questionnaires and
    saved answers) and the CSV export of [exporter.py].

    Conventions.
    - A Python [str] is a [string]; each [ascii] stands for one character
      (a code point below 256).
    - A Python [int] is a [Z]; [len] results are injected with [Z.of_nat].
    - A [while] loop is a function with fuel: [None] means the fuel ran
      out, [Some r] that the loop returned [r].
    - External services (the embedding model, the nearest-neighbour index,
      the two generation backends, the file system, the document readers,
      the regular-expression matcher, the password hash) are explicit
      parameters of the functions that call them. *)

From Stdlib Require Import ZArith Lia Bool Ascii String List SpecFloat.
From stdpp Require Import base list strings gmap pretty sorting.

Local Open Scope Z_scope.

(** ** Python string primitives *)

Module Py.

(** [str.isspace] on one character, for code points below 256:
    TAB..CR, FS..US, SPACE, NEL and NBSP. *)
Definition isspace (c : ascii) : bool :=
  let n := nat_of_ascii c in
  ((9 <=? n)%nat && (n <=? 13)%nat) || ((28 <=? n)%nat && (n <=? 32)%nat)
  || (n =? 133)%nat || (n =? 160)%nat.

(** Truth value of a [str]: non-empty. *)
Definition truthy (s : string) : bool :=
  match s with EmptyString => false | String _ _ => true end.

(** [s.split()]: maximal runs of non-whitespace characters.  [cur] is the
    word being scanned. *)
Fixpoint split_from (cur s : string) : list string :=
  match s with
  | EmptyString => if truthy cur then [cur] else []
  | String c s' =>
      if isspace c
      then (if truthy cur then cur :: split_from "" s' else split_from "" s')
      else split_from (cur +:+ String c "") s'
  end.

Definition split (s : string) : list string := split_from "" s.

(** [sep.join(ls)] *)
Definition join (sep : string) (ls : list string) : string :=
  String.concat sep ls.

Fixpoint lstrip (s : string) : string :=
  match s with
  | EmptyString => ""
  | String c s' => if isspace c then lstrip s' else s
  end.

Fixpoint rstrip (s : string) : string :=
  match s with
  | EmptyString => ""
  | String c s' =>
      match rstrip s' with
      | EmptyString => if isspace c then "" else String c ""
      | r => String c r
      end
  end.

(** [s.strip()] *)
Definition strip (s : string) : string := rstrip (lstrip s).

(** One bound of a slice, clamped as Python does for a list of length
    [n]: a negative bound counts from the end. *)
Definition clamp (n i : Z) : Z :=
  if i <? 0 then Z.max (i + n) 0 else Z.min i n.

(** [l[start:stop]] *)
Definition slice {A} (l : list A) (start stop : Z) : list A :=
  let n := Z.of_nat (length l) in
  let lo := clamp n start in
  let hi := clamp n stop in
  take (Z.to_nat (hi - lo)) (drop (Z.to_nat lo) l).

(** [s[:n]] on a string *)
Definition prefix (n : nat) (s : string) : string := String.substring 0 n s.

End Py.

(** ** Chunker ([embedder.py], [chunk_text]) *)

Record Chunk := mkChunk { text : string; source : string }.

(** The body of [while i < len(words)], with the list [chunks] built so
    far. *)
Fixpoint chunk_loop (fuel : nat) (words : list string) (source_name : string)
    (chunk_size overlap : Z) (i : Z) (chunks : list Chunk)
  : option (list Chunk) :=
  match fuel with
  | O => None
  | S fuel' =>
      if i <? Z.of_nat (length words) then
        let chunk := Py.join " " (Py.slice words i (i + chunk_size)) in
        let chunks' :=
          if Py.truthy (Py.strip chunk)
          then chunks ++ [mkChunk chunk source_name]
          else chunks in
        chunk_loop fuel' words source_name chunk_size overlap
          (i + (chunk_size - overlap)) chunks'
      else Some chunks
  end.

Definition chunk_text (fuel : nat) (text : string) (source_name : string)
    (chunk_size overlap : Z) : option (list Chunk) :=
  chunk_loop fuel (Py.split text) source_name chunk_size overlap 0 [].

(** The defaults of [chunk_text]. *)
Definition default_chunk_size : Z := 600.
Definition default_overlap : Z := 100.

(** Number of words of a chunk, counted as the chunker counts them. *)
Definition chunk_words (c : Chunk) : list string := Py.split (text c).

(** Ceiling of [a / b] for [b > 0]. *)
Definition ceil_div (a b : Z) : Z := (a + b - 1) / b.

(** The chunk count as the specification words it:
    [ceil(max(W - overlap, 0) / (chunk_size - overlap))]. *)
Definition claimed_chunk_count (W chunk_size overlap : Z) : Z :=
  ceil_div (Z.max (W - overlap) 0) (chunk_size - overlap).

(** The chunk count of the sliding window: one window per step until the
    words run out. *)
Definition window_count (W chunk_size overlap : Z) : Z :=
  ceil_div W (chunk_size - overlap).

(** ** Exceptions and the state-and-exception monad

    Every exception the model raises is a subclass of Python's [Exception];
    [exn_str] is [str(e)]. *)

Inductive pyexn :=
| ValueError (msg : string)
| IndexError (msg : string)
| FileExistsError (msg : string)
| NotADirectoryError (msg : string)
| Exception (msg : string).

Definition exn_str (e : pyexn) : string :=
  match e with
  | ValueError m | IndexError m | FileExistsError m | NotADirectoryError m
  | Exception m => m
  end.

Definition M (St A : Type) : Type := St -> (pyexn + A) * St.

Definition ret {St A} (a : A) : M St A := fun s => (inr a, s).

Definition raise {St A} (e : pyexn) : M St A := fun s => (inl e, s).

Definition bind {St A B} (m : M St A) (k : A -> M St B) : M St B :=
  fun s =>
    match m s with
    | (inl e, s') => (inl e, s')
    | (inr a, s') => k a s'
    end.

(** [try: m  except Exception as e: h e] *)
Definition try_except {St A} (m : M St A) (h : pyexn -> M St A) : M St A :=
  fun s =>
    match m s with
    | (inl e, s') => h e s'
    | (inr a, s') => (inr a, s')
    end.

(** Lifting of a pure computation that may raise. *)
Definition lift {St A} (r : pyexn + A) : M St A := fun s => (r, s).

Notation "'let*' x ':=' m 'in' k" := (bind m (fun x => k))
  (at level 10, x name, m at level 100, k at level 200).
Notation "'run' m 'in' k" := (bind m (fun _ => k))
  (at level 10, m at level 100, k at level 200).

(** [l[idx]] on a list: a negative index counts from the end; out of range
    raises [IndexError]. *)
Definition getitem {A} (l : list A) (idx : Z) : pyexn + A :=
  let n := Z.of_nat (length l) in
  let j := if idx <? 0 then idx + n else idx in
  if (0 <=? j) && (j <? n)
  then match l !! Z.to_nat j with
       | Some x => inr x
       | None => inl (IndexError "list index out of range")
       end
  else inl (IndexError "list index out of range").

(** ** Floating-point interface

    The operations on Python floats that the pipeline performs.  [f_lit m k]
    is the literal with digits [m] and [k] decimals ([f_lit 35 2] is
    [0.35]); [f_sum] is [sum] on a non-empty sequence; [f_div_len x n] is
    [x / n] for an [int] [n]; [f_round2 x] is [round(x, 2)]; [f_ge x y] is
    [x >= y].

    A score of the index is an [np.float32]; it is held here by its value,
    which [float(score)] returns unchanged.  When such a score meets a
    Python [float] in a comparison, NumPy casts the [float] to the type of
    the score and compares there: [f_single x] is [x] rounded to single
    precision, the cast of NumPy 2 and later (earlier versions compared in
    double precision, where the cast does nothing). *)

Class FloatOps (F : Type) := {
  f_lit : Z -> nat -> F;
  f_ge : F -> F -> bool;
  f_single : F -> F;
  f_sum : list F -> F;
  f_div_len : F -> nat -> F;
  f_round2 : F -> F;
  f_ge_trans : forall x y z, f_ge x y = true -> f_ge y z = true -> f_ge x z = true
}.

(** [0.0] *)
Definition f_zero {F} `{FloatOps F} : F := f_lit 0 1.

(** A number that is an [int] or a [float]. *)
Inductive PyNum (F : Type) :=
| PyInt (z : Z)
| PyFloat (x : F).
Arguments PyInt {F} z.
Arguments PyFloat {F} x.

(** [round(v, 2)]: an [int] rounds to itself. *)
Definition py_round2 {F} `{FloatOps F} (v : PyNum F) : PyNum F :=
  match v with
  | PyInt z => PyInt z
  | PyFloat x => PyFloat (f_round2 x)
  end.

(** ** Retriever ([embedder.py], [retrieve])

    A hit is one pair of [zip(scores[0], indices[0])]: a score and a
    position. *)

Record Retrieved (F : Type) := mkRetrieved {
  r_text : string;
  r_source : string;
  r_score : F
}.
Arguments mkRetrieved {F} _ _ _.
Arguments r_text {F} _.
Arguments r_source {F} _.
Arguments r_score {F} _.

(** The [for score, idx in zip(...)] loop, with the list [results] built
    so far.  [score >= threshold] compares the [np.float32] score with the
    Python [float] threshold, which is cast for it; [and] evaluates
    [idx < len(chunks)] only when the score test holds, and [chunks[idx]]
    only when both do.  The result carries [float(score)]. *)
Fixpoint retrieve_loop {F} `{FloatOps F} (hits : list (F * Z))
    (chunks : list Chunk) (threshold : F) (results : list (Retrieved F))
  : pyexn + list (Retrieved F) :=
  match hits with
  | [] => inr results
  | (score, idx) :: rest =>
      if f_ge score (f_single threshold) && (idx <? Z.of_nat (length chunks))
      then match getitem chunks idx with
           | inl e => inl e
           | inr c =>
               retrieve_loop rest chunks threshold
                 (results ++ [mkRetrieved (text c) (source c) score])
           end
      else retrieve_loop rest chunks threshold results
  end.

(** [retrieve]'s defaults: [top_k = 3], [threshold = 0.35]. *)
Definition default_top_k : Z := 3.
Definition default_threshold {F} `{FloatOps F} : F := f_lit 35 2.

(** ** Answer records ([rag.py]) *)

Record Answer (F : Type) := mkAnswer {
  answer : string;
  citation : string;
  confidence : F;
  snippet : string
}.
Arguments mkAnswer {F} _ _ _ _.
Arguments answer {F} _.
Arguments citation {F} _.
Arguments confidence {F} _.
Arguments snippet {F} _.

Record Question := mkQuestion { q_number : Z; q_question : string }.

(** One element of the list [generate_batch_answers] returns. *)
Record AnswerRow (F : Type) := mkRow {
  row_number : Z;
  row_question : string;
  row_answer : string;
  row_citation : string;
  row_confidence : F;
  row_snippet : string
}.
Arguments mkRow {F} _ _ _ _ _ _.
Arguments row_number {F} _.
Arguments row_question {F} _.
Arguments row_answer {F} _.
Arguments row_citation {F} _.
Arguments row_confidence {F} _.
Arguments row_snippet {F} _.

Record Coverage (F : Type) := mkCoverage {
  total_questions : Z;
  answered : Z;
  not_found : Z;
  avg_confidence : PyNum F
}.
Arguments mkCoverage {F} _ _ _ _.
Arguments total_questions {F} _.
Arguments answered {F} _.
Arguments not_found {F} _.
Arguments avg_confidence {F} _.

Definition nl : string := String (ascii_of_nat 10) "".

Definition SYSTEM_PROMPT : string :=
  "You are a compliance and security questionnaire assistant. Your task is to answer " +:+ nl +:+
  "questions using ONLY the provided context from reference documents. " +:+ nl +:+
  nl +:+
  "Guidelines:" +:+ nl +:+
  "1. Be concise and factual" +:+ nl +:+
  "2. If the context does not contain enough information to answer the question, respond with exactly: Not found in references." +:+ nl +:+
  "3. Do not make up information or infer beyond what's in the context" +:+ nl +:+
  "4. Focus on accuracy and cite relevant details when available" +:+ nl +:+
  "5. Format your answer as a complete, professional response suitable for a security questionnaire".

Definition NO_CONTEXT_RESPONSE : string := "Not found in references.".

Definition NO_LLM_RESPONSE : string :=
  "No LLM available. Please configure GROQ_API_KEY or start Ollama.".

(** [list(dict.fromkeys(keys))]: the keys of an insertion-ordered dict.
    Setting a key that is present keeps its place. *)
Fixpoint dict_fromkeys_from (seen : list string) (keys : list string) : list string :=
  match keys with
  | [] => seen
  | k :: rest =>
      if bool_decide (k ∈ seen)
      then dict_fromkeys_from seen rest
      else dict_fromkeys_from (seen ++ [k]) rest
  end.

Definition dict_fromkeys (keys : list string) : list string :=
  dict_fromkeys_from [] keys.

(** Deduplication as the specification words it: every name once, in the
    order of first occurrence. *)
Fixpoint dedup_first (l : list string) : list string :=
  match l with
  | [] => []
  | x :: rest => x :: filter (fun y => y ≠ x) (dedup_first rest)
  end.

(** The snippet as the specification words it: the first 300 characters
    and an ellipsis. *)
Definition claimed_snippet (t : string) : string := Py.prefix 300 t +:+ "...".

(** [get_coverage_summary] *)
Definition is_answered {F} (a : AnswerRow F) : bool :=
  bool_decide (row_answer a ≠ NO_CONTEXT_RESPONSE).

Definition get_coverage_summary {F} `{FloatOps F} (answers : list (AnswerRow F))
  : Coverage F :=
  let total := Z.of_nat (length answers) in
  let found := Z.of_nat (length (filter (fun a => is_answered a = true) answers)) in
  let not_found := total - found in
  let answered_confidences :=
    map row_confidence (filter (fun a => is_answered a = true) answers) in
  let avg_confidence :=
    match answered_confidences with
    | [] => PyInt 0
    | _ :: _ =>
        PyFloat (f_div_len (f_sum answered_confidences) (length answered_confidences))
    end in
  mkCoverage total found not_found (py_round2 avg_confidence).

(** ** Network services and the synthesizer ([rag.py]) *)

(** What the pipeline does to the outside, in order. *)
Inductive Event :=
| EvProbeOllama                      (* GET {OLLAMA_HOST}/api/tags *)
| EvEmbed (question : string)        (* get_embedding *)
| EvSearch (top_k : Z)               (* index.search *)
| EvGroq (prompt : string)           (* POST to the Groq endpoint *)
| EvOllama (prompt : string)         (* POST {OLLAMA_HOST}/api/generate *)
| EvProgress (done total : nat).     (* progress_callback((i + 1) / total) *)

(** An HTTP response: status, body, and what reading the answer field
    out of the JSON body gives ([.json()["choices"][0]["message"]["content"]]
    for Groq, [.json().get("response", "")] for Ollama). *)
Record Response := mkResponse {
  status_code : Z;
  resp_text : string;
  resp_field : pyexn + string
}.

(** State of a run: the state [W] of the network services and the trace
    of events so far. *)
Record Net (W : Type) := mkNet { world : W; trace : list Event }.
Arguments mkNet {W} _ _.
Arguments world {W} _.
Arguments trace {W} _.

(** The services the pipeline calls.  The embedding model and the index
    search are deterministic functions; an HTTP request returns a response
    or raises (connection error, timeout) and may change the state of the
    service. A flat index is the list of the vectors added to it. *)
Record Services (F V W : Type) := mkServices {
  GROQ_API_KEY : string;
  get_embedding : string -> V;
  index_search : list V -> V -> Z -> list (F * Z);
  requests_get_tags : W -> (pyexn + Z) * W;
  requests_post_ollama : string -> W -> (pyexn + Response) * W;
  requests_post_groq : string -> W -> (pyexn + Response) * W
}.
Arguments GROQ_API_KEY {F V W} _.
Arguments get_embedding {F V W} _ _.
Arguments index_search {F V W} _ _ _ _.
Arguments requests_get_tags {F V W} _ _.
Arguments requests_post_ollama {F V W} _ _ _.
Arguments requests_post_groq {F V W} _ _ _.

Section Pipeline.
Context {F : Type} `{FloatOps F} {V W : Type}.
Variable svc : Services F V W.

(** Record an event. *)
Definition emit (e : Event) : M (Net W) unit :=
  fun s => (inr tt, mkNet (world s) (trace s ++ [e])).

(** Call an HTTP service. *)
Definition call {A} (f : W -> (pyexn + A) * W) : M (Net W) A :=
  fun s => let '(r, w) := f (world s) in (r, mkNet w (trace s)).

Definition retrieve (question : string) (index : list V)
    (chunks : list Chunk) (top_k : Z) (threshold : F)
  : M (Net W) (list (Retrieved F)) :=
  run emit (EvEmbed question) in
  let emb := get_embedding svc question in
  run emit (EvSearch top_k) in
  let hits := index_search svc index emb top_k in
  lift (retrieve_loop hits chunks threshold []).

Definition check_ollama_available : M (Net W) bool :=
  try_except
    (run emit EvProbeOllama in
     let* code := call (requests_get_tags svc) in
     ret (code =? 200))
    (fun _ => ret false).

Definition check_groq_available : bool := Py.truthy (GROQ_API_KEY svc).

Definition generate_with_ollama (prompt : string) : M (Net W) string :=
  run emit (EvOllama prompt) in
  let* response := call (requests_post_ollama svc prompt) in
  if status_code response =? 200
  then let* field := lift (resp_field response) in ret (Py.strip field)
  else raise (Exception ("Ollama error: " +:+ resp_text response)).

Definition generate_with_groq (prompt : string) : M (Net W) string :=
  if negb (Py.truthy (GROQ_API_KEY svc))
  then raise (Exception "GROQ_API_KEY not set in environment")
  else
    run emit (EvGroq prompt) in
    let* response := call (requests_post_groq svc prompt) in
    if status_code response =? 200
    then let* field := lift (resp_field response) in ret (Py.strip field)
    else raise (Exception ("Groq error: " +:+ resp_text response)).

(** The context block and the prompt of [generate_answer]. *)
Definition build_context (retrieved : list (Retrieved F)) : string :=
  Py.join (nl +:+ nl)
    (map (fun r => "[" +:+ r_source r +:+ "]" +:+ nl +:+ r_text r) retrieved).

Definition build_prompt (context question : string) : string :=
  SYSTEM_PROMPT +:+ nl +:+ nl +:+ "Context:" +:+ nl +:+ context +:+ nl +:+ nl +:+
  "Question: " +:+ question +:+ nl +:+ nl +:+ "Answer:".

Definition unavailable_record : Answer F :=
  mkAnswer NO_LLM_RESPONSE "N/A" f_zero "".

Definition not_found_record : Answer F :=
  mkAnswer NO_CONTEXT_RESPONSE "N/A" f_zero "".

Definition error_record (e : pyexn) : Answer F :=
  mkAnswer ("Error generating answer: " +:+ exn_str e) "N/A" f_zero "".

(** The part of [generate_answer] after a non-empty retrieval. *)
Definition answer_from (question : string) (use_groq : bool)
    (retrieved : list (Retrieved F)) (top : Retrieved F)
  : M (Net W) (Answer F) :=
  let context := build_context retrieved in
  let avg_score := f_div_len (f_sum (map r_score retrieved)) (length retrieved) in
  let prompt := build_prompt context question in
  let* outcome :=
    try_except
      (let* answer :=
         (if use_groq then generate_with_groq prompt
          else generate_with_ollama prompt) in
       ret (inr answer))
      (fun e => ret (inl (error_record e))) in
  match outcome with
  | inl early => ret early
  | inr answer =>
      let all_sources := dict_fromkeys (map r_source retrieved) in
      let citation := Py.join ", " all_sources in
      let snippet :=
        if Py.truthy (r_text top) then Py.prefix 300 (r_text top) +:+ "..." else "" in
      let confidence := f_round2 avg_score in
      ret (mkAnswer answer citation confidence snippet)
  end.

Definition generate_answer (question : string) (index : list V)
    (chunks : list Chunk) : M (Net W) (Answer F) :=
  let use_groq := check_groq_available in
  let* use_ollama := check_ollama_available in
  if negb use_groq && negb use_ollama then ret unavailable_record
  else
    let* retrieved := retrieve question index chunks default_top_k default_threshold in
    match retrieved with
    | [] => ret not_found_record
    | top :: _ => answer_from question use_groq retrieved top
    end.

(** The [for i, q in enumerate(questions)] loop from position [i], with
    the list [answers] built so far. *)
Fixpoint batch_loop (questions : list Question) (index : list V)
    (chunks : list Chunk) (progress_callback : bool) (total i : nat)
    (answers : list (AnswerRow F)) : M (Net W) (list (AnswerRow F)) :=
  match questions with
  | [] => ret answers
  | q :: rest =>
      let* result := generate_answer (q_question q) index chunks in
      let answers' :=
        answers ++ [mkRow (q_number q) (q_question q) (answer result)
                      (citation result) (confidence result) (snippet result)] in
      run (if progress_callback then emit (EvProgress (i + 1) total) else ret tt) in
      batch_loop rest index chunks progress_callback total (i + 1) answers'
  end.

(** [progress_callback] is [true] when a callback is given; calling it is
    the event [EvProgress]. *)
Definition generate_batch_answers (questions : list Question) (index : list V)
    (chunks : list Chunk) (progress_callback : bool)
  : M (Net W) (list (AnswerRow F)) :=
  batch_loop questions index chunks progress_callback (length questions) 0 [].

End Pipeline.

(** ** Vector index store ([embedder.py], [build_index]) *)

(** A persisted artifact: a serialized index (its rows) or a pickled chunk
    list. *)
Inductive Blob (V : Type) :=
| IndexFile (rows : list V)
| ChunksFile (chunks : list Chunk).
Arguments IndexFile {V} _.
Arguments ChunksFile {V} _.

(** The file system: directories, regular files by path, and what was
    printed. *)
Record FS (V : Type) := mkFS {
  dirs : gset string;
  files : gmap string (Blob V);
  stdout : list string
}.
Arguments mkFS {V} _ _ _.
Arguments dirs {V} _.
Arguments files {V} _.
Arguments stdout {V} _.

Definition FAISS_BASE_PATH : string := "faiss_store".

Module OsPath.

Definition is_sep (c : ascii) : bool := bool_decide (c = "/"%char).

Fixpoint has_sep (s : string) : bool :=
  match s with
  | EmptyString => false
  | String c s' => is_sep c || has_sep s'
  end.

Definition starts_with_sep (s : string) : bool :=
  match s with String c _ => is_sep c | EmptyString => false end.

Fixpoint ends_with_sep (s : string) : bool :=
  match s with
  | EmptyString => false
  | String c EmptyString => is_sep c
  | String _ s' => ends_with_sep s'
  end.

(** [os.path.join(a, b)] *)
Definition join (a b : string) : string :=
  if starts_with_sep b then b
  else if negb (Py.truthy a) || ends_with_sep a then a +:+ b
  else a +:+ "/" +:+ b.

(** The paths [os.makedirs] visits for a path: every prefix that ends
    before a separator, and the path itself. *)
Fixpoint prefixes_from (acc s : string) : list string :=
  match s with
  | EmptyString => if Py.truthy acc then [acc] else []
  | String c s' =>
      if is_sep c && Py.truthy acc && negb (ends_with_sep acc)
      then acc :: prefixes_from (acc +:+ String c "") s'
      else prefixes_from (acc +:+ String c "") s'
  end.

Definition prefixes (p : string) : list string := prefixes_from "" p.

(** [p[:p.rfind("/") + 1]] *)
Fixpoint head_of (s : string) : string :=
  match s with
  | EmptyString => ""
  | String c s' => if has_sep s then String c (head_of s') else ""
  end.

Fixpoint rstrip_sep (s : string) : string :=
  match s with
  | EmptyString => ""
  | String c s' =>
      match rstrip_sep s' with
      | EmptyString => if is_sep c then "" else String c ""
      | r => String c r
      end
  end.

(** [os.path.dirname(p)] *)
Definition dirname (p : string) : string :=
  let head := head_of p in
  match rstrip_sep head with
  | EmptyString => head
  | stripped => stripped
  end.

End OsPath.

Section Store.
Context {F V W : Type}.
Variable svc : Services F V W.

(** The error of [os.makedirs] on the paths it visits, from the shortest
    on: the first of them that is a regular file decides.  When it is the
    path itself, [mkdir] finds the path taken and raises [FileExistsError],
    which [exist_ok] lets pass for a directory only; when it is an
    ancestor, [mkdir] of the path below it raises [NotADirectoryError]. *)
Fixpoint makedirs_error (fs : FS V) (visited : list string) : option pyexn :=
  match visited with
  | [] => None
  | p :: rest =>
      if bool_decide (is_Some (files fs !! p))
      then Some (match rest with
                 | [] =>
                     FileExistsError ("[Errno 17] File exists: '" +:+ p +:+ "'")
                 | below :: _ =>
                     NotADirectoryError
                       ("[Errno 20] Not a directory: '" +:+ below +:+ "'")
                 end)
      else makedirs_error fs rest
  end.

(** [os.makedirs(path, exist_ok=True)]: fails when the path or one of
    its ancestors is a regular file; otherwise all of them are
    directories afterwards. *)
Definition os_makedirs (path : string) : M (FS V) unit :=
  fun fs =>
    let ps := OsPath.prefixes path in
    match makedirs_error fs ps with
    | Some e => (inl e, fs)
    | None => (inr tt, mkFS (dirs fs ∪ list_to_set ps) (files fs) (stdout fs))
    end.

Definition print (line : string) : M (FS V) unit :=
  fun fs => (inr tt, mkFS (dirs fs) (files fs) (stdout fs ++ [line])).

(** Opening [path] for writing and storing [b]: fails on a directory. *)
Definition write_file (path : string) (b : Blob V) : M (FS V) unit :=
  fun fs =>
    if bool_decide (path ∈ dirs fs)
    then (inl (Exception ("Is a directory: " +:+ path)), fs)
    else (inr tt, mkFS (dirs fs) (<[path := b]> (files fs)) (stdout fs)).

Definition get_user_paths (user_id : Z) : M (FS V) (string * string) :=
  let user_dir := OsPath.join FAISS_BASE_PATH ("user_" +:+ pretty user_id) in
  run os_makedirs user_dir in
  let index_path := OsPath.join user_dir "store.index" in
  let chunks_path := OsPath.join user_dir "chunks.pkl" in
  ret (index_path, chunks_path).

(** [np.stack(vectors)]: the matrix of the rows; no rows is an error. *)
Definition np_stack (vectors : list V) : pyexn + list V :=
  match vectors with
  | [] => inl (ValueError "need at least one array to stack")
  | _ :: _ => inr vectors
  end.

(** [index.add(matrix)] on a flat index. *)
Definition index_add (index matrix : list V) : list V := index ++ matrix.

Definition build_index (all_chunks : list Chunk) (user_id : Z)
  : M (FS V) (list V * list Chunk) :=
  let* paths := get_user_paths user_id in
  let '(index_path, chunks_path) := paths in
  run os_makedirs (OsPath.dirname index_path) in
  let index : list V := [] in
  run print ("Building index with " +:+ pretty (length all_chunks) +:+ " chunks...") in
  let vectors := map (fun chunk => get_embedding svc (text chunk)) all_chunks in
  let* matrix := lift (np_stack vectors) in
  let index := index_add index matrix in
  run write_file index_path (IndexFile index) in
  run write_file chunks_path (ChunksFile all_chunks) in
  ret (index, all_chunks).

End Store.

(** ** Vocabulary of the properties *)

(** A word: non-empty and free of whitespace. *)
Fixpoint no_space (s : string) : bool :=
  match s with
  | EmptyString => true
  | String c s' => negb (Py.isspace c) && no_space s'
  end.

Definition is_word (w : string) : Prop :=
  Py.truthy w = true /\ no_space w = true.

(** The [k]-th window of [size] words, [step] words apart. *)
Definition window (ws : list string) (size step k : nat) : list string :=
  take size (drop (k * step) ws).

Definition chunk_at (ws : list string) (source_name : string)
    (size step k : nat) : Chunk :=
  mkChunk (Py.join " " (window ws size step k)) source_name.

(** [a >= b] on scores, and a score sequence in descending order. *)
Definition score_ge {F} `{FloatOps F} (a b : F) : Prop := f_ge a b = true.


(** The test of the retrieval loop on one hit. *)
Definition hit_kept {F} `{FloatOps F} (chunks : list Chunk) (threshold : F)
    (h : F * Z) : bool :=
  f_ge h.1 (f_single threshold) && (h.2 <? Z.of_nat (length chunks)).

(** Whether the outcome of the tags request counts as a live local
    provider: status 200, and no exception. *)
Definition probe_ok (r : pyexn + Z) : bool :=
  match r with
  | inr code => code =? 200
  | inl _ => false
  end.

(** The arithmetic mean of a score list, as the float operations compute
    it: the sum divided by the count. *)
Definition mean {F} `{FloatOps F} (xs : list F) : F :=
  f_div_len (f_sum xs) (length xs).

(** The state after the probe of the local provider. *)
Definition after_probe {F V W} (svc : Services F V W) (s : Net W) : Net W :=
  mkNet (requests_get_tags svc (world s)).2 (trace s ++ [EvProbeOllama]).

(** The state after the probe and a retrieval. *)
Definition after_retrieval {F V W} (svc : Services F V W) (question : string)
    (s : Net W) : Net W :=
  mkNet (world (after_probe svc s))
    ((trace (after_probe svc s) ++ [EvEmbed question]) ++ [EvSearch default_top_k]).

(** The call of the generation backend that [generate_answer] makes. *)
Definition generation_call {F V W} (svc : Services F V W) (prompt : string)
  : M (Net W) string :=
  if check_groq_available svc then generate_with_groq svc prompt
  else generate_with_ollama svc prompt.

(** For this question the index reports a negative position only with a
    score that fails the test against the default threshold: the padding
    of an index that holds fewer than [top_k] vectors. *)
Definition padding_below_threshold {F} `{FloatOps F} {V W}
    (svc : Services F V W) (index : list V) (question : string) : Prop :=
  Forall (fun h : F * Z => h.2 < 0 -> f_ge h.1 (f_single default_threshold) = false)
    (index_search svc index (get_embedding svc question) default_top_k).

(** The row that [generate_batch_answers] appends for a question and the
    record [generate_answer] returned for it. *)
Definition row_of {F} (q : Question) (r : Answer F) : AnswerRow F :=
  mkRow (q_number q) (q_question q) (answer r) (citation r) (confidence r) (snippet r).

(** The state after the progress report for the question at position [i]
    (unchanged when no callback is given). *)
Definition after_progress {W} (progress_callback : bool) (i total : nat)
    (s : Net W) : Net W :=
  if progress_callback
  then mkNet (world s) (trace s ++ [EvProgress (i + 1) total])
  else s.

(** [batch_run svc index chunks cb total i s questions rows s']: starting
    in state [s] at position [i], each question in turn is answered by
    [generate_answer] in the state the previous question left, its row is
    made of the question and that record, and the run ends in [s']. *)
Inductive batch_run {F} `{FloatOps F} {V W} (svc : Services F V W)
    (index : list V) (chunks : list Chunk) (progress_callback : bool)
    (total : nat)
  : nat -> Net W -> list Question -> list (AnswerRow F) -> Net W -> Prop :=
| batch_run_nil i s :
    batch_run svc index chunks progress_callback total i s [] [] s
| batch_run_cons i s q questions r s1 rows s' :
    generate_answer svc (q_question q) index chunks s = (inr r, s1) ->
    batch_run svc index chunks progress_callback total (i + 1)
      (after_progress progress_callback i total s1) questions rows s' ->
    batch_run svc index chunks progress_callback total i s
      (q :: questions) (row_of q r :: rows) s'.

(** The rows that count as answered, and those that count as not found. *)
Definition answered_rows {F} (rows : list (AnswerRow F)) : list (AnswerRow F) :=
  filter (fun a => row_answer a <> NO_CONTEXT_RESPONSE) rows.

Definition not_found_rows {F} (rows : list (AnswerRow F)) : list (AnswerRow F) :=
  filter (fun a => row_answer a = NO_CONTEXT_RESPONSE) rows.

(** The average confidence as the specification words it: the mean over
    the answered rows, zero when there is none. *)
Definition claimed_avg_confidence {F} `{FloatOps F} (rows : list (AnswerRow F))
  : PyNum F :=
  match map row_confidence (answered_rows rows) with
  | [] => PyInt 0
  | c :: cs => PyFloat (mean (c :: cs))
  end.

(** The directory of a user's artifacts. *)
Definition user_dir (user_id : Z) : string :=
  OsPath.join FAISS_BASE_PATH ("user_" +:+ pretty user_id).

(** A regular file stands where [os.makedirs] needs a directory. *)
Definition blocked {V} (fs : FS V) (path : string) : Prop :=
  Exists (fun p => is_Some (files fs !! p)) (OsPath.prefixes path).

(** ** IEEE 754 binary64 as an instance of the float interface

    Python's [float] with the operations of [SpecFloat], and NumPy's cast
    of a [float] to single precision.  [sum] adds from
    the left starting at [0] (CPython before 3.12; later versions
    compensate the rounding errors, with the same result whenever every
    partial sum is exact).  [round(x, 2)] is the double nearest to the
    decimal obtained by rounding the exact value of [x] to two places,
    ties to even. *)

Module Binary64.

Definition prec : Z := 53.
Definition emax : Z := 1024.

(** [float(z)] *)
Definition of_int (z : Z) : spec_float := binary_normalize prec emax z 0 false.

Definition lit (m : Z) (k : nat) : spec_float :=
  SFdiv prec emax (of_int m) (of_int (10 ^ Z.of_nat k)).

Definition ge (x y : spec_float) : bool := SFleb y x.

(** The integer [+m] or [-m]. *)
Definition signed (s : bool) (m : positive) : Z := if s then Z.neg m else Z.pos m.

(** [float(np.float32(x))]: [x] rounded to binary32, ties to even, as the
    double of the same value. *)
Definition single (x : spec_float) : spec_float :=
  match x with
  | S754_finite s m e =>
      match binary_normalize 24 128 (signed s m) e s with
      | S754_finite s' m' e' => binary_normalize prec emax (signed s' m') e' s'
      | y => y
      end
  | _ => x
  end.

Definition sum (xs : list spec_float) : spec_float :=
  fold_left (SFadd prec emax) xs (S754_zero false).

Definition div_len (x : spec_float) (n : nat) : spec_float :=
  SFdiv prec emax x (of_int (Z.of_nat n)).

(** [n / d] rounded to an integer, ties to even, for [d > 0]. *)
Definition round_half_even (n d : Z) : Z :=
  let q := n / d in
  let r := n mod d in
  if 2 * r <? d then q
  else if d <? 2 * r then q + 1
  else if Z.even q then q else q + 1.

Definition round2 (x : spec_float) : spec_float :=
  match x with
  | S754_finite s m e =>
      let n := if 0 <=? e then Z.pos m * 2 ^ e * 100
               else round_half_even (Z.pos m * 100) (2 ^ (- e)) in
      match n with
      | Z.pos p => SFdiv prec emax (S754_finite s p 0) (S754_finite false 100 0)
      | _ => S754_zero s
      end
  | _ => x
  end.

#[global] Instance float_ops : FloatOps spec_float.
Proof.
  refine {| f_lit := lit; f_ge := ge; f_single := single; f_sum := sum;
            f_div_len := div_len; f_round2 := round2; f_ge_trans := _ |}.
  intros c b a. unfold ge, SFleb, SFcompare.
  destruct a as [sa|sa| |sa ma ea], b as [sb|sb| |sb mb eb], c as [sc|sc| |sc mc ec];
    repeat match goal with s : bool |- _ => destruct s end; simpl; try congruence.
  all: change (PosDef.Pos.compare_cont Eq) with Pos.compare.
  all: destruct (Z.compare_spec ea eb), (Z.compare_spec eb ec), (Z.compare_spec ea ec);
    subst; try lia; simpl; try congruence.
  all: destruct (Pos.compare_spec ma mb), (Pos.compare_spec mb mc), (Pos.compare_spec ma mc);
    subst; try lia; simpl; try congruence.
Defined.

(** [float("-inf")] and the score FAISS reports with the position [-1],
    the lowest single-precision value. *)
Definition neg_infinity : spec_float := S754_infinity true.
Definition lowest_float32 : spec_float := of_int (- ((2 ^ 24 - 1) * 2 ^ 104)).

End Binary64.

(** ** A test double of the services

    Scores are binary64 values.  A stored vector is identified with its
    similarity to the query, so the flat search lists the stored scores
    with their positions and pads the answer to [k] hits with the
    position [-1] and the lowest single-precision score, as the library's
    search does on an index that holds fewer than [k] vectors.  The state
    of the network counts the requests served. *)

Module Demo.

Definition pad_hits (k : Z) (hits : list (spec_float * Z)) : list (spec_float * Z) :=
  take (Z.to_nat k) hits
  ++ replicate (Z.to_nat k - length hits) (Binary64.lowest_float32, -1).

Definition flat_search (index : list spec_float) (_ : spec_float) (k : Z)
  : list (spec_float * Z) :=
  pad_hits k (zip index (map Z.of_nat (seq 0 (length index)))).

Definition services (key : string) (tags : pyexn + Z)
    (reply : nat -> pyexn + Response) : Services spec_float spec_float nat :=
  {| GROQ_API_KEY := key;
     get_embedding := fun _ => S754_zero false;
     index_search := flat_search;
     requests_get_tags := fun w => (tags, S w);
     requests_post_ollama := fun _ w => (reply w, S w);
     requests_post_groq := fun _ w => (reply w, S w) |}.

(** A backend that answers every request. *)
Definition replies (body : string) (_ : nat) : pyexn + Response :=
  inr (mkResponse 200 body (inr body)).

(** A backend that times out on the request it receives when [n] requests
    have been served, and answers the others. *)
Definition times_out_at (n : nat) (body : string) (w : nat) : pyexn + Response :=
  if (w =? n)%nat then inl (Exception "Read timed out.")
  else inr (mkResponse 200 body (inr body)).

Definition start : Net nat := mkNet 0%nat [].

Definition policy : Chunk :=
  mkChunk "Our data is encrypted with AES-256 at rest" "policy.pdf".

Definition blank : Chunk := mkChunk "" "scan.pdf".

(** The scores 0.9, 0.35 and 0.2 of an index, in single precision. *)
Definition single_scores : list spec_float :=
  map Binary64.single [Binary64.lit 9 1; Binary64.lit 35 2; Binary64.lit 2 1].

End Demo.

(** ** Vector index store, continued ([embedder.py], [load_index],
    [index_exists], [delete_user_index]) *)

(** [os.path.exists(path)]: a regular file or a directory. *)
Definition os_path_exists {V} (path : string) : M (FS V) bool :=
  fun fs => (inr (bool_decide (is_Some (files fs !! path) \/ path ∈ dirs fs)), fs).

(** [faiss.read_index(path)]: the rows of a serialized index; anything
    else at the path (a directory, another kind of file) is an error. *)
Definition faiss_read_index {V} (path : string) : M (FS V) (list V) :=
  fun fs =>
    match files fs !! path with
    | Some (IndexFile rows) => (inr rows, fs)
    | _ => (inl (Exception ("could not read index from " +:+ path)), fs)
    end.

(** [pickle.load] on the file opened at [path]. *)
Definition pickle_load {V} (path : string) : M (FS V) (list Chunk) :=
  fun fs =>
    match files fs !! path with
    | Some (ChunksFile chunks) => (inr chunks, fs)
    | _ => (inl (Exception ("could not unpickle " +:+ path)), fs)
    end.

(** [os.remove(path)]: removes a regular file; fails on anything else. *)
Definition os_remove {V} (path : string) : M (FS V) unit :=
  fun fs =>
    match files fs !! path with
    | Some _ => (inr tt, mkFS (dirs fs) (delete path (files fs)) (stdout fs))
    | None => (inl (Exception ("cannot remove " +:+ path)), fs)
    end.

(** The message of the [FileNotFoundError] that [load_index] raises. *)
Definition no_index_message (user_id : Z) : string :=
  "No index found for user " +:+ pretty user_id +:+
  ". Please build the knowledge base first.".

(** [load_index]; its [FileNotFoundError] is rendered as [Exception] with
    the same message. *)
Definition load_index {V} (user_id : Z) : M (FS V) (list V * list Chunk) :=
  let* paths := get_user_paths user_id in
  let '(index_path, chunks_path) := paths in
  let* has_index := os_path_exists index_path in
  let* has_chunks := os_path_exists chunks_path in
  if negb has_index || negb has_chunks
  then raise (Exception (no_index_message user_id))
  else
    let* index := faiss_read_index index_path in
    let* chunks := pickle_load chunks_path in
    ret (index, chunks).

Definition index_exists {V} (user_id : Z) : M (FS V) bool :=
  let* paths := get_user_paths user_id in
  let '(index_path, chunks_path) := paths in
  let* has_index := os_path_exists index_path in
  let* has_chunks := os_path_exists chunks_path in
  ret (has_index && has_chunks).

Definition delete_user_index {V} (user_id : Z) : M (FS V) bool :=
  let* paths := get_user_paths user_id in
  let '(index_path, chunks_path) := paths in
  let deleted := false in
  let* has_index := os_path_exists index_path in
  let* deleted :=
    (if has_index then run os_remove index_path in ret true else ret deleted) in
  let* has_chunks := os_path_exists chunks_path in
  let* deleted :=
    (if has_chunks then run os_remove chunks_path in ret true else ret deleted) in
  ret deleted.

(** The paths of a user's two artifacts. *)
Definition index_path (user_id : Z) : string :=
  OsPath.join (user_dir user_id) "store.index".

Definition chunks_path (user_id : Z) : string :=
  OsPath.join (user_dir user_id) "chunks.pkl".

(** A store in which the user's directory can be created and no directory
    sits where an artifact goes. *)
Definition store_ready {V} (fs : FS V) (user_id : Z) : Prop :=
  (~ blocked fs (user_dir user_id))
  /\ (index_path user_id ∉ dirs fs)
  /\ (chunks_path user_id ∉ dirs fs).

(** The store once [get_user_paths] has created the user's directory. *)
Definition with_user_dir {V} (user_id : Z) (fs : FS V) : FS V :=
  mkFS (dirs fs ∪ list_to_set (OsPath.prefixes (user_dir user_id)))
    (files fs) (stdout fs).

(** Something (a file or a directory) exists at the path. *)
Definition present {V} (fs : FS V) (path : string) : Prop :=
  is_Some (files fs !! path) \/ path ∈ dirs fs.

(** The rows [build_index] stacks: one embedding per chunk, in order. *)
Definition embed_chunks {F V W} (svc : Services F V W) (chunks : list Chunk)
  : list V :=
  map (fun chunk => get_embedding svc (text chunk)) chunks.

(** A store with nothing in it. *)
Definition empty_store {V} : FS V := mkFS ∅ ∅ [].

(** An operation of the store is confined to a user when, whatever it
    returns, it changes no file other than that user's two artifacts and
    creates no directory other than those on the way to the user's
    directory. *)
Definition confined {V A} (user_id : Z) (m : M (FS V) A) : Prop :=
  forall fs,
    (forall p, p <> index_path user_id -> p <> chunks_path user_id ->
       files (m fs).2 !! p = files fs !! p)
    /\ dirs fs ⊆ dirs (m fs).2
    /\ dirs (m fs).2 ⊆ dirs fs ∪ list_to_set (OsPath.prefixes (user_dir user_id)).

(** The generation request [generate_answer] sends for a prompt: to Groq
    when the key is set, to Ollama otherwise. *)
Definition generation_event {F V W} (svc : Services F V W) (prompt : string) : Event :=
  if check_groq_available svc then EvGroq prompt else EvOllama prompt.

(** The prompt [generate_answer] composes for a question and what was
    retrieved for it. *)
Definition prompt_for {F} (question : string) (retrieved : list (Retrieved F)) : string :=
  build_prompt (build_context retrieved) question.

Definition is_progress (e : Event) : bool :=
  match e with EvProgress _ _ => true | _ => false end.

(** What the loop of [retrieve] keeps of one hit at a non-negative
    position: the chunk at that position with the hit's score, when the
    score passes the test against the threshold as cast for it, and the
    position is inside the list. *)
Definition pick {F} `{FloatOps F} (chunks : list Chunk) (threshold : F)
    (h : F * Z) : option (Retrieved F) :=
  if f_ge h.1 (f_single threshold)
  then match chunks !! Z.to_nat h.2 with
       | Some c => Some (mkRetrieved (text c) (source c) h.1)
       | None => None
       end
  else None.

(** ** Stable sorting

    [sort_by key l] sorts [l] by ascending [key] and keeps the order of the
    elements of equal key, as Python's [sorted(l, key=...)] does: each
    element is put before the first one whose key is not smaller. *)

Module Stable.

Fixpoint insert_by {A} (key : A -> Z) (x : A) (l : list A) : list A :=
  match l with
  | [] => [x]
  | y :: l' =>
      if key x <=? key y then x :: l
      else y :: insert_by key x l'
  end.

Definition sort_by {A} (key : A -> Z) (l : list A) : list A :=
  foldr (insert_by key) [] l.

End Stable.

(** ** Document readers and the questionnaire parser ([parser.py])

    The libraries behind [parser.py] are parameters, for uploaded files of
    type [File].  [file_name f] is [f.name].  [pdf_pages f] is what the
    loop over [pdfplumber.open(f).pages] sees: [page.extract_text()] of
    each page in turn ([None] for a page without text), or the exception
    that opening the file or extracting a page raises.  [file_read_utf8 f]
    is [f.read().decode("utf-8")].  [docx_paragraphs f] is the [text] of
    each paragraph of [Document(f)], or the exception that importing the
    library or opening the file raises.  [re_findall p s] is
    [re.findall(p, s, re.DOTALL)] for a pattern [p] with two groups, and
    [py_int] is [int] on a [str]. *)

Record Readers (File : Type) := mkReaders {
  file_name : File -> string;
  pdf_pages : File -> pyexn + list (option string);
  file_read_utf8 : File -> pyexn + string;
  docx_paragraphs : File -> pyexn + list string;
  re_findall : string -> string -> list (string * string);
  py_int : string -> pyexn + Z
}.
Arguments mkReaders {File} _ _ _ _ _ _.
Arguments file_name {File} _ _.
Arguments pdf_pages {File} _ _.
Arguments file_read_utf8 {File} _ _.
Arguments docx_paragraphs {File} _ _.
Arguments re_findall {File} _ _ _.
Arguments py_int {File} _ _.

Module PyStr.

(** [s.endswith(suffix)]: some tail of [s] is [suffix]. *)
Fixpoint endswith (s suffix : string) : bool :=
  String.eqb s suffix
  || match s with
     | EmptyString => false
     | String _ s' => endswith s' suffix
     end.

(** [s.replace(old, new)] for one-character [old] and [new]. *)
Fixpoint replace (old new : ascii) (s : string) : string :=
  match s with
  | EmptyString => ""
  | String c s' =>
      String (if Ascii.eqb c old then new else c) (replace old new s')
  end.

(** [c in s] for a character [c]. *)
Fixpoint contains (c : ascii) (s : string) : bool :=
  match s with
  | EmptyString => false
  | String c' s' => Ascii.eqb c' c || contains c s'
  end.

End PyStr.

Definition newline : ascii := ascii_of_nat 10.
Definition space : ascii := " "%char.

(** The loop over the pages: [text += page_text + "\n"] for every page
    whose text is neither [None] nor empty. *)
Definition pages_text (pages : list (option string)) : string :=
  fold_left
    (fun text page_text =>
       match page_text with
       | Some t => if Py.truthy t then text +:+ t +:+ nl else text
       | None => text
       end)
    pages "".

(** The two patterns of [parse_questionnaire], "1." or "1)" at the start
    of a line, and "Question 1:". *)
Definition NUMBERED_PATTERN : string :=
  "(?m)^(\d+)[.)]\s+(.+?)(?=\n\d+[.)]|\Z)".
Definition QUESTION_PATTERN : string :=
  "(?m)^Question\s+(\d+)[:\.]?\s+(.+?)(?=\nQuestion\s+\d+|\Z)".
Definition patterns : list string := [NUMBERED_PATTERN; QUESTION_PATTERN].

(** [for num, question_text in matches: questions.append(...)]: the first
    [int(num)] that raises ends the function. *)
Fixpoint to_questions {File} (rd : Readers File) (matches : list (string * string))
  : pyexn + list Question :=
  match matches with
  | [] => inr []
  | (num, question_text) :: rest =>
      match py_int rd num with
      | inl e => inl e
      | inr number =>
          match to_questions rd rest with
          | inl e => inl e
          | inr questions =>
              inr (mkQuestion number
                     (PyStr.replace newline space (Py.strip question_text))
                   :: questions)
          end
      end
  end.

(** [for pattern in patterns]: the first pattern that matches anything
    gives the questions, and the loop breaks. *)
Fixpoint questions_loop {File} (rd : Readers File) (patterns : list string)
    (text : string) : pyexn + list Question :=
  match patterns with
  | [] => inr []
  | pattern :: rest =>
      match re_findall rd pattern text with
      | [] => questions_loop rd rest text
      | matches => to_questions rd matches
      end
  end.

(** [sorted(questions, key=lambda x: x["number"])] *)
Definition sorted_by_number (questions : list Question) : list Question :=
  Stable.sort_by q_number questions.

(** The loop that drops the questions whose number was [seen]. *)
Fixpoint unique_from (seen : gset Z) (questions : list Question) : list Question :=
  match questions with
  | [] => []
  | q :: rest =>
      if decide (q_number q ∈ seen) then unique_from seen rest
      else q :: unique_from ({[q_number q]} ∪ seen) rest
  end.

Definition parse_questionnaire {File} (rd : Readers File) (uploaded_file : File)
  : pyexn + list Question :=
  match pdf_pages rd uploaded_file with
  | inl e => inl e
  | inr pages =>
      match questions_loop rd patterns (pages_text pages) with
      | inl e => inl e
      | inr questions => inr (unique_from ∅ (sorted_by_number questions))
      end
  end.

Definition extract_text_from_pdf {File} (rd : Readers File) (uploaded_file : File)
  : pyexn + string :=
  match pdf_pages rd uploaded_file with
  | inl e => inl e
  | inr pages => inr (pages_text pages)
  end.

Definition extract_text_from_txt {File} (rd : Readers File) (uploaded_file : File)
  : pyexn + string :=
  file_read_utf8 rd uploaded_file.

(** [text += paragraph.text + "\n"] for every paragraph. *)
Definition paragraphs_text (paragraphs : list string) : string :=
  fold_left (fun text paragraph => text +:+ paragraph +:+ nl) paragraphs "".

(** Whatever the body raises is caught and raised again as a
    [ValueError]. *)
Definition extract_text_from_docx {File} (rd : Readers File) (uploaded_file : File)
  : pyexn + string :=
  match docx_paragraphs rd uploaded_file with
  | inl e => inl (ValueError ("Error reading DOCX file: " +:+ exn_str e))
  | inr paragraphs => inr (paragraphs_text paragraphs)
  end.

Definition detect_file_type (filename : string) : string :=
  if PyStr.endswith filename ".pdf" then "pdf"
  else if PyStr.endswith filename ".txt" then "txt"
  else if PyStr.endswith filename ".docx" then "docx"
  else "unknown".

Definition extract_text {File} (rd : Readers File) (uploaded_file : File)
  : pyexn + string :=
  let filename := file_name rd uploaded_file in
  let file_type := detect_file_type filename in
  if String.eqb file_type "pdf" then extract_text_from_pdf rd uploaded_file
  else if String.eqb file_type "txt" then extract_text_from_txt rd uploaded_file
  else if String.eqb file_type "docx" then extract_text_from_docx rd uploaded_file
  else inl (ValueError ("Unsupported file type: " +:+ filename)).

(** The matches [parse_questionnaire] works on: those of the numbered
    pattern when there are any, else those of the "Question n" pattern. *)
Definition used_matches {File} (rd : Readers File) (text : string)
  : list (string * string) :=
  match re_findall rd NUMBERED_PATTERN text with
  | [] => re_findall rd QUESTION_PATTERN text
  | matches => matches
  end.

(** The question a match stands for: its number, and its text stripped and
    put on one line. *)
Definition question_of {File} (rd : Readers File) (m : string * string)
    (q : Question) : Prop :=
  py_int rd m.1 = inr (q_number q)
  /\ q_question q = PyStr.replace newline space (Py.strip m.2).

(** The elements of a list that carry the key [n], in list order. *)
Definition keyed {A} (key : A -> Z) (n : Z) (l : list A) : list A :=
  filter (fun x => key x = n) l.

(** Order of two elements by key. *)
Definition key_le {A} (key : A -> Z) (a b : A) : Prop := key a <= key b.
Definition key_lt {A} (key : A -> Z) (a b : A) : Prop := key a < key b.

(** A test double of the readers: a file is its name and the text of its
    pages; the matcher knows one line per question, "<digit>. <text>", and
    [int] reads one digit. *)
Module DemoReaders.

Definition digit_value (s : string) : pyexn + Z :=
  match s with
  | String c EmptyString =>
      let n := nat_of_ascii c in
      if (48 <=? n)%nat && (n <=? 57)%nat then inr (Z.of_nat n - 48)
      else inl (ValueError ("invalid literal for int() with base 10: " +:+ s))
  | _ => inl (ValueError ("invalid literal for int() with base 10: " +:+ s))
  end.

Fixpoint lines_from (cur s : string) : list string :=
  match s with
  | EmptyString => if Py.truthy cur then [cur] else []
  | String c s' =>
      if Ascii.eqb c newline then cur :: lines_from "" s'
      else lines_from (cur +:+ String c "") s'
  end.

Definition numbered_line (line : string) : option (string * string) :=
  match line with
  | String d (String "." (String " " rest)) =>
      match digit_value (String d "") with
      | inr _ => Some (String d "", rest)
      | inl _ => None
      end
  | _ => None
  end.

Definition findall (pattern text : string) : list (string * string) :=
  if String.eqb pattern NUMBERED_PATTERN
  then omap numbered_line (lines_from "" text)
  else [].

Definition readers : Readers (string * list (option string)) :=
  {| file_name := fst;
     pdf_pages := fun f => inr (snd f);
     file_read_utf8 := fun f => inr (pages_text (snd f));
     docx_paragraphs := fun f => inl (Exception "Package not found");
     re_findall := findall;
     py_int := digit_value |}.

Definition questionnaire : string * list (option string) :=
  ("soc2.pdf",
   [Some ("2. Is data encrypted at rest?" +:+ nl +:+ "1. Do you hold a SOC 2 report?");
    None;
    Some ("2. Is data encrypted in transit?" +:+ nl +:+ "3. Who approves access?")]).

End DemoReaders.

(** ** Accounts and saved answers ([db.py])

    The database is the content of its three tables, each the list of its
    rows in rowid order, with the counter that [AUTOINCREMENT] keeps for
    the table: the largest rowid the table ever held.  The tables exist, as
    after [init_db], and one connection at a time works on the database.
    A [TIMESTAMP] column holds the [CURRENT_TIMESTAMP] of the insertion,
    which the inserting function receives as [now].

    Rowids are unbounded here: the failure of an insertion into a table
    whose counter has reached [2^63 - 1] is left out. *)

Record UserRow := mkUserRow {
  u_id : Z;
  u_email : string;
  u_password_hash : string;
  u_created_at : string
}.

Record QuestionnaireRow := mkQuestionnaireRow {
  qn_id : Z;
  qn_user_id : Z;
  qn_filename : string;
  qn_uploaded_at : string
}.

(** A row of [answers], in column order.  [confidence_score] is [None]
    when the column holds [NULL]. *)
Record SavedAnswer (F : Type) := mkSavedAnswer {
  a_id : Z;
  a_questionnaire_id : Z;
  a_question_number : Z;
  a_question_text : string;
  a_generated_answer : string;
  a_edited_answer : string;
  a_citation : string;
  a_confidence_score : option F;
  a_evidence_snippet : string
}.
Arguments mkSavedAnswer {F} _ _ _ _ _ _ _ _ _.
Arguments a_id {F} _.
Arguments a_questionnaire_id {F} _.
Arguments a_question_number {F} _.
Arguments a_question_text {F} _.
Arguments a_generated_answer {F} _.
Arguments a_edited_answer {F} _.
Arguments a_citation {F} _.
Arguments a_confidence_score {F} _.
Arguments a_evidence_snippet {F} _.

Record Db (F : Type) := mkDb {
  t_users : list UserRow;
  seq_users : Z;
  t_questionnaires : list QuestionnaireRow;
  seq_questionnaires : Z;
  t_answers : list (SavedAnswer F);
  seq_answers : Z
}.
Arguments mkDb {F} _ _ _ _ _ _.
Arguments t_users {F} _.
Arguments seq_users {F} _.
Arguments t_questionnaires {F} _.
Arguments seq_questionnaires {F} _.
Arguments t_answers {F} _.
Arguments seq_answers {F} _.

(** The rowid [AUTOINCREMENT] gives to a new row: one more than the largest
    rowid the table holds or ever held. *)
Definition next_rowid (seq : Z) (ids : list Z) : Z := 1 + foldr Z.max seq ids.

(** Binding a Python [int] to a statement: SQLite's [INTEGER] has 64 bits,
    and a larger [int] makes the call raise [OverflowError]. *)
Definition fits_int64 (z : Z) : bool := (- 2 ^ 63 <=? z) && (z <? 2 ^ 63).

Definition bind_int {St} (z : Z) : M St Z :=
  if fits_int64 z then ret z
  else raise (Exception "Python int too large to convert to SQLite INTEGER").

(** The statements of one call run in one transaction.  When the call
    raises before its [commit], the connection is dropped and what the
    statements did is rolled back. *)
Definition transaction {St A} (m : M St A) : M St A :=
  fun s =>
    match m s with
    | (inl e, _) => (inl e, s)
    | (inr a, s') => (inr a, s')
    end.

Section Database.

Context {F : Type}.

(** [hashlib.sha256(password.encode()).hexdigest()] *)
Variable sha256_hex : string -> string.

(** What a [REAL] column gives back for a Python [float] bound to it:
    SQLite stores a NaN as [NULL], which reads as [None]. *)
Variable sql_real : F -> option F.

Definition hash_password (password : string) : string := sha256_hex password.

(** [email] is [UNIQUE]: the insertion of a second row with the same email
    raises [IntegrityError], and nothing is committed. *)
Definition create_user (now : string) (email password : string) : M (Db F) bool :=
  fun db =>
    let password_hash := hash_password password in
    if bool_decide (email ∈ map u_email (t_users db)) then (inr false, db)
    else
      let id := next_rowid (seq_users db) (map u_id (t_users db)) in
      (inr true,
       mkDb (t_users db ++ [mkUserRow id email password_hash now]) id
            (t_questionnaires db) (seq_questionnaires db)
            (t_answers db) (seq_answers db)).

(** [fetchone()] of the rows with this email and this hash, of which there
    is at most one as [email] is [UNIQUE]; [row[0]] is the id. *)
Definition verify_user (email password : string) : M (Db F) (option Z) :=
  fun db =>
    let password_hash := hash_password password in
    let row :=
      head (filter (fun u => u_email u = email /\ u_password_hash u = password_hash)
              (t_users db)) in
    (inr (match row with Some u => Some (u_id u) | None => None end), db).

Definition get_user_by_email (email : string)
  : M (Db F) (option (Z * string * string)) :=
  fun db =>
    let row := head (filter (fun u => u_email u = email) (t_users db)) in
    (inr (match row with
          | Some u => Some (u_id u, u_email u, u_created_at u)
          | None => None
          end), db).

(** Returns [lastrowid], the id of the new row. *)
Definition save_questionnaire (now : string) (user_id : Z) (filename : string)
  : M (Db F) Z :=
  let* user := bind_int user_id in
  fun db =>
    let qid := next_rowid (seq_questionnaires db) (map qn_id (t_questionnaires db)) in
    (inr qid,
     mkDb (t_users db) (seq_users db)
          (t_questionnaires db ++ [mkQuestionnaireRow qid user filename now]) qid
          (t_answers db) (seq_answers db)).

(** [DELETE FROM answers WHERE questionnaire_id=?] *)
Definition delete_answers (questionnaire_id : Z) : M (Db F) unit :=
  let* qid := bind_int questionnaire_id in
  fun db =>
    (inr tt,
     mkDb (t_users db) (seq_users db)
          (t_questionnaires db) (seq_questionnaires db)
          (filter (fun r => a_questionnaire_id r <> qid) (t_answers db))
          (seq_answers db)).

(** The [INSERT] of one answer: [edited_answer] starts as the generated
    answer. *)
Definition insert_answer (questionnaire_id : Z) (a : AnswerRow F) : M (Db F) unit :=
  let* qid := bind_int questionnaire_id in
  let* number := bind_int (row_number a) in
  fun db =>
    let id := next_rowid (seq_answers db) (map a_id (t_answers db)) in
    (inr tt,
     mkDb (t_users db) (seq_users db)
          (t_questionnaires db) (seq_questionnaires db)
          (t_answers db
           ++ [mkSavedAnswer id qid number (row_question a) (row_answer a)
                 (row_answer a) (row_citation a) (sql_real (row_confidence a))
                 (row_snippet a)])
          id).

Fixpoint insert_answers (questionnaire_id : Z) (answers : list (AnswerRow F))
  : M (Db F) unit :=
  match answers with
  | [] => ret tt
  | a :: rest =>
      run insert_answer questionnaire_id a in
      insert_answers questionnaire_id rest
  end.

Definition save_answers (questionnaire_id : Z) (answers : list (AnswerRow F))
  : M (Db F) unit :=
  transaction
    (run delete_answers questionnaire_id in
     insert_answers questionnaire_id answers).

(** [SELECT * ... ORDER BY question_number].  SQL leaves the order of rows
    of equal [question_number] open; they are listed in rowid order
    here. *)
Definition get_answers (questionnaire_id : Z) : M (Db F) (list (SavedAnswer F)) :=
  let* qid := bind_int questionnaire_id in
  fun db =>
    (inr (Stable.sort_by a_question_number
            (filter (fun r => a_questionnaire_id r = qid) (t_answers db))),
     db).

Definition get_questionnaire_by_id (questionnaire_id : Z)
  : M (Db F) (option (Z * Z * string * string)) :=
  let* qid := bind_int questionnaire_id in
  fun db =>
    let row := head (filter (fun q => qn_id q = qid) (t_questionnaires db)) in
    (inr (match row with
          | Some q => Some (qn_id q, qn_user_id q, qn_filename q, qn_uploaded_at q)
          | None => None
          end), db).

Definition set_edited_answer (edited_text : string) (r : SavedAnswer F)
  : SavedAnswer F :=
  mkSavedAnswer (a_id r) (a_questionnaire_id r) (a_question_number r)
    (a_question_text r) (a_generated_answer r) edited_text (a_citation r)
    (a_confidence_score r) (a_evidence_snippet r).

(** [UPDATE answers SET edited_answer=? WHERE id=?] *)
Definition update_edited_answer (answer_id : Z) (edited_text : string)
  : M (Db F) unit :=
  let* id := bind_int answer_id in
  fun db =>
    (inr tt,
     mkDb (t_users db) (seq_users db)
          (t_questionnaires db) (seq_questionnaires db)
          (map (fun r => if decide (a_id r = id)
                         then set_edited_answer edited_text r else r)
             (t_answers db))
          (seq_answers db)).

Definition delete_questionnaire (questionnaire_id : Z) : M (Db F) unit :=
  run delete_answers questionnaire_id in
  let* qid := bind_int questionnaire_id in
  fun db =>
    (inr tt,
     mkDb (t_users db) (seq_users db)
          (filter (fun q => qn_id q <> qid) (t_questionnaires db))
          (seq_questionnaires db)
          (t_answers db) (seq_answers db)).

End Database.

(** ** Export ([exporter.py], [export_to_csv]) *)

(** A value handed to [csv.writer]: an [int], a [str], or a [float] or
    [None]. *)
Inductive Cell (F : Type) :=
| CInt (z : Z)
| CStr (s : string)
| CReal (x : option F).
Arguments CInt {F} _.
Arguments CStr {F} _.
Arguments CReal {F} _.

Definition CSV_HEADER {F} : list (Cell F) :=
  [CStr "Question Number"; CStr "Question Text"; CStr "Answer";
   CStr "Citation"; CStr "Confidence"; CStr "Evidence Snippet"].

(** [edited_answer if edited_answer else gen_answer] *)
Definition shown_answer {F} (row : SavedAnswer F) : string :=
  if Py.truthy (a_edited_answer row) then a_edited_answer row
  else a_generated_answer row.

(** The cells of one record.  A row of [answers] has nine columns, so
    [len(row) > 8] holds and the snippet is [row[8]]. *)
Definition csv_cells {F} (row : SavedAnswer F) : list (Cell F) :=
  [CInt (a_question_number row); CStr (a_question_text row);
   CStr (shown_answer row); CStr (a_citation row);
   CReal (a_confidence_score row); CStr (a_evidence_snippet row)].

(** [writerow cells] is the text [csv.writer(output).writerow(cells)]
    appends to [output]; [output.getvalue()] is all of it. *)
Definition export_to_csv {F} (writerow : list (Cell F) -> string)
    (answers_data : list (SavedAnswer F)) : string :=
  fold_left (fun output row => output +:+ writerow (csv_cells row))
    answers_data (writerow CSV_HEADER).

(** ** Vocabulary of the database properties *)

Definition int64 (z : Z) : Prop := - 2 ^ 63 <= z < 2 ^ 63.

(** The row [save_answers] stores for an answer under the id [id]. *)
Definition stored_answer {F} (sql_real : F -> option F) (questionnaire_id : Z)
    (id : Z) (a : AnswerRow F) : SavedAnswer F :=
  mkSavedAnswer id questionnaire_id (row_number a) (row_question a)
    (row_answer a) (row_answer a) (row_citation a)
    (sql_real (row_confidence a)) (row_snippet a).

(** The rows stored for a list of answers, with consecutive ids from
    [first] on. *)
Fixpoint stored_answers {F} (sql_real : F -> option F) (questionnaire_id : Z)
    (first : Z) (answers : list (AnswerRow F)) : list (SavedAnswer F) :=
  match answers with
  | [] => []
  | a :: rest =>
      stored_answer sql_real questionnaire_id first a
      :: stored_answers sql_real questionnaire_id (first + 1) rest
  end.

(** The answers of a questionnaire as the table holds them, in rowid
    order. *)
Definition answers_of {F} (questionnaire_id : Z) (db : Db F) : list (SavedAnswer F) :=
  filter (fun r => a_questionnaire_id r = questionnaire_id) (t_answers db).

(** What [update_edited_answer] does to one row. *)
Definition edited {F} (answer_id : Z) (edited_text : string) (r : SavedAnswer F)
  : SavedAnswer F :=
  if decide (a_id r = answer_id) then set_edited_answer edited_text r else r.

(** The cells of a row once [edited_text] is the edited answer of the row
    with the id [answer_id]: the Answer cell of that row holds the text,
    or the generated answer when the text is empty; nothing else
    differs. *)
Definition cells_after_edit {F} (answer_id : Z) (edited_text : string)
    (row : SavedAnswer F) : list (Cell F) :=
  if decide (a_id row = answer_id)
  then [CInt (a_question_number row); CStr (a_question_text row);
        CStr (if Py.truthy edited_text then edited_text
              else a_generated_answer row);
        CStr (a_citation row); CReal (a_confidence_score row);
        CStr (a_evidence_snippet row)]
  else csv_cells row.

(** The cells [export_to_csv] would write for an answer as generated. *)
Definition answer_cells {F} (sql_real : F -> option F) (a : AnswerRow F)
  : list (Cell F) :=
  [CInt (row_number a); CStr (row_question a); CStr (row_answer a);
   CStr (row_citation a); CReal (sql_real (row_confidence a));
   CStr (row_snippet a)].

(** A database without rows. *)
Definition empty_db {F} : Db F := mkDb [] 0 [] 0 [] 0.

(** A test double of the database services: a column of type [REAL] gives
    back every double but NaN, which reads as [None], and the negative
    zero, which reads as [0.0]; the stand-in hash marks its input, and the
    stand-in writer puts the cells of a record between bars. *)
Module DemoDb.

Definition sql_real (x : spec_float) : option spec_float :=
  match x with
  | S754_nan => None
  | S754_zero _ => Some (S754_zero false)
  | _ => Some x
  end.

Definition sha256_hex (password : string) : string := "sha256:" +:+ password.

Definition cell_text (c : Cell spec_float) : string :=
  match c with
  | CInt z => pretty z
  | CStr s => s
  | CReal (Some x) => if Binary64.ge x (Binary64.lit 5 1) then "high" else "low"
  | CReal None => ""
  end.

Definition writerow (cells : list (Cell spec_float)) : string :=
  Py.join "|" (map cell_text cells) +:+ nl.

Definition answers : list (AnswerRow spec_float) :=
  [mkRow 1 "Do you hold a SOC 2 report?" "Yes, renewed every year."
     "audit.pdf" (Binary64.lit 87 2) "The SOC 2 report is renewed every year";
   mkRow 2 "Is data encrypted at rest?" NO_CONTEXT_RESPONSE
     "N/A" (Binary64.lit 0 1) ""].

(** The database after one upload by user 3 and the answers to it. *)
Definition saved : Db spec_float :=
  let uploaded := save_questionnaire "2024-05-01 09:30:00" 3 "vendor.pdf" empty_db in
  (save_answers sql_real 1 answers uploaded.2).2.

End DemoDb.

(** * Properties *)

(** ** The model on small inputs *)

Example split_runs : Py.split "  a b   c " = ["a"; "b"; "c"].
Proof. reflexivity. Qed.

Example slice_negative_stop : Py.slice [1; 2; 3; 4; 5] 1 (-1) = [2; 3; 4].
Proof. reflexivity. Qed.

Example chunk_small :
  chunk_text 5 "a b  c d e" "doc" 3 1
  = Some [mkChunk "a b c" "doc"; mkChunk "c d e" "doc"; mkChunk "e" "doc"].
Proof. reflexivity. Qed.

Example chunk_trailing_window :
  option_map (map text) (chunk_text 4 "a b c d" "doc" 3 1) = Some ["a b c"; "c d"].
Proof. reflexivity. Qed.

Example getitem_last : getitem ["x"; "y"; "z"] (-1) = inr "z".
Proof. reflexivity. Qed.

Example dict_fromkeys_order :
  dict_fromkeys ["b.pdf"; "a.pdf"; "b.pdf"; "c.pdf"; "a.pdf"] = ["b.pdf"; "a.pdf"; "c.pdf"].
Proof. reflexivity. Qed.

Example user_dir_7 : user_dir 7 = "faiss_store/user_7".
Proof. reflexivity. Qed.

Example makedirs_prefixes :
  OsPath.prefixes "faiss_store/user_7" = ["faiss_store"; "faiss_store/user_7"].
Proof. reflexivity. Qed.

Example round2_half_even :
  Binary64.round2 (Binary64.lit 125 3) = Binary64.lit 12 2.
Proof. vm_compute. reflexivity. Qed.

Example round2_inexact_half :
  Binary64.round2 (Binary64.lit 2675 3) = Binary64.lit 267 2.
Proof. vm_compute. reflexivity. Qed.

Example threshold_bits :
  Binary64.lit 35 2 = S754_finite false 6305039478318694 (-54).
Proof. vm_compute. reflexivity. Qed.

(** ** Chunker *)

Section SplitFacts.

Lemma append_cons (c : ascii) (a b : string) :
  String c a +:+ b = String c (a +:+ b).
Proof. reflexivity. Qed.

Lemma append_nil_l (b : string) : "" +:+ b = b.
Proof. reflexivity. Qed.

Lemma append_nil_r (s : string) : s +:+ "" = s.
Proof.
  induction s as [|c s IH]; [reflexivity|].
  now rewrite append_cons, IH.
Qed.

Lemma append_assoc (a b c : string) : (a +:+ b) +:+ c = a +:+ (b +:+ c).
Proof.
  induction a as [|x a IH]; [reflexivity|].
  now rewrite !append_cons, IH.
Qed.

Lemma no_space_app (a b : string) :
  no_space (a +:+ b) = no_space a && no_space b.
Proof.
  induction a as [|x a IH]; [reflexivity|].
  rewrite append_cons. simpl. rewrite IH. now rewrite andb_assoc.
Qed.

(** Scanning a whitespace-free run only extends the current word. *)
Lemma split_from_run (w : string) :
  no_space w = true ->
  forall cur rest, Py.split_from cur (w +:+ rest) = Py.split_from (cur +:+ w) rest.
Proof.
  induction w as [|c w IH]; intros Hw cur rest.
  - now rewrite append_nil_l, append_nil_r.
  - simpl in Hw. apply andb_prop in Hw as [Hc Hw].
    apply negb_true_iff in Hc.
    rewrite append_cons. simpl. rewrite Hc.
    rewrite (IH Hw). rewrite append_assoc. reflexivity.
Qed.

(** Every element of [s.split()] is a word. *)
Lemma split_from_words (s : string) :
  forall cur, no_space cur = true -> Forall is_word (Py.split_from cur s).
Proof.
  induction s as [|c s IH]; intros cur Hcur; simpl.
  - destruct (Py.truthy cur) eqn:Ht; constructor; [now split | constructor].
  - destruct (Py.isspace c) eqn:Hc.
    + destruct (Py.truthy cur) eqn:Ht.
      * constructor; [now split | now apply IH].
      * now apply IH.
    + apply IH. rewrite no_space_app, Hcur. simpl. now rewrite Hc.
Qed.

Lemma split_words (s : string) : Forall is_word (Py.split s).
Proof. now apply split_from_words. Qed.

Lemma join_cons2 (sep w w' : string) (ws : list string) :
  Py.join sep (w :: w' :: ws) = w +:+ sep +:+ Py.join sep (w' :: ws).
Proof. reflexivity. Qed.

(** Joining words with single spaces and splitting again gives the words
    back. *)
Lemma split_join (ws : list string) :
  Forall is_word ws -> Py.split (Py.join " " ws) = ws.
Proof.
  unfold Py.split.
  induction 1 as [|w ws [Ht Hn] Hws IH]; [reflexivity|].
  destruct ws as [|w' ws].
  - change (Py.join " " [w]) with w.
    rewrite <- (append_nil_r w) at 1.
    rewrite (split_from_run w Hn), append_nil_l. simpl. now rewrite Ht.
  - rewrite join_cons2, (split_from_run w Hn), append_nil_l, append_cons.
    simpl Py.split_from at 1.
    change (Py.isspace " ") with true. cbv iota. rewrite Ht, append_nil_l.
    f_equal. exact IH.
Qed.

(** A chunk made of at least one word survives the [strip] test. *)
Lemma strip_join_truthy (ws : list string) :
  Forall is_word ws -> ws <> [] ->
  Py.truthy (Py.strip (Py.join " " ws)) = true.
Proof.
  intros Hws Hne. destruct Hws as [|w ws [Ht Hn] _]; [congruence|].
  destruct w as [|c w]; [discriminate|].
  simpl in Hn. apply andb_prop in Hn as [Hc _]. apply negb_true_iff in Hc.
  assert (exists t, Py.join " " (String c w :: ws) = String c t) as [t ->].
  { destruct ws; [now exists w | rewrite join_cons2, append_cons; eauto]. }
  unfold Py.strip. simpl. rewrite Hc. simpl.
  destruct (Py.rstrip t); [now rewrite Hc | reflexivity].
Qed.

End SplitFacts.

Section ChunkLoop.

Variables (words : list string) (source_name : string).

Lemma chunk_loop_exit fuel chunk_size overlap i chunks :
  Z.of_nat (length words) <= i ->
  chunk_loop (S fuel) words source_name chunk_size overlap i chunks = Some chunks.
Proof.
  intros Hi. simpl.
  destruct (Z.ltb_spec i (Z.of_nat (length words))); [lia | reflexivity].
Qed.

(** With a positive step the loop returns once the fuel exceeds the words
    left. *)
Lemma chunk_loop_returns chunk_size overlap :
  overlap < chunk_size ->
  forall fuel i chunks,
    Z.of_nat (length words) - i <= Z.of_nat fuel ->
    exists r, chunk_loop (S fuel) words source_name chunk_size overlap i chunks = Some r.
Proof.
  intros Hstep. induction fuel as [|fuel IH]; intros i chunks Hi.
  - exists chunks. apply chunk_loop_exit. lia.
  - destruct (Z.ltb_spec i (Z.of_nat (length words))) as [Hlt|Hge].
    + cbn [chunk_loop]. apply Z.ltb_lt in Hlt as Hb. rewrite Hb.
      apply IH. lia.
    + exists chunks. apply chunk_loop_exit. lia.
Qed.

(** With a non-positive step the loop never leaves a position inside the
    word list, whatever the fuel. *)
Lemma chunk_loop_spins chunk_size overlap :
  chunk_size <= overlap ->
  forall fuel i chunks,
    i < Z.of_nat (length words) ->
    chunk_loop fuel words source_name chunk_size overlap i chunks = None.
Proof.
  intros Hstep. induction fuel as [|fuel IH]; intros i chunks Hi; [reflexivity|].
  cbn [chunk_loop]. apply Z.ltb_lt in Hi as Hb. rewrite Hb.
  apply IH. lia.
Qed.

End ChunkLoop.

(** C4 (as amended). [chunk_text] returns exactly when [overlap < chunk_size]
    or the text has no word: a configuration with [overlap >= chunk_size]
    is neither rejected nor clamped, and on a text with at least one word
    its loop never ends. *)
Theorem chunk_text_returns_iff (text source_name : string) (chunk_size overlap : Z) :
  (exists fuel chunks,
     chunk_text fuel text source_name chunk_size overlap = Some chunks)
  <-> (overlap < chunk_size \/ Py.split text = []).
Proof.
  unfold chunk_text. split.
  - intros (fuel & chunks & Hrun).
    destruct (Z.lt_ge_cases overlap chunk_size) as [Hlt|Hge]; [now left | right].
    destruct (Py.split text) as [|w ws] eqn:Hws; [reflexivity|].
    rewrite (chunk_loop_spins (w :: ws) source_name chunk_size overlap Hge) in Hrun.
    + discriminate.
    + simpl length. lia.
  - intros [Hlt | Hnil].
    + exists (S (length (Py.split text))).
      apply chunk_loop_returns; [assumption | lia].
    + exists 1%nat, []. rewrite Hnil. reflexivity.
Qed.

(** C4 (as stated) fails: with [overlap = chunk_size = 100] and a one-word
    text no amount of fuel lets [chunk_text] return. *)
Lemma chunk_text_equal_overlap_never_returns :
  ~ exists fuel chunks, chunk_text fuel "alpha" "doc.txt" 100 100 = Some chunks.
Proof.
  intros (fuel & chunks & Hrun). unfold chunk_text in Hrun.
  rewrite chunk_loop_spins in Hrun; [discriminate | lia | simpl; lia].
Qed.

(** *** The windows of the sliding chunker *)

Lemma take_min_length {A} (n : nat) (l : list A) :
  take (n `min` length l) l = take n l.
Proof.
  destruct (Nat.le_ge_cases n (length l)) as [Hle|Hge].
  - now rewrite Nat.min_l.
  - rewrite Nat.min_r by assumption. now rewrite !take_ge by lia.
Qed.

(** A slice that starts inside the list is a [take] of a [drop]. *)
Lemma slice_window {A} (l : list A) (a size : nat) :
  (a <= length l)%nat ->
  Py.slice l (Z.of_nat a) (Z.of_nat a + Z.of_nat size) = take size (drop a l).
Proof.
  intros Ha. unfold Py.slice, Py.clamp.
  destruct (Z.ltb_spec (Z.of_nat a) 0); [lia|].
  destruct (Z.ltb_spec (Z.of_nat a + Z.of_nat size) 0); [lia|].
  rewrite (Z.min_l (Z.of_nat a)) by lia. rewrite Nat2Z.id.
  rewrite <- (take_min_length size). rewrite length_drop.
  f_equal. lia.
Qed.

Lemma ceil_div_gt (W step k : Z) :
  0 < step -> 0 <= W -> (k < ceil_div W step <-> step * k < W).
Proof.
  intros Hs HW. unfold ceil_div.
  pose proof (Z.div_mod (W + step - 1) step ltac:(lia)) as Hdm.
  pose proof (Z.mod_pos_bound (W + step - 1) step Hs) as Hr.
  set (q := (W + step - 1) / step) in *. set (r := (W + step - 1) mod step) in *.
  split; intros Hk; nia.
Qed.

Lemma ceil_div_nonneg (W step : Z) : 0 < step -> 0 <= W -> 0 <= ceil_div W step.
Proof. intros. unfold ceil_div. apply Z.div_pos; lia. Qed.

Section Windows.

Variables (ws : list string) (source_name : string) (size step : nat).
Hypothesis size_pos : (0 < size)%nat.
Hypothesis step_pos : (0 < step)%nat.
Hypothesis words_ok : Forall is_word ws.

Let count : Z := ceil_div (Z.of_nat (length ws)) (Z.of_nat step).

Lemma window_words k : Forall is_word (window ws size step k).
Proof. unfold window. now apply Forall_take, Forall_drop. Qed.

Lemma window_nonempty k :
  (k * step < length ws)%nat -> window ws size step k <> [].
Proof.
  intros Hk Hnil. apply (f_equal length) in Hnil.
  unfold window in Hnil. rewrite length_take, length_drop in Hnil.
  simpl in Hnil. lia.
Qed.

(** From position [k * step] the loop appends the windows [k], [k + 1], ...
    up to the last one that starts inside the word list. *)
Lemma chunk_loop_windows :
  forall m k chunks fuel,
    (m < fuel)%nat ->
    Z.of_nat m = Z.max 0 (count - Z.of_nat k) ->
    chunk_loop fuel ws source_name (Z.of_nat size)
      (Z.of_nat size - Z.of_nat step) (Z.of_nat (k * step)) chunks
    = Some (chunks ++ map (chunk_at ws source_name size step) (seq k m)).
Proof.
  induction m as [|m IH]; intros k chunks fuel Hfuel Hm.
  - destruct fuel as [|fuel]; [lia|].
    rewrite chunk_loop_exit; [now rewrite app_nil_r|].
    assert (~ Z.of_nat k < count) as Hk by lia.
    unfold count in Hk. rewrite ceil_div_gt in Hk by lia. lia.
  - destruct fuel as [|fuel]; [lia|].
    assert (Z.of_nat k < count) as Hk by lia.
    unfold count in Hk. rewrite ceil_div_gt in Hk by lia.
    assert (k * step < length ws)%nat as Hin by lia.
    cbn [chunk_loop].
    assert ((Z.of_nat (k * step) <? Z.of_nat (length ws)) = true) as Hb
      by (apply Z.ltb_lt; lia).
    rewrite Hb.
    rewrite slice_window by lia.
    change (take size (drop (k * step) ws)) with (window ws size step k).
    rewrite strip_join_truthy by (auto using window_words, window_nonempty).
    replace (Z.of_nat (k * step) + (Z.of_nat size - (Z.of_nat size - Z.of_nat step)))
      with (Z.of_nat (S k * step)) by lia.
    rewrite (IH (S k)) by (fold count; lia).
    rewrite <- app_assoc. reflexivity.
Qed.

End Windows.

Lemma window_count_le (W : Z) : 0 <= W -> window_count W 600 100 <= W.
Proof.
  intros HW. unfold window_count. change (600 - 100) with 500.
  destruct (Z.le_gt_cases (ceil_div W 500) W) as [|Hgt]; [assumption|].
  apply ceil_div_gt in Hgt; lia.
Qed.

Lemma lookup_windows (ws : list string) (source_name : string)
    (size step n k : nat) (c : Chunk) :
  map (chunk_at ws source_name size step) (seq 0 n) !! k = Some c ->
  (k < n)%nat /\ c = chunk_at ws source_name size step k.
Proof.
  intros Hk. apply list_lookup_fmap_Some in Hk as (j & -> & Hj).
  apply lookup_seq in Hj as [-> Hlt]. now split.
Qed.

(** C1 (as amended). With the defaults [chunk_size = 600] and
    [overlap = 100], a text of [W] words gives [ceil(W / 500)] chunks (one
    window per step of 500 words until the words run out); chunk [k] holds
    the words [500 k .. 500 k + 600), so no chunk exceeds 600 words; and
    the words of a chunk after its first 500 are the first 100 words of the
    next chunk: exactly 100 words for every pair but possibly the last,
    for which they are between 1 and 100. *)
Theorem chunk_text_default_windows (text source_name : string) :
  let ws := Py.split text in
  exists chunks,
    chunk_text (S (length ws)) text source_name default_chunk_size default_overlap
      = Some chunks
    /\ Z.of_nat (length chunks)
       = window_count (Z.of_nat (length ws)) default_chunk_size default_overlap
    /\ Forall (fun c => (length (chunk_words c) <= 600)%nat) chunks
    /\ (forall k c, chunks !! k = Some c ->
          source c = source_name /\
          chunk_words c = take 600 (drop (k * 500) ws))
    /\ (forall k a b, chunks !! k = Some a -> chunks !! S k = Some b ->
          drop 500 (chunk_words a) = take 100 (chunk_words b)
          /\ (1 <= length (drop 500 (chunk_words a)) <= 100)%nat
          /\ ((S (S k) < length chunks)%nat ->
              length (drop 500 (chunk_words a)) = 100%nat)).
Proof.
  intros ws.
  pose proof (split_words text) as Hws. fold ws in Hws.
  set (W := Z.of_nat (length ws)).
  set (n := Z.to_nat (window_count W 600 100)).
  assert (0 <= window_count W 600 100) as Hn0
    by (apply ceil_div_nonneg; lia).
  assert (window_count W 600 100 <= W) as HnW by (apply window_count_le; lia).
  assert (forall k, (k < n)%nat -> (k * 500 < length ws)%nat) as Hstart.
  { intros k Hk.
    assert (Z.of_nat k < ceil_div W 500) as Hk'
      by (change (ceil_div W 500) with (window_count W 600 100); lia).
    apply ceil_div_gt in Hk'; lia. }
  assert (forall k c,
            map (chunk_at ws source_name 600 500) (seq 0 n) !! k = Some c ->
            (k < n)%nat /\ source c = source_name /\
            chunk_words c = take 600 (drop (k * 500) ws)) as Hlook.
  { intros k c Hk. apply lookup_windows in Hk as [Hlt ->].
    repeat split; [assumption|].
    unfold chunk_words, chunk_at. simpl.
    apply split_join. exact (window_words ws 600 500 Hws k). }
  exists (map (chunk_at ws source_name 600 500) (seq 0 n)).
  split; [|split; [|split; [|split]]].
  - unfold chunk_text, default_chunk_size, default_overlap. fold ws.
    pose proof (chunk_loop_windows ws source_name 600 500 ltac:(lia) ltac:(lia) Hws
                  n 0 [] (S (length ws))) as Hloop.
    apply Hloop; [lia|].
    change (ceil_div (Z.of_nat (length ws)) (Z.of_nat 500))
      with (window_count W 600 100). lia.
  - rewrite length_map, length_seq. unfold n, default_chunk_size, default_overlap. lia.
  - apply Forall_forall. intros c Hc.
    apply list_elem_of_lookup in Hc as [k Hk].
    apply Hlook in Hk as (_ & _ & ->). rewrite length_take. lia.
  - intros k c Hk. now apply Hlook in Hk.
  - intros k a b Ha Hb.
    apply Hlook in Ha as (Hka & _ & ->). apply Hlook in Hb as (Hkb & _ & ->).
    assert (drop 500 (take 600 (drop (k * 500) ws))
            = take 100 (drop (S k * 500) ws)) as Hshared.
    { change 600%nat with (500 + 100)%nat.
      rewrite <- take_drop_commute, drop_drop. f_equal. f_equal. lia. }
    rewrite Hshared. rewrite take_take. change (100 `min` 600)%nat with 100%nat.
    split; [reflexivity|].
    rewrite length_take, length_drop.
    pose proof (Hstart (S k) Hkb). split; [lia|].
    rewrite length_map, length_seq. intros Hkc.
    pose proof (Hstart (S (S k)) Hkc). lia.
Qed.

(** C1 (as stated) fails on the count: a one-word text gives one chunk,
    where [ceil(max(W - overlap, 0) / (chunk_size - overlap))] is 0. *)
Lemma chunk_count_formula_fails :
  exists chunks,
    chunk_text 2 "hello" "doc.txt" default_chunk_size default_overlap = Some chunks
    /\ Z.of_nat (length chunks)
       <> claimed_chunk_count (Z.of_nat (length (Py.split "hello")))
            default_chunk_size default_overlap.
Proof.
  exists [mkChunk "hello" "doc.txt"]. split; [reflexivity|].
  vm_compute. discriminate.
Qed.

(** ** Retriever *)

Section RetrieveFacts.

Context {F : Type} `{FloatOps F}.

#[local] Instance score_ge_trans : Transitive score_ge.
Proof. intros x y z. apply f_ge_trans. Qed.

Lemma getitem_inr {A} (l : list A) (idx : Z) :
  - Z.of_nat (length l) <= idx < Z.of_nat (length l) ->
  exists x, getitem l idx = inr x.
Proof.
  intros Hidx. unfold getitem.
  set (j := if idx <? 0 then idx + Z.of_nat (length l) else idx).
  assert (0 <= j < Z.of_nat (length l)) as Hj
    by (unfold j; destruct (Z.ltb_spec idx 0); lia).
  assert ((0 <=? j) && (j <? Z.of_nat (length l)) = true) as ->
    by (apply andb_true_intro; split; [apply Z.leb_le | apply Z.ltb_lt]; lia).
  destruct (lookup_lt_is_Some_2 l (Z.to_nat j) ltac:(lia)) as [x ->]. eauto.
Qed.

Lemma getitem_inl {A} (l : list A) (idx : Z) e :
  getitem l idx = inl e -> idx < Z.of_nat (length l) ->
  idx < - Z.of_nat (length l).
Proof.
  intros He Hlt. destruct (Z.lt_ge_cases idx (- Z.of_nat (length l))); [assumption|].
  destruct (getitem_inr l idx ltac:(lia)) as [x Hx]. congruence.
Qed.


(** The loop raises only on a kept hit whose position lies below
    [-len(chunks)]. *)
Lemma retrieve_loop_inl (chunks : list Chunk) (threshold : F) :
  forall hits acc e,
    retrieve_loop hits chunks threshold acc = inl e ->
    Exists (fun h => hit_kept chunks threshold h = true
                     /\ h.2 < - Z.of_nat (length chunks)) hits.
Proof.
  induction hits as [|[score idx] hits IH]; intros acc e Hrun; simpl in Hrun.
  - discriminate.
  - destruct (f_ge score (f_single threshold) && (idx <? Z.of_nat (length chunks))) eqn:Hk.
    + destruct (getitem chunks idx) as [e'|c] eqn:Hget.
      * left. split; [exact Hk|]. simpl.
        apply andb_prop in Hk as [_ Hk]. apply Z.ltb_lt in Hk.
        eapply getitem_inl; eauto.
      * right. eapply IH; eauto.
    + right. eapply IH; eauto.
Qed.


End RetrieveFacts.

Section RetrieveRun.

Context {F : Type} `{FloatOps F} {V W : Type}.
Variable svc : Services F V W.

(** [retrieve] embeds, searches, and runs the loop on the hits. *)
Lemma retrieve_run question index chunks top_k threshold (s : Net W) :
  retrieve svc question index chunks top_k threshold s
  = (retrieve_loop (index_search svc index (get_embedding svc question) top_k)
       chunks threshold [],
     mkNet (world s) ((trace s ++ [EvEmbed question]) ++ [EvSearch top_k])).
Proof. reflexivity. Qed.

End RetrieveRun.




(** The C3 defect: the position test has no lower bound.  With one stored
    vector, [top_k = 3] and the threshold [-inf], the two padding hits at
    position [-1] pass both tests and [chunks[-1]], the last chunk, is
    returned for each of them. *)
Lemma retrieve_uses_negative_position :
  Demo.flat_search [Binary64.lit 9 1] (S754_zero false) 3
  = [(Binary64.lit 9 1, 0); (Binary64.lowest_float32, -1);
     (Binary64.lowest_float32, -1)]
  /\ (retrieve (Demo.services "" (inr 200) (Demo.replies "ok")) "q"
        [Binary64.lit 9 1] [Demo.policy] 3 Binary64.neg_infinity Demo.start).1
     = inr [mkRetrieved (text Demo.policy) (source Demo.policy) (Binary64.lit 9 1);
            mkRetrieved (text Demo.policy) (source Demo.policy) Binary64.lowest_float32;
            mkRetrieved (text Demo.policy) (source Demo.policy) Binary64.lowest_float32].
Proof. split; vm_compute; reflexivity. Qed.

(** ** Synthesizer *)

Section DedupFacts.

Lemma dict_fromkeys_from_spec (keys seen : list string) :
  dict_fromkeys_from seen keys
  = seen ++ filter (fun y => y ∉ seen) (dedup_first keys).
Proof.
  revert seen. induction keys as [|k keys IH]; intros seen; simpl.
  - now rewrite ?filter_nil, app_nil_r.
  - destruct (bool_decide_reflect (k ∈ seen)) as [Hin|Hout].
    + rewrite IH, filter_cons_False by tauto.
      rewrite list_filter_filter. f_equal.
      apply list_filter_iff. intros y. split; [|tauto].
      intros Hy. split; [assumption | congruence].
    + rewrite IH, filter_cons_True by assumption.
      rewrite <- app_assoc. simpl. f_equal. f_equal.
      rewrite list_filter_filter. apply list_filter_iff. intros y.
      rewrite elem_of_app, list_elem_of_singleton. tauto.
Qed.

(** The keys of [dict.fromkeys] are the names deduplicated in order of
    first occurrence. *)
Lemma dict_fromkeys_dedup (keys : list string) :
  dict_fromkeys keys = dedup_first keys.
Proof.
  unfold dict_fromkeys. rewrite dict_fromkeys_from_spec. simpl.
  induction (dedup_first keys) as [|x l IH]; [reflexivity|].
  rewrite filter_cons_True by apply not_elem_of_nil. now rewrite IH.
Qed.

End DedupFacts.

Section AnswerFacts.

Context {F : Type} `{FloatOps F} {V W : Type}.
Variable svc : Services F V W.

(** The probe never raises: an exception of the request counts as "not
    available". *)
Lemma check_ollama_run (s : Net W) :
  check_ollama_available svc s
  = (inr (probe_ok (requests_get_tags svc (world s)).1), after_probe svc s).
Proof.
  unfold check_ollama_available, after_probe, try_except, bind, emit, call, ret.
  simpl. destruct (requests_get_tags svc (world s)) as [[e|code] w]; reflexivity.
Qed.

(** [generate_answer] up to the retrieval. *)
Lemma generate_answer_run question index chunks (s : Net W) :
  generate_answer svc question index chunks s
  = if negb (check_groq_available svc)
       && negb (probe_ok (requests_get_tags svc (world s)).1)
    then (inr unavailable_record, after_probe svc s)
    else
      match retrieve_loop
              (index_search svc index (get_embedding svc question) default_top_k)
              chunks default_threshold [] with
      | inl e => (inl e, after_retrieval svc question s)
      | inr [] => (inr not_found_record, after_retrieval svc question s)
      | inr (top :: rest) =>
          answer_from svc question (check_groq_available svc) (top :: rest) top
            (after_retrieval svc question s)
      end.
Proof.
  unfold generate_answer. unfold bind at 1. rewrite check_ollama_run.
  destruct (negb (check_groq_available svc)
            && negb (probe_ok (requests_get_tags svc (world s)).1)); [reflexivity|].
  unfold bind. rewrite retrieve_run.
  destruct (retrieve_loop _ chunks default_threshold []) as [e|[|top rest]];
    reflexivity.
Qed.

(** A failed generation is caught: the record is the error sentinel. *)
Lemma answer_from_raise question retrieved top (s s3 : Net W) e :
  generation_call svc (build_prompt (build_context retrieved) question) s = (inl e, s3) ->
  answer_from svc question (check_groq_available svc) retrieved top s
  = (inr (error_record e), s3).
Proof.
  unfold generation_call, answer_from. intros Hgen.
  unfold bind at 1. unfold try_except. unfold bind at 1.
  rewrite Hgen. reflexivity.
Qed.

Lemma answer_from_return question retrieved top (s s3 : Net W) a :
  generation_call svc (build_prompt (build_context retrieved) question) s = (inr a, s3) ->
  answer_from svc question (check_groq_available svc) retrieved top s
  = (inr (mkAnswer a
            (Py.join ", " (dict_fromkeys (map r_source retrieved)))
            (f_round2 (mean (map r_score retrieved)))
            (if Py.truthy (r_text top)
             then Py.prefix 300 (r_text top) +:+ "..." else "")),
     s3).
Proof.
  unfold generation_call, answer_from, mean. intros Hgen.
  unfold bind at 1. unfold try_except. unfold bind at 1.
  rewrite Hgen. rewrite length_map. reflexivity.
Qed.

(** Whatever the backend does, the part after the retrieval returns a
    record. *)
Lemma answer_from_total question retrieved top (s : Net W) :
  exists r s',
    answer_from svc question (check_groq_available svc) retrieved top s = (inr r, s').
Proof.
  destruct (generation_call svc (build_prompt (build_context retrieved) question) s)
    as [[e|a] s3] eqn:Hgen.
  - erewrite answer_from_raise by eassumption. eauto.
  - erewrite answer_from_return by eassumption. eauto.
Qed.

End AnswerFacts.

(** C7. When the cloud credential is absent and the probe of the local
    provider fails (an exception, or a status other than 200),
    [generate_answer] returns the Unavailable sentinel (fixed text, citation
    "N/A", confidence 0.0); the probe is the only thing it does: no
    embedding, no search, no generation request. *)
Theorem no_provider_unavailable {F : Type} `{FloatOps F} {V W : Type}
    (svc : Services F V W) (question : string) (index : list V)
    (chunks : list Chunk) (s : Net W) :
  check_groq_available svc = false ->
  probe_ok (requests_get_tags svc (world s)).1 = false ->
  generate_answer svc question index chunks s
  = (inr (mkAnswer
            "No LLM available. Please configure GROQ_API_KEY or start Ollama."
            "N/A" f_zero ""),
     mkNet (requests_get_tags svc (world s)).2 (trace s ++ [EvProbeOllama])).
Proof.
  intros Hgroq Hprobe. rewrite generate_answer_run, Hgroq, Hprobe. reflexivity.
Qed.

Lemma no_provider_unavailable_witness :
  generate_answer
    (Demo.services "" (inl (Exception "Connection refused")) (Demo.replies "ok"))
    "Is data encrypted?" [Binary64.lit 9 1] [Demo.policy] Demo.start
  = (inr (mkAnswer
            "No LLM available. Please configure GROQ_API_KEY or start Ollama."
            "N/A" (S754_zero false) ""),
     mkNet 1%nat [EvProbeOllama]).
Proof.
  exact (no_provider_unavailable
           (Demo.services "" (inl (Exception "Connection refused")) (Demo.replies "ok"))
           "Is data encrypted?" [Binary64.lit 9 1] [Demo.policy] Demo.start
           eq_refl eq_refl).
Defined.

(** C2 (as amended). When at least one provider is available and the
    retrieval yields no result, [generate_answer] returns the canonical
    "Not found in references." record with citation "N/A" and confidence
    0.0, and makes no generation request. *)
Theorem empty_retrieval_not_found {F : Type} `{FloatOps F} {V W : Type}
    (svc : Services F V W) (question : string) (index : list V)
    (chunks : list Chunk) (s : Net W) :
  check_groq_available svc || probe_ok (requests_get_tags svc (world s)).1 = true ->
  (retrieve svc question index chunks default_top_k default_threshold
     (after_probe svc s)).1 = inr [] ->
  generate_answer svc question index chunks s
  = (inr (mkAnswer "Not found in references." "N/A" f_zero ""),
     mkNet (requests_get_tags svc (world s)).2
       (trace s ++ [EvProbeOllama; EvEmbed question; EvSearch default_top_k])).
Proof.
  intros Havail Hempty. rewrite retrieve_run in Hempty. simpl in Hempty.
  rewrite generate_answer_run, Hempty.
  apply orb_true_iff in Havail.
  assert (negb (check_groq_available svc)
          && negb (probe_ok (requests_get_tags svc (world s)).1) = false) as ->
    by (destruct Havail as [-> | ->]; [reflexivity | apply andb_false_r]).
  unfold after_retrieval, after_probe. simpl.
  now rewrite <- !app_assoc.
Qed.

Lemma empty_retrieval_not_found_witness :
  generate_answer (Demo.services "" (inr 200) (Demo.replies "ok"))
    "Is data encrypted?" [Binary64.lit 1 1] [Demo.policy] Demo.start
  = (inr (mkAnswer "Not found in references." "N/A" (S754_zero false) ""),
     mkNet 1%nat [EvProbeOllama; EvEmbed "Is data encrypted?"; EvSearch 3]).
Proof.
  exact (empty_retrieval_not_found
           (Demo.services "" (inr 200) (Demo.replies "ok"))
           "Is data encrypted?" [Binary64.lit 1 1] [Demo.policy] Demo.start
           eq_refl eq_refl).
Defined.

(** C2 (as stated) fails: with no provider available the answer is the
    Unavailable text, although the retrieval would yield no result. *)
Lemma not_found_needs_provider :
  (retrieve (Demo.services "" (inr 503) (Demo.replies "ok"))
     "Is data encrypted?" [Binary64.lit 1 1] [Demo.policy]
     default_top_k default_threshold Demo.start).1 = inr []
  /\ exists r s',
       generate_answer (Demo.services "" (inr 503) (Demo.replies "ok"))
         "Is data encrypted?" [Binary64.lit 1 1] [Demo.policy] Demo.start
       = (inr r, s')
       /\ answer r <> "Not found in references.".
Proof.
  split; [vm_compute; reflexivity|].
  eexists _, _. split; [vm_compute; reflexivity|].
  simpl. discriminate.
Qed.

(** C6 (as amended). When a provider is available, the retrieval is
    non-empty and the generation call returns, the record holds the
    generated answer; its confidence is the mean of the retrieved scores
    rounded to two decimals; its citation is the comma-joined list of the
    retrieved sources, deduplicated in order of first occurrence; and its
    snippet is the first 300 characters of the top-ranked chunk's text
    followed by an ellipsis when that text is non-empty, and the empty
    string when it is empty. *)
Theorem answer_record_fields {F : Type} `{FloatOps F} {V W : Type}
    (svc : Services F V W) (question : string) (index : list V)
    (chunks : list Chunk) (s : Net W)
    (top : Retrieved F) (rest : list (Retrieved F)) (a : string) (s3 : Net W) :
  let retrieved := top :: rest in
  check_groq_available svc || probe_ok (requests_get_tags svc (world s)).1 = true ->
  (retrieve svc question index chunks default_top_k default_threshold
     (after_probe svc s)).1 = inr retrieved ->
  generation_call svc (build_prompt (build_context retrieved) question)
    (after_retrieval svc question s) = (inr a, s3) ->
  generate_answer svc question index chunks s
  = (inr (mkAnswer a
            (Py.join ", " (dedup_first (map r_source retrieved)))
            (f_round2 (mean (map r_score retrieved)))
            (if Py.truthy (r_text top) then claimed_snippet (r_text top) else "")),
     s3).
Proof.
  intros retrieved Havail Hret Hgen. subst retrieved.
  rewrite retrieve_run in Hret. simpl in Hret.
  rewrite generate_answer_run, Hret.
  apply orb_true_iff in Havail.
  assert (negb (check_groq_available svc)
          && negb (probe_ok (requests_get_tags svc (world s)).1) = false) as ->
    by (destruct Havail as [-> | ->]; [reflexivity | apply andb_false_r]).
  cbv beta iota. erewrite answer_from_return by exact Hgen.
  now rewrite dict_fromkeys_dedup.
Qed.

Lemma answer_record_fields_witness :
  generate_answer (Demo.services "gsk_test" (inr 503) (Demo.replies " AES-256 at rest. "))
    "How is data encrypted?" [Binary64.lit 9 1; Binary64.lit 5 1]
    [Demo.policy; Demo.policy] Demo.start
  = (inr (mkAnswer "AES-256 at rest." "policy.pdf" (Binary64.lit 7 1)
            "Our data is encrypted with AES-256 at rest..."),
     mkNet 2%nat
       [EvProbeOllama; EvEmbed "How is data encrypted?"; EvSearch 3;
        EvGroq (build_prompt
                  (build_context
                     [mkRetrieved (text Demo.policy) "policy.pdf" (Binary64.lit 9 1);
                      mkRetrieved (text Demo.policy) "policy.pdf" (Binary64.lit 5 1)])
                  "How is data encrypted?")]).
Proof.
  exact (answer_record_fields
           (Demo.services "gsk_test" (inr 503) (Demo.replies " AES-256 at rest. "))
           "How is data encrypted?" [Binary64.lit 9 1; Binary64.lit 5 1]
           [Demo.policy; Demo.policy] Demo.start
           (mkRetrieved (text Demo.policy) "policy.pdf" (Binary64.lit 9 1))
           [mkRetrieved (text Demo.policy) "policy.pdf" (Binary64.lit 5 1)]
           "AES-256 at rest." _ eq_refl eq_refl eq_refl).
Defined.

(** C6 (as stated) fails on the snippet: when the top-ranked chunk has an
    empty text and the generation succeeds, the snippet is the empty
    string, not the ellipsis that truncating and appending would give. *)
Lemma blank_chunk_snippet :
  exists r s',
    generate_answer (Demo.services "gsk_test" (inr 200) (Demo.replies "Yes."))
      "Is data encrypted?" [Binary64.lit 9 1] [Demo.blank] Demo.start
    = (inr r, s')
    /\ answer r = "Yes."
    /\ snippet r = ""
    /\ snippet r <> claimed_snippet (text Demo.blank).
Proof.
  eexists _, _. split; [vm_compute; reflexivity|].
  simpl. repeat split. discriminate.
Qed.

(** ** Batch answering *)

Section BatchFacts.

Context {F : Type} `{FloatOps F} {V W : Type}.
Variable svc : Services F V W.

Lemma retrieve_loop_total (chunks : list Chunk) (threshold : F)
    (hits : list (F * Z)) acc :
  Forall (fun h : F * Z => h.2 < 0 -> f_ge h.1 (f_single threshold) = false) hits ->
  exists results, retrieve_loop hits chunks threshold acc = inr results.
Proof.
  intros Hpad.
  destruct (retrieve_loop hits chunks threshold acc) as [e|results] eqn:Hrun; [|eauto].
  apply retrieve_loop_inl in Hrun. apply Exists_exists in Hrun as (h & Hin & Hk & Hneg).
  rewrite Forall_forall in Hpad. specialize (Hpad h Hin ltac:(lia)).
  unfold hit_kept in Hk. apply andb_prop in Hk as [Hk _]. congruence.
Qed.

(** [generate_answer] returns a record in every state: nothing it calls
    raises past it. *)
Lemma generate_answer_total question index chunks (s : Net W) :
  padding_below_threshold svc index question ->
  exists r s', generate_answer svc question index chunks s = (inr r, s').
Proof.
  intros Hpad. rewrite generate_answer_run.
  destruct (negb (check_groq_available svc) && _); [eauto|].
  destruct (retrieve_loop_total chunks default_threshold
              (index_search svc index (get_embedding svc question) default_top_k) []
              Hpad) as [[|top rest] ->]; [eauto|].
  apply answer_from_total.
Qed.

Lemma batch_loop_rows index chunks progress_callback total :
  forall questions,
  Forall (fun q => padding_below_threshold svc index (q_question q)) questions ->
  forall i acc (s : Net W),
  exists rows s',
    batch_loop svc questions index chunks progress_callback total i acc s
      = (inr (acc ++ rows), s')
    /\ batch_run svc index chunks progress_callback total i s questions rows s'.
Proof.
  induction questions as [|q questions IH]; intros Hpad i acc s.
  - exists [], s. rewrite app_nil_r. split; [reflexivity | constructor].
  - apply Forall_cons in Hpad as [Hq Hpad]. specialize (IH Hpad).
    destruct (generate_answer_total (q_question q) index chunks s Hq)
      as (r & s1 & Hr).
    cbn [batch_loop]. unfold bind at 1. rewrite Hr.
    destruct (IH (i + 1)%nat (acc ++ [row_of q r])
                (after_progress progress_callback i total s1))
      as (rows & s' & Hrows & Hall).
    exists (row_of q r :: rows), s'. split.
    + unfold bind at 1.
      assert ((if progress_callback then emit (EvProgress (i + 1) total) else ret tt) s1
              = (inr tt, after_progress progress_callback i total s1)) as ->
        by (unfold after_progress; now destruct progress_callback).
      fold (row_of q r). rewrite Hrows, <- app_assoc. reflexivity.
    + econstructor; eassumption.
Qed.

Lemma batch_run_length index chunks progress_callback total i (s s' : Net W)
    questions rows :
  batch_run svc index chunks progress_callback total i s questions rows s' ->
  length rows = length questions.
Proof. induction 1; simpl; congruence. Qed.

End BatchFacts.

(** C9. For every list of questions, [generate_batch_answers] returns one
    row per question, in input order: each question is answered by
    [generate_answer] in the state the previous one left, and its row is
    made of the question and that record.  A failed generation call
    does not raise out of [generate_answer]: that question's record is
    the error sentinel with the diagnostic message, citation "N/A" and
    confidence 0.0, so the batch goes on with the next question.  (For
    the questions asked, the index reports a negative position only as
    padding, with a score below the threshold.) *)
Theorem batch_one_row_per_question {F : Type} `{FloatOps F} {V W : Type}
    (svc : Services F V W) (index : list V) (chunks : list Chunk)
    (progress_callback : bool) (questions : list Question) (s : Net W) :
  Forall (fun q => padding_below_threshold svc index (q_question q)) questions ->
  (exists rows s',
     generate_batch_answers svc questions index chunks progress_callback s
       = (inr rows, s')
     /\ length rows = length questions
     /\ batch_run svc index chunks progress_callback (length questions)
          0 s questions rows s')
  /\ (forall question s0 top rest e s3,
        check_groq_available svc
        || probe_ok (requests_get_tags svc (world s0)).1 = true ->
        (retrieve svc question index chunks default_top_k default_threshold
           (after_probe svc s0)).1 = inr (top :: rest) ->
        generation_call svc
          (build_prompt (build_context (top :: rest)) question)
          (after_retrieval svc question s0) = (inl e, s3) ->
        generate_answer svc question index chunks s0
        = (inr (mkAnswer ("Error generating answer: " +:+ exn_str e) "N/A" f_zero ""),
           s3)).
Proof.
  intros Hpad. split.
  - destruct (batch_loop_rows svc index chunks progress_callback
                (length questions) questions Hpad 0%nat [] s)
      as (rows & s' & Hrun & Hall).
    exists rows, s'. split; [exact Hrun|].
    split; [eapply batch_run_length; eauto | assumption].
  - intros question s0 top rest e s3 Havail Hret Hgen.
    rewrite retrieve_run in Hret. simpl in Hret.
    rewrite generate_answer_run, Hret.
    apply orb_true_iff in Havail.
    assert (negb (check_groq_available svc)
            && negb (probe_ok (requests_get_tags svc (world s0)).1) = false) as ->
      by (destruct Havail as [-> | ->]; [reflexivity | apply andb_false_r]).
    cbv beta iota. now erewrite answer_from_raise by exact Hgen.
Qed.

(** A batch of three questions whose second generation call times out:
    three rows, the second one the error sentinel. *)
Lemma batch_one_row_per_question_witness :
  (exists rows s',
     generate_batch_answers
       (Demo.services "gsk_test" (inr 200) (Demo.times_out_at 3 "Yes."))
       [mkQuestion 1 "Is data encrypted?"; mkQuestion 2 "Is MFA enforced?";
        mkQuestion 3 "Are backups tested?"]
       [Binary64.lit 9 1] [Demo.policy] true Demo.start
     = (inr rows, s')
     /\ length rows = 3%nat
     /\ map row_answer rows
        = ["Yes."; "Error generating answer: Read timed out."; "Yes."]).
Proof.
  assert (Forall
            (fun q => padding_below_threshold
                        (Demo.services "gsk_test" (inr 200) (Demo.times_out_at 3 "Yes."))
                        [Binary64.lit 9 1] (q_question q))
            [mkQuestion 1 "Is data encrypted?"; mkQuestion 2 "Is MFA enforced?";
             mkQuestion 3 "Are backups tested?"]) as Hpad.
  { unfold padding_below_threshold. vm_compute.
    repeat (constructor; [repeat (constructor; [intros; (reflexivity || discriminate)|]);
                          constructor|]).
    constructor. }
  destruct (batch_one_row_per_question
              (Demo.services "gsk_test" (inr 200) (Demo.times_out_at 3 "Yes."))
              [Binary64.lit 9 1] [Demo.policy] true
              [mkQuestion 1 "Is data encrypted?"; mkQuestion 2 "Is MFA enforced?";
               mkQuestion 3 "Are backups tested?"]
              Demo.start Hpad)
    as [(rows & s' & Hrun & Hlen & _) _].
  exists rows, s'. split; [exact Hrun|]. split; [exact Hlen|].
  vm_compute in Hrun. injection Hrun as <- _. reflexivity.
Defined.

(** ** Coverage summary *)

Lemma is_answered_filter {F} (rows : list (AnswerRow F)) :
  filter (fun a => is_answered a = true) rows = answered_rows rows.
Proof.
  apply list_filter_iff. intros a. unfold is_answered.
  now rewrite bool_decide_eq_true.
Qed.

Lemma answered_not_found_length {F} (rows : list (AnswerRow F)) :
  (length (answered_rows rows) + length (not_found_rows rows) = length rows)%nat.
Proof.
  unfold answered_rows, not_found_rows.
  induction rows as [|a rows IH]; [reflexivity|].
  rewrite !filter_cons.
  destruct (decide (row_answer a = NO_CONTEXT_RESPONSE)) as [Heq|Hne].
  - rewrite decide_False by tauto. simpl. lia.
  - rewrite decide_True by assumption. simpl. lia.
Qed.

(** C8 (as amended). [get_coverage_summary] counts as [not_found] exactly
    the rows whose answer equals "Not found in references." and as
    [answered] all the others, with
    [total_questions = answered + not_found = len(answers)]; its
    [avg_confidence] is the mean confidence of the answered rows rounded
    to two decimals, and the integer 0 when no row is answered. *)
Theorem coverage_summary_counts {F : Type} `{FloatOps F} (rows : list (AnswerRow F)) :
  let summary := get_coverage_summary rows in
  not_found summary = Z.of_nat (length (not_found_rows rows))
  /\ answered summary = Z.of_nat (length (answered_rows rows))
  /\ total_questions summary = Z.of_nat (length rows)
  /\ total_questions summary = answered summary + not_found summary
  /\ avg_confidence summary = py_round2 (claimed_avg_confidence rows).
Proof.
  unfold get_coverage_summary, claimed_avg_confidence. simpl.
  rewrite is_answered_filter.
  pose proof (answered_not_found_length rows) as Hlen.
  repeat split; try lia.
  destruct (map row_confidence (answered_rows rows)); reflexivity.
Qed.

(** C8 (as stated) fails on the average: for an error row with confidence
    0.0 and an answered row with confidence 0.25 the mean is 0.125 and the
    summary reports 0.12. *)
Lemma coverage_average_is_rounded :
  let rows :=
    [mkRow 1 "Is data encrypted?" "Error generating answer: Read timed out."
       "N/A" (Binary64.lit 0 1) "";
     mkRow 2 "Is MFA enforced?" "Yes." "policy.pdf" (Binary64.lit 25 2)
       "Our data is encrypted with AES-256 at rest..."] in
  claimed_avg_confidence rows = PyFloat (Binary64.lit 125 3)
  /\ avg_confidence (get_coverage_summary rows) = PyFloat (Binary64.lit 12 2)
  /\ avg_confidence (get_coverage_summary rows) <> claimed_avg_confidence rows.
Proof.
  cbv zeta. split; [vm_compute; reflexivity|].
  split; [vm_compute; reflexivity|].
  vm_compute. discriminate.
Qed.

(** ** Vector index store *)

Section PathFacts.

Lemma has_sep_app (a b : string) :
  OsPath.has_sep (a +:+ b) = OsPath.has_sep a || OsPath.has_sep b.
Proof.
  induction a as [|c a IH]; [reflexivity|].
  rewrite append_cons. simpl. now rewrite IH, orb_assoc.
Qed.

Lemma ends_with_sep_app (a b : string) :
  Py.truthy b = true ->
  OsPath.ends_with_sep (a +:+ b) = OsPath.ends_with_sep b.
Proof.
  intros Hb. induction a as [|c a IH]; [reflexivity|].
  rewrite append_cons. simpl. rewrite IH.
  destruct (a +:+ b) eqn:Hab; [|reflexivity].
  destruct a; [|discriminate]. rewrite append_nil_l in Hab. now subst.
Qed.

Lemma ends_with_sep_no_sep (s : string) :
  OsPath.has_sep s = false -> OsPath.ends_with_sep s = false.
Proof.
  induction s as [|c s IH]; [reflexivity|]. simpl.
  intros Hs. apply orb_false_elim in Hs as [Hc Hs].
  destruct s; [assumption | now apply IH].
Qed.

Lemma head_of_no_sep (s : string) :
  OsPath.has_sep s = false -> OsPath.head_of s = "".
Proof. destruct s; [reflexivity|]. intros Hs. unfold OsPath.head_of. now rewrite Hs. Qed.

Lemma head_of_app_sep (a b : string) :
  OsPath.has_sep b = false ->
  OsPath.head_of (a +:+ "/" +:+ b) = a +:+ "/".
Proof.
  intros Hb. induction a as [|c a IH].
  - rewrite !append_nil_l, append_cons, append_nil_l.
    cbn [OsPath.head_of]. cbn [OsPath.has_sep].
    change (OsPath.is_sep "/") with true. cbn [orb].
    now rewrite head_of_no_sep.
  - rewrite (append_cons c a). cbn [OsPath.head_of].
    assert (OsPath.has_sep (String c (a +:+ "/" +:+ b)) = true) as ->.
    { cbn [OsPath.has_sep]. rewrite has_sep_app.
      change (OsPath.has_sep ("/" +:+ b)) with (true || OsPath.has_sep b).
      now rewrite !orb_true_r. }
    now rewrite IH.
Qed.

Lemma rstrip_sep_keeps (s : string) :
  OsPath.ends_with_sep s = false -> OsPath.rstrip_sep s = s.
Proof.
  induction s as [|c s IH]; [reflexivity|]. intros Hs.
  destruct s as [|c' s].
  - simpl in *. now rewrite Hs.
  - change (OsPath.ends_with_sep (String c (String c' s)))
      with (OsPath.ends_with_sep (String c' s)) in Hs.
    cbn [OsPath.rstrip_sep]. cbn [OsPath.rstrip_sep] in IH.
    rewrite (IH Hs). reflexivity.
Qed.

Lemma rstrip_sep_app_sep (a : string) :
  OsPath.rstrip_sep (a +:+ "/") = OsPath.rstrip_sep a.
Proof.
  induction a as [|c a IH]; [reflexivity|].
  rewrite append_cons. cbn [OsPath.rstrip_sep]. now rewrite IH.
Qed.

(** [os.path.dirname(os.path.join(a, b))] is [a] for a plain name [b]. *)
Lemma dirname_join (a b : string) :
  Py.truthy a = true -> OsPath.ends_with_sep a = false ->
  OsPath.has_sep b = false ->
  OsPath.dirname (OsPath.join a b) = a.
Proof.
  intros Ha Hend Hb. unfold OsPath.join, OsPath.dirname.
  assert (OsPath.starts_with_sep b = false) as ->.
  { destruct b; [reflexivity|]. simpl in *. now apply orb_false_elim in Hb as [-> _]. }
  rewrite Ha, Hend. cbn [negb orb].
  rewrite head_of_app_sep by assumption.
  rewrite rstrip_sep_app_sep, rstrip_sep_keeps by assumption.
  destruct a; [discriminate | reflexivity].
Qed.

Lemma has_sep_pretty_N_go (x : N) :
  forall s, OsPath.has_sep (pretty_N_go x s) = OsPath.has_sep s.
Proof.
  induction (N.lt_wf_0 x) as [x _ IH]. intros s.
  destruct (N.eq_0_gt_0_cases x) as [-> | Hpos]; [now rewrite pretty_N_go_0|].
  rewrite pretty_N_go_step by assumption.
  rewrite IH by (now apply N.div_lt).
  cbn [OsPath.has_sep].
  assert (OsPath.is_sep (pretty_N_char (x `mod` 10)) = false) as ->; [|reflexivity].
  unfold pretty_N_char. repeat case_match; reflexivity.
Qed.

Lemma has_sep_pretty_Z (z : Z) : OsPath.has_sep (pretty z) = false.
Proof.
  assert (forall p : positive, OsPath.has_sep (pretty p) = false) as Hpos.
  { intros p. unfold pretty, pretty_positive, pretty, pretty_N.
    case_decide; [reflexivity | apply has_sep_pretty_N_go]. }
  destruct z as [|p|p]; unfold pretty, pretty_Z; [reflexivity | apply Hpos |].
  rewrite has_sep_app, Hpos. reflexivity.
Qed.

End PathFacts.

Section StoreFacts.

Context {F V W : Type}.
Variable svc : Services F V W.

Lemma user_dir_shape (user_id : Z) :
  Py.truthy (user_dir user_id) = true
  /\ OsPath.ends_with_sep (user_dir user_id) = false.
Proof.
  assert (user_dir user_id = "faiss_store/" +:+ ("user_" +:+ pretty user_id)) as ->
    by reflexivity.
  split; [reflexivity|].
  rewrite ends_with_sep_app by reflexivity.
  apply ends_with_sep_no_sep. rewrite has_sep_app, has_sep_pretty_Z. reflexivity.
Qed.

Lemma dirname_index_path (user_id : Z) :
  OsPath.dirname (OsPath.join (user_dir user_id) "store.index") = user_dir user_id.
Proof.
  destruct (user_dir_shape user_id) as [Ht He].
  now apply dirname_join.
Qed.

(** [os.makedirs] fails exactly on a blocked path. *)
Lemma makedirs_error_None (fs : FS V) (visited : list string) :
  makedirs_error fs visited = None
  <-> ~ Exists (fun p => is_Some (files fs !! p)) visited.
Proof.
  induction visited as [|p rest IH]; cbn [makedirs_error].
  - split; [intros _ Hex; inversion Hex | reflexivity].
  - destruct (bool_decide_reflect (is_Some (files fs !! p))) as [Hp|Hp].
    + split; [discriminate|]. intros Hno. exfalso. apply Hno. now left.
    + rewrite IH. split.
      * intros Hno Hex. apply Exists_cons in Hex as [Hex|Hex]; tauto.
      * intros Hno Hex. apply Hno. now right.
Qed.

Lemma makedirs_error_blocked (fs : FS V) (path : string) :
  blocked fs path -> exists e, makedirs_error fs (OsPath.prefixes path) = Some e.
Proof.
  intros Hb. destruct (makedirs_error fs (OsPath.prefixes path)) as [e|] eqn:He.
  - now exists e.
  - apply makedirs_error_None in He. contradiction.
Qed.

(** The error depends on the files at the visited paths only. *)
Lemma makedirs_error_ext (fs fs' : FS V) (visited : list string) :
  (forall p, p ∈ visited -> files fs' !! p = files fs !! p) ->
  makedirs_error fs' visited = makedirs_error fs visited.
Proof.
  induction visited as [|p rest IH]; intros Hsame; [reflexivity|].
  cbn [makedirs_error]. rewrite (Hsame p) by left.
  rewrite IH; [reflexivity|]. intros q Hq. apply Hsame. now right.
Qed.

Lemma os_makedirs_error (fs : FS V) (path : string) (e : pyexn) :
  makedirs_error fs (OsPath.prefixes path) = Some e ->
  os_makedirs path fs = (inl e, fs).
Proof. intros He. unfold os_makedirs. now rewrite He. Qed.

Lemma os_makedirs_free (fs : FS V) (path : string) :
  ~ blocked fs path ->
  os_makedirs path fs
  = (inr tt, mkFS (dirs fs ∪ list_to_set (OsPath.prefixes path)) (files fs) (stdout fs)).
Proof.
  intros Hb. unfold os_makedirs.
  now rewrite (proj2 (makedirs_error_None fs (OsPath.prefixes path)) Hb).
Qed.

End StoreFacts.

(** ** Vector index store: load, exists, delete *)

Section StorePaths.

Lemma join_plain (a b : string) :
  Py.truthy a = true -> OsPath.ends_with_sep a = false ->
  OsPath.starts_with_sep b = false ->
  OsPath.join a b = a +:+ "/" +:+ b.
Proof. intros Ha He Hb. unfold OsPath.join. now rewrite Hb, Ha, He. Qed.

Lemma user_dir_eq (user_id : Z) :
  user_dir user_id = "faiss_store/user_" +:+ pretty user_id.
Proof. reflexivity. Qed.

Lemma index_path_eq (user_id : Z) :
  index_path user_id = user_dir user_id +:+ "/store.index".
Proof.
  destruct (user_dir_shape user_id) as [Ht He].
  unfold index_path. now rewrite join_plain.
Qed.

Lemma chunks_path_eq (user_id : Z) :
  chunks_path user_id = user_dir user_id +:+ "/chunks.pkl".
Proof.
  destruct (user_dir_shape user_id) as [Ht He].
  unfold chunks_path. now rewrite join_plain.
Qed.

(** Two paths that agree up to their first separator after a
    separator-free name have the same name and the same rest. *)
Lemma sep_split_inj (x y t t' : string) :
  OsPath.has_sep x = false -> OsPath.has_sep y = false ->
  x +:+ String "/" t = y +:+ String "/" t' -> x = y /\ t = t'.
Proof.
  revert y. induction x as [|c x IH]; intros [|d y] Hx Hy Heq.
  - rewrite !append_nil_l in Heq. injection Heq as ->. now split.
  - rewrite append_nil_l, append_cons in Heq. injection Heq as <- _.
    simpl in Hy. discriminate.
  - rewrite append_nil_l, append_cons in Heq. injection Heq as -> _.
    simpl in Hx. discriminate.
  - rewrite (append_cons c x), (append_cons d y) in Heq. injection Heq as -> Heq.
    simpl in Hx, Hy. apply orb_false_elim in Hx as [_ Hx].
    apply orb_false_elim in Hy as [_ Hy].
    destruct (IH y Hx Hy Heq) as [-> ->]. now split.
Qed.

(** Artifacts of different users never share a path. *)
Lemma artifact_paths_disjoint (a b : Z) (t t' : string) :
  a <> b ->
  user_dir a +:+ String "/" t <> user_dir b +:+ String "/" t'.
Proof.
  intros Hab Heq. rewrite !user_dir_eq, !append_assoc in Heq.
  apply (inj (String.app "faiss_store/user_")) in Heq.
  apply sep_split_inj in Heq as [Heq _]; try apply has_sep_pretty_Z.
  apply (inj pretty) in Heq. contradiction.
Qed.

Lemma index_chunks_paths_differ (user_id : Z) :
  index_path user_id <> chunks_path user_id.
Proof.
  rewrite index_path_eq, chunks_path_eq. intros Heq.
  apply (inj (String.app (user_dir user_id))) in Heq. discriminate.
Qed.

Lemma prefixes_from_plain (s : string) :
  OsPath.has_sep s = false ->
  forall acc, Py.truthy (acc +:+ s) = true ->
  OsPath.prefixes_from acc s = [acc +:+ s].
Proof.
  induction s as [|c s IH]; intros Hs acc Ht.
  - rewrite append_nil_r in *. simpl. now rewrite Ht.
  - simpl in Hs. apply orb_false_elim in Hs as [Hc Hs].
    cbn [OsPath.prefixes_from]. rewrite Hc. cbn [andb].
    rewrite IH; [|assumption|].
    + now rewrite append_assoc.
    + rewrite append_assoc. exact Ht.
Qed.

(** [os.makedirs] on a user's directory visits the base directory and the
    user's directory. *)
Lemma prefixes_user_dir (user_id : Z) :
  OsPath.prefixes (user_dir user_id) = ["faiss_store"; user_dir user_id].
Proof.
  rewrite user_dir_eq. unfold OsPath.prefixes.
  change ("faiss_store/user_" +:+ pretty user_id)
    with ("faiss_store" +:+ String "/" ("user_" +:+ pretty user_id)).
  assert (forall acc w rest, OsPath.has_sep w = false ->
            OsPath.prefixes_from acc (w +:+ rest)
            = OsPath.prefixes_from (acc +:+ w) rest) as Hrun.
  { intros acc w. revert acc. induction w as [|c w IH]; intros acc rest Hw.
    - now rewrite append_nil_l, append_nil_r.
    - simpl in Hw. apply orb_false_elim in Hw as [Hc Hw].
      rewrite append_cons. cbn [OsPath.prefixes_from]. rewrite Hc. cbn [andb].
      rewrite IH by assumption. now rewrite append_assoc. }
  rewrite Hrun by reflexivity. rewrite append_nil_l.
  cbn [OsPath.prefixes_from]. change (OsPath.is_sep "/") with true.
  change (Py.truthy "faiss_store") with true.
  change (OsPath.ends_with_sep "faiss_store") with false. cbn [andb negb].
  rewrite prefixes_from_plain.
  - reflexivity.
  - rewrite has_sep_app, has_sep_pretty_Z. reflexivity.
  - reflexivity.
Qed.

End StorePaths.

Section StoreRuns.

Context {F V W : Type}.
Variable svc : Services F V W.

Lemma get_user_paths_free (fs : FS V) (user_id : Z) :
  ~ blocked fs (user_dir user_id) ->
  get_user_paths user_id fs
  = (inr (index_path user_id, chunks_path user_id), with_user_dir user_id fs).
Proof.
  intros Hfree. unfold get_user_paths. fold (user_dir user_id).
  unfold bind. now rewrite os_makedirs_free.
Qed.

Lemma get_user_paths_error (fs : FS V) (user_id : Z) (e : pyexn) :
  makedirs_error fs (OsPath.prefixes (user_dir user_id)) = Some e ->
  get_user_paths user_id fs = (inl e, fs).
Proof.
  intros He. unfold get_user_paths. fold (user_dir user_id).
  unfold bind. now rewrite (os_makedirs_error _ _ _ He).
Qed.

Lemma artifact_not_made (user_id : Z) (name : string) :
  user_dir user_id +:+ String "/" name
  ∉ (list_to_set (OsPath.prefixes (user_dir user_id)) : gset string).
Proof.
  rewrite prefixes_user_dir. intros Hin.
  apply elem_of_list_to_set in Hin.
  apply elem_of_cons in Hin as [Heq | Hin].
  - rewrite user_dir_eq in Heq.
    change ("faiss_store/user_" +:+ pretty user_id)
      with ("faiss_store" +:+ ("/user_" +:+ pretty user_id)) in Heq.
    rewrite append_assoc in Heq.
    rewrite <- (append_nil_r "faiss_store") in Heq at 2.
    apply (inj (String.app "faiss_store")) in Heq. discriminate.
  - apply list_elem_of_singleton in Hin.
    rewrite <- (append_nil_r (user_dir user_id)) in Hin at 2.
    apply (inj (String.app (user_dir user_id))) in Hin. discriminate.
Qed.

Lemma index_path_not_made (user_id : Z) :
  index_path user_id ∉ (list_to_set (OsPath.prefixes (user_dir user_id)) : gset string).
Proof. rewrite index_path_eq. apply artifact_not_made. Qed.

Lemma chunks_path_not_made (user_id : Z) :
  chunks_path user_id ∉ (list_to_set (OsPath.prefixes (user_dir user_id)) : gset string).
Proof. rewrite chunks_path_eq. apply artifact_not_made. Qed.

(** Creating the user's directory does not make an artifact appear. *)
Lemma present_with_user_dir (fs : FS V) (user_id : Z) (path : string) :
  path ∉ (list_to_set (OsPath.prefixes (user_dir user_id)) : gset string) ->
  present (with_user_dir user_id fs) path <-> present fs path.
Proof.
  intros Hp. unfold present, with_user_dir. simpl. rewrite elem_of_union. tauto.
Qed.

Lemma os_path_exists_run (fs : FS V) (path : string) :
  os_path_exists path fs = (inr (bool_decide (present fs path)), fs).
Proof. reflexivity. Qed.

Lemma write_file_ok (fs : FS V) (path : string) (b : Blob V) :
  path ∉ dirs fs ->
  write_file path b fs
  = (inr tt, mkFS (dirs fs) (<[path := b]> (files fs)) (stdout fs)).
Proof. intros Hp. unfold write_file. now rewrite bool_decide_eq_false_2. Qed.

(** The run of [build_index] on a ready store and a non-empty chunk
    list. *)
Lemma build_index_run (fs : FS V) (user_id : Z) (all_chunks : list Chunk) :
  store_ready fs user_id -> all_chunks <> [] ->
  build_index svc all_chunks user_id fs
  = (inr (embed_chunks svc all_chunks, all_chunks),
     mkFS (dirs (with_user_dir user_id fs)
           ∪ list_to_set (OsPath.prefixes (user_dir user_id)))
       (<[chunks_path user_id := ChunksFile all_chunks]>
          (<[index_path user_id := IndexFile (embed_chunks svc all_chunks)]>
             (files fs)))
       (stdout fs ++ ["Building index with " +:+ pretty (length all_chunks)
                      +:+ " chunks..."])).
Proof.
  intros (Hfree & Hip & Hcp) Hne.
  unfold build_index. unfold bind at 1. rewrite get_user_paths_free by assumption.
  cbv beta iota.
  unfold bind at 1.
  change (OsPath.dirname (index_path user_id))
    with (OsPath.dirname (OsPath.join (user_dir user_id) "store.index")).
  rewrite dirname_index_path.
  rewrite os_makedirs_free by exact Hfree.
  unfold bind at 1. unfold print at 1. cbv beta iota.
  unfold bind at 1. unfold lift at 1.
  fold (embed_chunks svc all_chunks).
  assert (np_stack (embed_chunks svc all_chunks) = inr (embed_chunks svc all_chunks)) as ->.
  { destruct all_chunks; [congruence | reflexivity]. }
  unfold index_add. rewrite app_nil_l.
  unfold bind at 1. rewrite write_file_ok.
  2:{ unfold with_user_dir. cbn [dirs].
      pose proof (index_path_not_made user_id) as Hn.
      rewrite !not_elem_of_union. auto. }
  unfold bind at 1. rewrite write_file_ok.
  2:{ unfold with_user_dir. cbn [dirs].
      pose proof (chunks_path_not_made user_id) as Hn.
      rewrite !not_elem_of_union. auto. }
  reflexivity.
Qed.

(** Building keeps the store ready for the next build. *)
Lemma store_ready_after_build (fs : FS V) (user_id : Z) (D : gset string)
    (bi bc : Blob V) (out : list string) :
  store_ready fs user_id ->
  index_path user_id ∉ D -> chunks_path user_id ∉ D ->
  store_ready
    (mkFS D (<[chunks_path user_id := bc]> (<[index_path user_id := bi]> (files fs))) out)
    user_id.
Proof.
  intros (Hfree & _ & _) Hip Hcp. split; [|split; assumption].
  unfold blocked in *. cbn [files]. intros Hb. apply Hfree.
  apply Exists_exists in Hb as (p & Hin & Hsome). apply Exists_exists.
  exists p. split; [assumption|].
  assert (p ∈ (list_to_set (OsPath.prefixes (user_dir user_id)) : gset string)) as Hp
    by now apply elem_of_list_to_set.
  rewrite !lookup_insert_ne in Hsome; [assumption| |].
  - intros Heq. subst p. now apply (index_path_not_made user_id).
  - intros Heq. subst p. now apply (chunks_path_not_made user_id).
Qed.

(** The run of [load_index] when the user's directory can be created. *)
Lemma load_index_run (fs : FS V) (user_id : Z) :
  ~ blocked fs (user_dir user_id) ->
  load_index user_id fs
  = if bool_decide (present fs (index_path user_id))
       && bool_decide (present fs (chunks_path user_id))
    then
      match files fs !! index_path user_id with
      | Some (IndexFile rows) =>
          match files fs !! chunks_path user_id with
          | Some (ChunksFile chunks) =>
              (inr (rows, chunks), with_user_dir user_id fs)
          | _ => (inl (Exception ("could not unpickle " +:+ chunks_path user_id)),
                  with_user_dir user_id fs)
          end
      | _ => (inl (Exception ("could not read index from " +:+ index_path user_id)),
              with_user_dir user_id fs)
      end
    else (inl (Exception (no_index_message user_id)), with_user_dir user_id fs).
Proof.
  intros Hfree. unfold load_index. unfold bind at 1.
  rewrite get_user_paths_free by assumption. cbv beta iota.
  unfold bind at 1. rewrite os_path_exists_run.
  unfold bind at 1. rewrite os_path_exists_run.
  rewrite (bool_decide_ext _ _ (present_with_user_dir fs user_id _
                                  (index_path_not_made user_id))).
  rewrite (bool_decide_ext _ _ (present_with_user_dir fs user_id _
                                  (chunks_path_not_made user_id))).
  destruct (bool_decide (present fs (index_path user_id)));
    destruct (bool_decide (present fs (chunks_path user_id))); try reflexivity.
  cbn [negb orb andb]. unfold bind, faiss_read_index, pickle_load.
  change (files (with_user_dir user_id fs)) with (files fs).
  destruct (files fs !! index_path user_id) as [[rows|cs]|]; try reflexivity.
  cbv beta iota. change (files (with_user_dir user_id fs)) with (files fs).
  destruct (files fs !! chunks_path user_id) as [[rows'|cs]|]; reflexivity.
Qed.

Lemma index_exists_run (fs : FS V) (user_id : Z) :
  ~ blocked fs (user_dir user_id) ->
  index_exists user_id fs
  = (inr (bool_decide (present fs (index_path user_id))
          && bool_decide (present fs (chunks_path user_id))),
     with_user_dir user_id fs).
Proof.
  intros Hfree. unfold index_exists. unfold bind at 1.
  rewrite get_user_paths_free by assumption. cbv beta iota.
  unfold bind at 1. rewrite os_path_exists_run.
  unfold bind at 1. rewrite os_path_exists_run.
  rewrite (bool_decide_ext _ _ (present_with_user_dir fs user_id _
                                  (index_path_not_made user_id))).
  rewrite (bool_decide_ext _ _ (present_with_user_dir fs user_id _
                                  (chunks_path_not_made user_id))).
  reflexivity.
Qed.

End StoreRuns.

(** C10. [build_index] on an empty chunk list raises before it writes
    either artifact: the files of the store are those it started with.
    The error is the [ValueError] of stacking zero vectors, unless a
    regular file stands in the way of the user's directory, in which case
    creating the directory has already failed: with [NotADirectoryError]
    when [faiss_store] is a regular file, and with [FileExistsError] when
    the user's directory is one. *)
Theorem build_index_empty_raises {F V W : Type} (svc : Services F V W)
    (user_id : Z) (fs : FS V) :
  exists e fs',
    build_index svc [] user_id fs = (inl e, fs')
    /\ files fs' = files fs
    /\ (~ blocked fs (user_dir user_id) ->
        e = ValueError "need at least one array to stack")
    /\ (is_Some (files fs !! FAISS_BASE_PATH) ->
        e = NotADirectoryError
              ("[Errno 20] Not a directory: '" +:+ user_dir user_id +:+ "'"))
    /\ (files fs !! FAISS_BASE_PATH = None ->
        is_Some (files fs !! user_dir user_id) ->
        e = FileExistsError
              ("[Errno 17] File exists: '" +:+ user_dir user_id +:+ "'")).
Proof.
  assert (blocked fs (user_dir user_id)
          <-> is_Some (files fs !! FAISS_BASE_PATH)
              \/ is_Some (files fs !! user_dir user_id)) as Hblocked.
  { unfold blocked. rewrite prefixes_user_dir, Exists_cons, Exists_cons, Exists_nil.
    unfold FAISS_BASE_PATH. tauto. }
  destruct (makedirs_error fs (OsPath.prefixes (user_dir user_id))) as [e|] eqn:He.
  - exists e, fs.
    unfold build_index, bind at 1. rewrite (get_user_paths_error _ _ _ He).
    split; [reflexivity|]. split; [reflexivity|].
    assert (~ ~ blocked fs (user_dir user_id)) as Hb.
    { intros Hfree. apply makedirs_error_None in Hfree. congruence. }
    split; [tauto|].
    rewrite prefixes_user_dir in He. cbn [makedirs_error] in He.
    change (files fs !! "faiss_store") with (files fs !! FAISS_BASE_PATH) in He.
    destruct (bool_decide_reflect (is_Some (files fs !! FAISS_BASE_PATH))) as [Hbase|Hbase].
    + injection He as <-. split; [reflexivity|].
      intros Hnone. rewrite Hnone in Hbase. now destruct Hbase.
    + split; [contradiction|]. intros _ Hdir.
      rewrite (bool_decide_eq_true_2 _ Hdir) in He. injection He as <-. reflexivity.
  - apply makedirs_error_None in He. fold (blocked fs (user_dir user_id)) in He.
    eexists (ValueError "need at least one array to stack"), _.
    unfold build_index, bind at 1. rewrite get_user_paths_free by exact He.
    cbv beta iota. unfold bind at 1.
    change (OsPath.dirname (index_path user_id))
      with (OsPath.dirname (OsPath.join (user_dir user_id) "store.index")).
    rewrite dirname_index_path.
    rewrite os_makedirs_free by exact He.
    unfold bind, print, lift. simpl.
    split; [reflexivity|]. split; [reflexivity|]. split; [reflexivity|].
    split; [intros Hbase; exfalso; apply He, Hblocked; now left|].
    intros _ Hdir. exfalso. apply He, Hblocked. now right.
Qed.

Lemma empty_store_ready {V} (user_id : Z) : store_ready (@empty_store V) user_id.
Proof.
  split; [|split; apply not_elem_of_empty].
  intros Hb. apply Exists_exists in Hb as (p & _ & Hsome).
  cbn [files empty_store] in Hsome. rewrite lookup_empty in Hsome.
  now apply is_Some_None in Hsome.
Qed.

(** X1. On a ready store, [build_index] with at least one chunk returns
    one embedding per chunk, in chunk order, together with the chunks, and
    afterwards the user's index file holds exactly those rows and the
    user's chunk file exactly those chunks; every other file is as
    before. *)
Theorem build_index_persists_pair {F V W : Type} (svc : Services F V W)
    (all_chunks : list Chunk) (user_id : Z) (fs : FS V) :
  store_ready fs user_id -> all_chunks <> [] ->
  exists index fs',
    build_index svc all_chunks user_id fs = (inr (index, all_chunks), fs')
    /\ length index = length all_chunks
    /\ (forall i c, all_chunks !! i = Some c ->
          index !! i = Some (get_embedding svc (text c)))
    /\ files fs' !! index_path user_id = Some (IndexFile index)
    /\ files fs' !! chunks_path user_id = Some (ChunksFile all_chunks)
    /\ (forall p, p <> index_path user_id -> p <> chunks_path user_id ->
          files fs' !! p = files fs !! p).
Proof.
  intros Hready Hne. eexists _, _. split; [now apply build_index_run|].
  cbn [files]. split; [apply length_map|].
  split.
  { intros i c Hc. unfold embed_chunks. rewrite list_lookup_fmap, Hc. reflexivity. }
  split.
  { rewrite lookup_insert_ne by (apply not_eq_sym, index_chunks_paths_differ).
    apply lookup_insert_eq. }
  split; [apply lookup_insert_eq|].
  intros p Hpi Hpc. now rewrite !lookup_insert_ne by congruence.
Qed.

Lemma build_index_persists_pair_witness :
  exists index fs',
    build_index (Demo.services "" (inr 200) (Demo.replies "ok"))
      [Demo.policy; Demo.blank] 7 empty_store
    = (inr (index, [Demo.policy; Demo.blank]), fs')
    /\ length index = 2%nat
    /\ files fs' !! "faiss_store/user_7/store.index" = Some (IndexFile index)
    /\ files fs' !! "faiss_store/user_7/chunks.pkl"
       = Some (ChunksFile [Demo.policy; Demo.blank]).
Proof.
  destruct (build_index_persists_pair
              (Demo.services "" (inr 200) (Demo.replies "ok"))
              [Demo.policy; Demo.blank] 7 empty_store
              (empty_store_ready 7) ltac:(discriminate))
    as (index & fs' & Hrun & Hlen & _ & Hi & Hc & _).
  exists index, fs'. repeat split; assumption.
Defined.

Lemma load_after_build {F V W : Type} (svc : Services F V W)
    (all_chunks : list Chunk) (user_id : Z) (fs : FS V) :
  store_ready fs user_id -> all_chunks <> [] ->
  exists fs1,
    build_index svc all_chunks user_id fs
      = (inr (embed_chunks svc all_chunks, all_chunks), fs1)
    /\ store_ready fs1 user_id
    /\ (index_exists user_id fs1).1 = inr true
    /\ (load_index user_id fs1).1 = inr (embed_chunks svc all_chunks, all_chunks).
Proof.
  intros Hready Hne. eexists. split; [now apply build_index_run|].
  set (fs1 := mkFS _ _ _).
  assert (store_ready fs1 user_id) as Hready1.
  { apply store_ready_after_build; [assumption| |].
    - destruct Hready as (_ & Hip & _). unfold with_user_dir. cbn [dirs].
      pose proof (index_path_not_made user_id). rewrite !not_elem_of_union. auto.
    - destruct Hready as (_ & _ & Hcp). unfold with_user_dir. cbn [dirs].
      pose proof (chunks_path_not_made user_id). rewrite !not_elem_of_union. auto. }
  split; [exact Hready1|]. destruct Hready1 as (Hfree1 & Hip1 & Hcp1).
  assert (files fs1 !! index_path user_id
          = Some (IndexFile (embed_chunks svc all_chunks))) as Hi.
  { unfold fs1. cbn [files].
    rewrite lookup_insert_ne by (apply not_eq_sym, index_chunks_paths_differ).
    apply lookup_insert_eq. }
  assert (files fs1 !! chunks_path user_id = Some (ChunksFile all_chunks)) as Hc
    by (unfold fs1; cbn [files]; apply lookup_insert_eq).
  assert (bool_decide (present fs1 (index_path user_id)) = true) as Hpi
    by (apply bool_decide_eq_true; left; rewrite Hi; eauto).
  assert (bool_decide (present fs1 (chunks_path user_id)) = true) as Hpc
    by (apply bool_decide_eq_true; left; rewrite Hc; eauto).
  rewrite index_exists_run, load_index_run by assumption.
  rewrite Hpi, Hpc, Hi, Hc. now split.
Qed.

(** X2. Round trip: after a successful [build_index], [index_exists] is
    true and [load_index] returns exactly the index and the chunks that
    were built. *)
Theorem build_then_load {F V W : Type} (svc : Services F V W)
    (all_chunks : list Chunk) (user_id : Z) (fs : FS V) :
  store_ready fs user_id -> all_chunks <> [] ->
  exists built fs1,
    build_index svc all_chunks user_id fs = (inr built, fs1)
    /\ (index_exists user_id fs1).1 = inr true
    /\ (load_index user_id fs1).1 = inr built
    /\ built.2 = all_chunks.
Proof.
  intros Hready Hne.
  destruct (load_after_build svc all_chunks user_id fs Hready Hne)
    as (fs1 & Hrun & _ & Hex & Hload).
  exists (embed_chunks svc all_chunks, all_chunks), fs1. now repeat split.
Qed.

Lemma build_then_load_witness :
  exists built fs1,
    build_index (Demo.services "" (inr 200) (Demo.replies "ok"))
      [Demo.policy] 7 empty_store = (inr built, fs1)
    /\ (index_exists 7 fs1).1 = inr true
    /\ (load_index 7 fs1).1 = inr built
    /\ built.2 = [Demo.policy].
Proof.
  exact (build_then_load (Demo.services "" (inr 200) (Demo.replies "ok"))
           [Demo.policy] 7 empty_store (empty_store_ready 7) ltac:(discriminate)).
Defined.

(** X3. A rebuild replaces the pair: after building from one chunk list
    and then from another, [load_index] returns the second list with its
    embeddings, and nothing of the first. *)
Theorem rebuild_replaces {F V W : Type} (svc : Services F V W)
    (first second : list Chunk) (user_id : Z) (fs : FS V) :
  store_ready fs user_id -> first <> [] -> second <> [] ->
  exists r1 fs1 r2 fs2,
    build_index svc first user_id fs = (inr r1, fs1)
    /\ build_index svc second user_id fs1 = (inr r2, fs2)
    /\ (load_index user_id fs2).1 = inr (embed_chunks svc second, second).
Proof.
  intros Hready H1 H2.
  destruct (load_after_build svc first user_id fs Hready H1)
    as (fs1 & Hrun1 & Hready1 & _ & _).
  destruct (load_after_build svc second user_id fs1 Hready1 H2)
    as (fs2 & Hrun2 & _ & _ & Hload).
  eexists _, fs1, _, fs2. repeat split; eassumption.
Qed.

Lemma rebuild_replaces_witness :
  exists r1 fs1 r2 fs2,
    build_index (Demo.services "" (inr 200) (Demo.replies "ok"))
      [Demo.blank; Demo.blank] 7 empty_store = (inr r1, fs1)
    /\ build_index (Demo.services "" (inr 200) (Demo.replies "ok"))
         [Demo.policy] 7 fs1 = (inr r2, fs2)
    /\ (load_index 7 fs2).1 = inr ([S754_zero false], [Demo.policy]).
Proof.
  exact (rebuild_replaces (Demo.services "" (inr 200) (Demo.replies "ok"))
           [Demo.blank; Demo.blank] [Demo.policy] 7 empty_store
           (empty_store_ready 7) ltac:(discriminate) ltac:(discriminate)).
Defined.

(** X4. When the user's directory can be created, [index_exists] returns
    true exactly when something exists at both artifact paths, and
    whenever it returns false [load_index] raises the "No index found for
    user ..." error.  Neither changes any file. *)
Theorem load_needs_both_artifacts {V : Type} (user_id : Z) (fs : FS V) :
  ~ blocked fs (user_dir user_id) ->
  exists b fs',
    index_exists user_id fs = (inr b, fs')
    /\ files fs' = files fs
    /\ (b = true <->
        present fs (index_path user_id) /\ present fs (chunks_path user_id))
    /\ (b = false ->
        load_index user_id fs = (inl (Exception (no_index_message user_id)), fs')).
Proof.
  intros Hfree. eexists _, _. split; [now apply index_exists_run|].
  split; [reflexivity|]. split.
  - rewrite andb_true_iff, !bool_decide_eq_true. reflexivity.
  - intros Hb. rewrite load_index_run by assumption. now rewrite Hb.
Qed.

Lemma load_needs_both_artifacts_witness :
  exists b fs',
    index_exists 7 (@empty_store spec_float) = (inr b, fs')
    /\ b = false
    /\ load_index 7 (@empty_store spec_float)
       = (inl (Exception
                 "No index found for user 7. Please build the knowledge base first."),
          fs').
Proof.
  destruct (load_needs_both_artifacts 7 (@empty_store spec_float))
    as (b & fs' & Hrun & _ & _ & Hload).
  { destruct (empty_store_ready (V := spec_float) 7) as [Hfree _]. exact Hfree. }
  exists b, fs'. split; [exact Hrun|].
  assert (b = false) as Hb by (vm_compute in Hrun; now injection Hrun as <- _).
  split; [exact Hb | exact (Hload Hb)].
Defined.

Lemma present_file {V} (fs : FS V) (path : string) :
  path ∉ dirs fs ->
  bool_decide (present fs path) = bool_decide (is_Some (files fs !! path)).
Proof. intros Hp. apply bool_decide_ext. unfold present. tauto. Qed.

(** The run of [delete_user_index] on a ready store. *)
Lemma delete_user_index_run {V : Type} (user_id : Z) (fs : FS V) :
  store_ready fs user_id ->
  delete_user_index user_id fs
  = (inr (bool_decide (is_Some (files fs !! index_path user_id))
          || bool_decide (is_Some (files fs !! chunks_path user_id))),
     mkFS (dirs (with_user_dir user_id fs))
       (delete (chunks_path user_id) (delete (index_path user_id) (files fs)))
       (stdout fs)).
Proof.
  intros (Hfree & Hip & Hcp).
  pose proof (index_chunks_paths_differ user_id) as Hdiff.
  unfold delete_user_index. unfold bind at 1.
  rewrite get_user_paths_free by assumption. cbv beta iota.
  unfold bind at 1. rewrite os_path_exists_run.
  rewrite (bool_decide_ext _ _ (present_with_user_dir fs user_id _
                                  (index_path_not_made user_id))).
  rewrite present_file by assumption.
  destruct (files fs !! index_path user_id) as [bi|] eqn:Hi.
  - rewrite bool_decide_eq_true_2 by eauto.
    unfold bind at 1. unfold bind at 1. unfold os_remove at 1.
    change (files (with_user_dir user_id fs)) with (files fs). rewrite Hi.
    unfold ret at 1. unfold bind at 1. rewrite os_path_exists_run.
    unfold present. cbn [files dirs].
    destruct (files fs !! chunks_path user_id) as [bc|] eqn:Hc.
    + rewrite bool_decide_eq_true_2
        by (left; rewrite lookup_delete_ne, Hc by congruence; eauto).
      unfold bind at 1. unfold bind at 1. unfold os_remove at 1. cbn [files].
      rewrite lookup_delete_ne, Hc by congruence.
      rewrite bool_decide_eq_true_2 by eauto. reflexivity.
    + rewrite bool_decide_eq_false_2.
      2:{ intros [Hs | Hd].
          - rewrite lookup_delete_ne, Hc in Hs by congruence.
            now apply is_Some_None in Hs.
          - unfold with_user_dir in Hd. cbn [dirs] in Hd.
            apply elem_of_union in Hd as [Hd | Hd]; [contradiction|].
            now apply (chunks_path_not_made user_id). }
      rewrite (bool_decide_eq_false_2 (is_Some None))
        by (intros Hs; now apply is_Some_None in Hs).
      rewrite (delete_id (delete (index_path user_id) (files fs)) (chunks_path user_id))
        by (now rewrite lookup_delete_ne by congruence).
      reflexivity.
  - rewrite bool_decide_eq_false_2 by (intros Hs; now apply is_Some_None in Hs).
    unfold bind at 1. unfold ret at 1. unfold bind at 1. rewrite os_path_exists_run.
    rewrite (bool_decide_ext _ _ (present_with_user_dir fs user_id _
                                    (chunks_path_not_made user_id))).
    rewrite present_file by assumption.
    rewrite (delete_id (files fs) (index_path user_id)) by assumption.
    destruct (files fs !! chunks_path user_id) as [bc|] eqn:Hc.
    + rewrite bool_decide_eq_true_2 by eauto.
      unfold bind at 1. unfold bind at 1. unfold os_remove at 1.
      change (files (with_user_dir user_id fs)) with (files fs). rewrite Hc.
      reflexivity.
    + rewrite bool_decide_eq_false_2 by (intros Hs; now apply is_Some_None in Hs).
      rewrite (delete_id (files fs) (chunks_path user_id)) by assumption.
      reflexivity.
Qed.

(** X5. On a ready store (the user's directory can be created and no
    directory sits at an artifact path) [delete_user_index] removes both
    artifacts: it returns true exactly when at least one of the two files
    existed, no other file changes, and afterwards [index_exists] is false
    and [load_index] raises the "No index found" error. *)
Theorem delete_user_index_clears {V : Type} (user_id : Z) (fs : FS V) :
  store_ready fs user_id ->
  exists b fs',
    delete_user_index user_id fs = (inr b, fs')
    /\ (b = true <-> is_Some (files fs !! index_path user_id)
                     \/ is_Some (files fs !! chunks_path user_id))
    /\ files fs' = delete (chunks_path user_id) (delete (index_path user_id) (files fs))
    /\ (index_exists user_id fs').1 = inr false
    /\ (load_index user_id fs').1 = inl (Exception (no_index_message user_id)).
Proof.
  intros Hready. pose proof Hready as (Hfree & Hip & Hcp).
  pose proof (index_chunks_paths_differ user_id) as Hdiff.
  eexists _, _. split; [now apply delete_user_index_run|].
  set (fs' := mkFS _ _ _).
  split; [now rewrite orb_true_iff, !bool_decide_eq_true|].
  split; [reflexivity|].
  assert (~ blocked fs' (user_dir user_id)) as Hfree'.
  { unfold blocked in *. intros Hex. apply Hfree.
    apply Exists_exists in Hex as (p & Hin & Hsome). apply Exists_exists.
    exists p. split; [assumption|].
    destruct Hsome as [x Hx]. unfold fs' in Hx. cbn [files] in Hx.
    apply lookup_delete_Some in Hx as [_ Hx].
    apply lookup_delete_Some in Hx as [_ Hx]. eauto. }
  assert (~ present fs' (index_path user_id)) as Hgone.
  { unfold present, fs'. cbn [files dirs]. intros [Hs | Hd].
    - rewrite lookup_delete_ne, lookup_delete_eq in Hs by congruence.
      now apply is_Some_None in Hs.
    - unfold with_user_dir in Hd. cbn [dirs] in Hd.
      apply elem_of_union in Hd as [Hd | Hd]; [contradiction|].
      now apply (index_path_not_made user_id). }
  rewrite index_exists_run, load_index_run by assumption.
  rewrite (bool_decide_eq_false_2 _ Hgone). now split.
Qed.

(** On the store that a build for user 7 left, the deletion removes the
    two files and returns true. *)
Lemma delete_user_index_clears_witness :
  exists b fs',
    delete_user_index 7
      (build_index (Demo.services "" (inr 200) (Demo.replies "ok"))
         [Demo.policy; Demo.blank] 7 empty_store).2
    = (inr b, fs')
    /\ b = true
    /\ files fs' !! "faiss_store/user_7/store.index" = None
    /\ files fs' !! "faiss_store/user_7/chunks.pkl" = None
    /\ (index_exists 7 fs').1 = inr false
    /\ (load_index 7 fs').1 = inl (Exception (no_index_message 7)).
Proof.
  set (built := (build_index (Demo.services "" (inr 200) (Demo.replies "ok"))
                   [Demo.policy; Demo.blank] 7 empty_store).2).
  assert (store_ready built 7) as Hready.
  { destruct (load_after_build (Demo.services "" (inr 200) (Demo.replies "ok"))
                [Demo.policy; Demo.blank] 7 empty_store
                (empty_store_ready 7) ltac:(discriminate))
      as (fs1 & Hbuild & Hr & _).
    unfold built. rewrite Hbuild. exact Hr. }
  destruct (delete_user_index_clears 7 built Hready)
    as (b & fs' & Hrun & Hb & Hfiles & Hex & Hload).
  exists b, fs'. split; [exact Hrun|].
  split; [apply Hb; left; vm_compute; eauto|].
  split; [rewrite Hfiles; vm_compute; reflexivity|].
  split; [rewrite Hfiles; vm_compute; reflexivity|].
  split; assumption.
Defined.

(** *** Confinement of the store operations *)

Section Confinement.

Context {F V W : Type}.
Variable svc : Services F V W.
Variable user_id : Z.

Lemma confined_pure {A} (r : pyexn + A) : confined (V := V) user_id (lift r).
Proof. intros fs. cbn. repeat split; [reflexivity | apply union_subseteq_l]. Qed.

Lemma confined_ret {A} (a : A) : confined (V := V) user_id (ret a).
Proof. apply (confined_pure (inr a)). Qed.

Lemma confined_raise {A} (e : pyexn) : confined (V := V) (A := A) user_id (raise e).
Proof. apply (confined_pure (inl e)). Qed.

(** Confinement goes through sequencing; [Q] is what is known of the
    first result. *)
Lemma confined_bind {A B} (Q : A -> Prop) (m : M (FS V) A) (k : A -> M (FS V) B) :
  confined user_id m ->
  (forall fs a, (m fs).1 = inr a -> Q a) ->
  (forall a, Q a -> confined user_id (k a)) ->
  confined user_id (bind m k).
Proof.
  intros Hm HQ Hk fs. unfold bind.
  destruct (Hm fs) as (Hf & Hd1 & Hd2). specialize (HQ fs).
  destruct (m fs) as [[e|a] fs1]; cbn [fst snd] in *.
  - auto.
  - destruct (Hk a (HQ a eq_refl) fs1) as (Hf' & Hd1' & Hd2').
    split; [|split].
    + intros p Hpi Hpc. now rewrite Hf', Hf.
    + now transitivity (dirs fs1).
    + etransitivity; [exact Hd2'|].
      apply union_least; [exact Hd2 | apply union_subseteq_r].
Qed.

Lemma confined_makedirs : confined (V := V) user_id (os_makedirs (user_dir user_id)).
Proof.
  intros fs. unfold os_makedirs.
  destruct (makedirs_error fs (OsPath.prefixes (user_dir user_id))); cbn.
  - repeat split; [reflexivity | apply union_subseteq_l].
  - repeat split; [apply union_subseteq_l | reflexivity].
Qed.

Lemma confined_print (line : string) : confined (V := V) user_id (print line).
Proof. intros fs. cbn. repeat split; [reflexivity | apply union_subseteq_l]. Qed.

Lemma confined_exists (path : string) :
  confined (V := V) user_id (os_path_exists path).
Proof. intros fs. cbn. repeat split; [reflexivity | apply union_subseteq_l]. Qed.

Lemma confined_read_index (path : string) :
  confined (V := V) user_id (faiss_read_index path).
Proof.
  intros fs. unfold faiss_read_index.
  destruct (files fs !! path) as [[?|?]|]; cbn;
    repeat split; (reflexivity || apply union_subseteq_l).
Qed.

Lemma confined_pickle_load (path : string) :
  confined (V := V) user_id (pickle_load path).
Proof.
  intros fs. unfold pickle_load.
  destruct (files fs !! path) as [[?|?]|]; cbn;
    repeat split; (reflexivity || apply union_subseteq_l).
Qed.

Lemma confined_write (path : string) (b : Blob V) :
  path = index_path user_id \/ path = chunks_path user_id ->
  confined user_id (write_file path b).
Proof.
  intros Hpath fs. unfold write_file. case_bool_decide; cbn.
  - repeat split; [reflexivity | apply union_subseteq_l].
  - split; [|split; [reflexivity | apply union_subseteq_l]].
    intros p Hpi Hpc. apply lookup_insert_ne. destruct Hpath; congruence.
Qed.

Lemma confined_remove (path : string) :
  path = index_path user_id \/ path = chunks_path user_id ->
  confined (V := V) user_id (os_remove path).
Proof.
  intros Hpath fs. unfold os_remove. destruct (files fs !! path); cbn.
  - split; [|split; [reflexivity | apply union_subseteq_l]].
    intros p Hpi Hpc. apply lookup_delete_ne. destruct Hpath; congruence.
  - repeat split; [reflexivity | apply union_subseteq_l].
Qed.

(** [get_user_paths] is confined and returns the user's two paths. *)
Lemma confined_get_user_paths :
  confined (V := V) user_id (get_user_paths user_id).
Proof.
  unfold get_user_paths. fold (user_dir user_id).
  apply (confined_bind (fun _ => True)); auto using confined_makedirs.
  intros _ _. apply confined_ret.
Qed.

Lemma get_user_paths_result (fs : FS V) (paths : string * string) :
  (get_user_paths user_id fs).1 = inr paths ->
  paths = (index_path user_id, chunks_path user_id).
Proof.
  unfold get_user_paths, bind. fold (user_dir user_id).
  destruct (os_makedirs (user_dir user_id) fs) as [[e|[]] fs1]; cbn; [discriminate|].
  now intros [= <-].
Qed.

Lemma confined_build_index (all_chunks : list Chunk) :
  confined user_id (build_index svc all_chunks user_id).
Proof.
  unfold build_index.
  eapply confined_bind;
    [apply confined_get_user_paths | apply get_user_paths_result |].
  intros paths ->.
  change (OsPath.dirname (index_path user_id))
    with (OsPath.dirname (OsPath.join (user_dir user_id) "store.index")).
  rewrite dirname_index_path.
  apply (confined_bind (fun _ => True)); auto using confined_makedirs. intros _ _.
  apply (confined_bind (fun _ => True)); auto using confined_print. intros _ _.
  apply (confined_bind (fun _ => True)); auto using confined_pure. intros matrix _.
  apply (confined_bind (fun _ => True)); auto using confined_write. intros _ _.
  apply (confined_bind (fun _ => True)); auto using confined_write. intros _ _.
  apply confined_ret.
Qed.

Lemma confined_delete_user_index :
  confined (V := V) user_id (delete_user_index user_id).
Proof.
  unfold delete_user_index.
  eapply confined_bind;
    [apply confined_get_user_paths | apply get_user_paths_result |].
  intros paths ->.
  apply (confined_bind (fun _ => True)); auto using confined_exists. intros has_index _.
  apply (confined_bind (fun _ => True)); auto.
  { destruct has_index; [|apply confined_ret].
    apply (confined_bind (fun _ => True)); auto using confined_remove.
    intros _ _. apply confined_ret. }
  intros deleted _.
  apply (confined_bind (fun _ => True)); auto using confined_exists. intros has_chunks _.
  apply (confined_bind (fun _ => True)); auto.
  { destruct has_chunks; [|apply confined_ret].
    apply (confined_bind (fun _ => True)); auto using confined_remove.
    intros _ _. apply confined_ret. }
  intros deleted' _. apply confined_ret.
Qed.

End Confinement.

Section Isolation.

Context {V : Type}.

Lemma artifact_not_user_dir (a b : Z) (name : string) :
  user_dir a +:+ String "/" name <> user_dir b.
Proof.
  rewrite !user_dir_eq, append_assoc. intros Heq.
  apply (inj (String.app "faiss_store/user_")) in Heq.
  apply (f_equal OsPath.has_sep) in Heq.
  rewrite has_sep_app, !has_sep_pretty_Z in Heq. discriminate.
Qed.

(** A path on the way to one user's directory, or one of that user's
    artifacts, is not an artifact of another user. *)
Lemma view_not_artifact (a b : Z) (p name : string) :
  a <> b ->
  p ∈ OsPath.prefixes (user_dir b) \/ p = index_path b \/ p = chunks_path b ->
  p <> user_dir a +:+ String "/" name.
Proof.
  intros Hab [Hin | [-> | ->]].
  - rewrite prefixes_user_dir in Hin.
    apply elem_of_cons in Hin as [-> | Hin].
    + intros Heq. apply (artifact_not_made a name).
      rewrite prefixes_user_dir, <- Heq. apply elem_of_list_to_set. left.
    + apply list_elem_of_singleton in Hin as ->.
      apply not_eq_sym, artifact_not_user_dir.
  - rewrite index_path_eq. now apply artifact_paths_disjoint, not_eq_sym.
  - rewrite chunks_path_eq. now apply artifact_paths_disjoint, not_eq_sym.
Qed.

Lemma artifact_not_made_by_other (a b : Z) (name : string) :
  user_dir b +:+ String "/" name
  ∉ (list_to_set (OsPath.prefixes (user_dir a)) : gset string).
Proof.
  rewrite prefixes_user_dir. intros Hin.
  apply elem_of_list_to_set in Hin.
  apply elem_of_cons in Hin as [Heq | Hin].
  - apply (artifact_not_made b name).
    rewrite prefixes_user_dir, Heq. apply elem_of_list_to_set. left.
  - apply list_elem_of_singleton in Hin. now apply artifact_not_user_dir in Hin.
Qed.

(** What [load_index] and [index_exists] return for a user depends only
    on the files at that user's paths and on whether directories sit at
    the artifact paths. *)
Lemma same_view_same_load (b : Z) (fs fs' : FS V) :
  (forall p, p ∈ OsPath.prefixes (user_dir b) \/ p = index_path b \/ p = chunks_path b ->
     files fs' !! p = files fs !! p) ->
  (index_path b ∈ dirs fs' <-> index_path b ∈ dirs fs) ->
  (chunks_path b ∈ dirs fs' <-> chunks_path b ∈ dirs fs) ->
  (load_index b fs').1 = (load_index b fs).1
  /\ (index_exists b fs').1 = (index_exists b fs).1.
Proof.
  intros Hfiles Hdi Hdc.
  assert (blocked fs' (user_dir b) <-> blocked fs (user_dir b)) as Hblocked.
  { unfold blocked. rewrite !Exists_exists.
    split; intros (p & Hin & Hsome); exists p; (split; [assumption|]).
    - rewrite <- Hfiles by auto. assumption.
    - rewrite Hfiles by auto. assumption. }
  destruct (decide (blocked fs (user_dir b))) as [Hb | Hfree].
  - destruct (makedirs_error_blocked fs _ Hb) as [e He].
    assert (makedirs_error fs' (OsPath.prefixes (user_dir b)) = Some e) as He'.
    { rewrite <- He. apply makedirs_error_ext. intros p Hp. apply Hfiles. now left. }
    unfold load_index, index_exists, bind.
    rewrite (get_user_paths_error _ _ _ He), (get_user_paths_error _ _ _ He').
    now split.
  - rewrite !load_index_run, !index_exists_run by tauto.
    assert (forall p, p = index_path b \/ p = chunks_path b ->
              (p ∈ dirs fs' <-> p ∈ dirs fs) ->
              bool_decide (present fs' p) = bool_decide (present fs p)) as Hpresent.
    { intros p Hp Hd. apply bool_decide_ext. unfold present.
      rewrite Hfiles, Hd by tauto. reflexivity. }
    rewrite !(Hpresent (index_path b)), !(Hpresent (chunks_path b)) by auto.
    rewrite !(Hfiles (index_path b)), !(Hfiles (chunks_path b)) by auto.
    split; [|reflexivity].
    destruct (bool_decide (present fs (index_path b))
              && bool_decide (present fs (chunks_path b))); [|reflexivity].
    destruct (files fs !! index_path b) as [[rows|cs]|]; try reflexivity.
    destruct (files fs !! chunks_path b) as [[rows'|cs]|]; reflexivity.
Qed.

(** An operation confined to one user does not change what another user
    loads. *)
Lemma confined_other_user {A} (a b : Z) (m : M (FS V) A) (fs : FS V) :
  a <> b -> confined a m ->
  (load_index b (m fs).2).1 = (load_index b fs).1
  /\ (index_exists b (m fs).2).1 = (index_exists b fs).1.
Proof.
  intros Hab Hm. destruct (Hm fs) as (Hf & Hd1 & Hd2).
  apply same_view_same_load.
  - intros p Hp. apply Hf.
    + rewrite index_path_eq. now apply (view_not_artifact a b).
    + rewrite chunks_path_eq. now apply (view_not_artifact a b).
  - split; [|apply Hd1]. intros Hin. apply Hd2 in Hin.
    apply elem_of_union in Hin as [Hin | Hin]; [assumption|].
    rewrite index_path_eq in Hin. now apply artifact_not_made_by_other in Hin.
  - split; [|apply Hd1]. intros Hin. apply Hd2 in Hin.
    apply elem_of_union in Hin as [Hin | Hin]; [assumption|].
    rewrite chunks_path_eq in Hin. now apply artifact_not_made_by_other in Hin.
Qed.

End Isolation.

(** X6. Users are isolated: whatever one user's [build_index] or
    [delete_user_index] does (succeed or raise, on any store), another
    user's [load_index] and [index_exists] return afterwards what they
    returned before. *)
Theorem users_are_isolated {F V W : Type} (svc : Services F V W)
    (all_chunks : list Chunk) (a b : Z) (fs : FS V) :
  a <> b ->
  ((load_index b (build_index svc all_chunks a fs).2).1 = (load_index b fs).1
   /\ (index_exists b (build_index svc all_chunks a fs).2).1 = (index_exists b fs).1)
  /\ ((load_index b (delete_user_index a fs).2).1 = (load_index b fs).1
      /\ (index_exists b (delete_user_index a fs).2).1 = (index_exists b fs).1).
Proof.
  intros Hab. split.
  - apply (confined_other_user a b); [assumption | apply confined_build_index].
  - apply (confined_other_user a b); [assumption | apply confined_delete_user_index].
Qed.

Lemma users_are_isolated_witness :
  (load_index 8
     (build_index (Demo.services "" (inr 200) (Demo.replies "ok"))
        [Demo.policy] 7 empty_store).2).1
  = (load_index 8 (@empty_store spec_float)).1.
Proof.
  exact (proj1 (proj1 (users_are_isolated
                         (Demo.services "" (inr 200) (Demo.replies "ok"))
                         [Demo.policy] 7 8 empty_store ltac:(lia)))).
Defined.

(** X7. [index_exists] and [load_index] never change a file, whatever
    they return; but they are not read-only: when the user's directory
    can be created they create it. *)
Theorem lookups_create_the_directory {V : Type} (user_id : Z) (fs : FS V) :
  files (index_exists user_id fs).2 = files fs
  /\ files (load_index user_id fs).2 = files fs
  /\ (~ blocked fs (user_dir user_id) ->
      user_dir user_id ∈ dirs (index_exists user_id fs).2
      /\ user_dir user_id ∈ dirs (load_index user_id fs).2).
Proof.
  destruct (decide (blocked fs (user_dir user_id))) as [Hb | Hfree].
  - destruct (makedirs_error_blocked fs _ Hb) as [e He].
    unfold index_exists, load_index, bind.
    rewrite !(get_user_paths_error _ _ _ He). cbn. tauto.
  - rewrite index_exists_run by assumption.
    assert (files (load_index user_id fs).2 = files fs
            /\ dirs (load_index user_id fs).2 = dirs (with_user_dir user_id fs))
      as [Hf Hd].
    { rewrite load_index_run by assumption.
      destruct (bool_decide (present fs (index_path user_id))
                && bool_decide (present fs (chunks_path user_id))); [|now split].
      destruct (files fs !! index_path user_id) as [[rows|cs]|]; try now split.
      destruct (files fs !! chunks_path user_id) as [[rows'|cs]|]; now split. }
    split; [reflexivity|]. split; [exact Hf|]. intros _.
    rewrite Hd. cbn [snd]. unfold with_user_dir. cbn [dirs].
    rewrite prefixes_user_dir, elem_of_union, elem_of_list_to_set.
    split; right; right; left.
Qed.

(** ** Synthesizer: requests and records *)

Section RequestFacts.

Context {F : Type} `{FloatOps F} {V W : Type}.
Variable svc : Services F V W.

(** The generation call records exactly one request, to the provider the
    key selects, whatever the provider answers. *)
Lemma generation_call_trace (prompt : string) (s : Net W) :
  trace (generation_call svc prompt s).2 = trace s ++ [generation_event svc prompt].
Proof.
  unfold generation_call, generation_event, generate_with_groq, generate_with_ollama.
  unfold check_groq_available.
  destruct (Py.truthy (GROQ_API_KEY svc)); cbn [negb].
  - unfold bind, emit, call. cbn [world trace].
    destruct (requests_post_groq svc prompt (world s)) as [[e|response] w]; [reflexivity|].
    destruct (status_code response =? 200); [|reflexivity].
    unfold lift. now destruct (resp_field response).
  - unfold bind, emit, call. cbn [world trace].
    destruct (requests_post_ollama svc prompt (world s)) as [[e|response] w]; [reflexivity|].
    destruct (status_code response =? 200); [|reflexivity].
    unfold lift. now destruct (resp_field response).
Qed.

Lemma answer_from_trace question retrieved top (s : Net W) :
  trace (answer_from svc question (check_groq_available svc) retrieved top s).2
  = trace s ++ [generation_event svc (prompt_for question retrieved)].
Proof.
  pose proof (generation_call_trace (prompt_for question retrieved) s) as Ht.
  unfold prompt_for in *.
  destruct (generation_call svc (build_prompt (build_context retrieved) question) s)
    as [[e|a] s3] eqn:Hgen.
  - erewrite answer_from_raise by eassumption. exact Ht.
  - erewrite answer_from_return by eassumption. exact Ht.
Qed.

End RequestFacts.

Lemma generate_answer_events {F : Type} `{FloatOps F} {V W : Type}
    (svc : Services F V W) (question : string) (index : list V)
    (chunks : list Chunk) (s : Net W) :
  exists events,
    trace (generate_answer svc question index chunks s).2 = trace s ++ events
    /\ (events = [EvProbeOllama]
        \/ events = [EvProbeOllama; EvEmbed question; EvSearch default_top_k]
        \/ exists top rest,
             (retrieve svc question index chunks default_top_k default_threshold
                (after_probe svc s)).1 = inr (top :: rest)
             /\ events = [EvProbeOllama; EvEmbed question; EvSearch default_top_k;
                          generation_event svc (prompt_for question (top :: rest))]).
Proof.
  rewrite generate_answer_run.
  destruct (negb (check_groq_available svc) && _); [eexists; split; [reflexivity | now left]|].
  rewrite retrieve_run. cbn [fst].
  destruct (retrieve_loop _ chunks default_threshold []) as [e|[|top rest]].
  - eexists. split; [|right; left; reflexivity].
    unfold after_retrieval, after_probe. cbn [snd trace]. now rewrite <- !app_assoc.
  - eexists. split; [|right; left; reflexivity].
    unfold after_retrieval, after_probe. cbn [snd trace]. now rewrite <- !app_assoc.
  - eexists. split; [|right; right; exists top, rest; split; reflexivity].
    rewrite answer_from_trace. unfold after_retrieval, after_probe. cbn [trace].
    now rewrite <- !app_assoc.
Qed.


(** ** Batch answering: progress and coverage *)

Section BatchProgress.

Context {F : Type} `{FloatOps F} {V W : Type}.
Variable svc : Services F V W.

Lemma generate_answer_no_progress question index chunks (s : Net W) :
  exists events,
    trace (generate_answer svc question index chunks s).2 = trace s ++ events
    /\ filter (fun e => is_progress e = true) events = [].
Proof.
  destruct (generate_answer_events svc question index chunks s)
    as (events & Ht & Hshape).
  exists events. split; [exact Ht|].
  destruct Hshape as [-> | [-> | (top & rest & _ & ->)]]; try reflexivity.
  unfold generation_event. now destruct (check_groq_available svc).
Qed.

(** Along a run, the progress reports are those of the positions passed,
    in order. *)
Lemma batch_run_progress index chunks progress_callback total i (s s' : Net W)
    questions rows :
  batch_run svc index chunks progress_callback total i s questions rows s' ->
  exists events,
    trace s' = trace s ++ events
    /\ filter (fun e => is_progress e = true) events
       = if progress_callback
         then map (fun k => EvProgress (k + 1) total) (seq i (length questions))
         else [].
Proof.
  induction 1 as [i s | i s q questions r s1 rows s' Hq Hrun (events & Ht & Hp)].
  - exists []. rewrite app_nil_r. now destruct progress_callback.
  - destruct (generate_answer_no_progress (q_question q) index chunks s)
      as (ev1 & Ht1 & Hp1).
    rewrite Hq in Ht1. cbn [snd] in Ht1.
    destruct progress_callback.
    + exists (ev1 ++ [EvProgress (i + 1) total] ++ events). split.
      * rewrite Ht. unfold after_progress. cbn [trace]. rewrite Ht1.
        now rewrite <- !app_assoc.
      * rewrite !filter_app, Hp1, Hp. cbn [length seq map].
        replace (i + 1)%nat with (S i) by lia. reflexivity.
    + exists (ev1 ++ events). split.
      * rewrite Ht. unfold after_progress. rewrite Ht1. now rewrite <- app_assoc.
      * now rewrite filter_app, Hp1, Hp.
Qed.

End BatchProgress.

(** X9. With a progress callback, a batch that runs through reports
    progress exactly once per question, after that question's answer and
    in order: [1/n], [2/n], ..., [n/n]; without a callback it reports
    nothing.  (For the questions asked, the index reports a negative
    position only as padding below the threshold.) *)
Theorem batch_reports_progress {F : Type} `{FloatOps F} {V W : Type}
    (svc : Services F V W) (index : list V) (chunks : list Chunk)
    (progress_callback : bool) (questions : list Question) (s : Net W) :
  Forall (fun q => padding_below_threshold svc index (q_question q)) questions ->
  exists rows s' events,
    generate_batch_answers svc questions index chunks progress_callback s
      = (inr rows, s')
    /\ trace s' = trace s ++ events
    /\ filter (fun e => is_progress e = true) events
       = if progress_callback
         then map (fun k => EvProgress (k + 1) (length questions))
                (seq 0 (length questions))
         else [].
Proof.
  intros Hpad.
  destruct (batch_loop_rows svc index chunks progress_callback
              (length questions) questions Hpad 0%nat [] s)
    as (rows & s' & Hrun & Hall).
  destruct (batch_run_progress svc _ _ _ _ _ _ _ _ _ Hall) as (events & Ht & Hp).
  exists rows, s', events. now repeat split.
Qed.

Lemma batch_reports_progress_witness :
  exists rows s' events,
    generate_batch_answers
      (Demo.services "gsk_test" (inr 200) (Demo.replies "Yes."))
      [mkQuestion 1 "Is data encrypted?"; mkQuestion 2 "Is MFA enforced?"]
      [Binary64.lit 9 1] [Demo.policy] true Demo.start
    = (inr rows, s')
    /\ trace s' = trace Demo.start ++ events
    /\ filter (fun e => is_progress e = true) events
       = [EvProgress 1 2; EvProgress 2 2].
Proof.
  assert (Forall
            (fun q => padding_below_threshold
                        (Demo.services "gsk_test" (inr 200) (Demo.replies "Yes."))
                        [Binary64.lit 9 1] (q_question q))
            [mkQuestion 1 "Is data encrypted?"; mkQuestion 2 "Is MFA enforced?"])
    as Hpad.
  { unfold padding_below_threshold. vm_compute.
    repeat (constructor; [repeat (constructor; [intros; (reflexivity || discriminate)|]);
                          constructor|]).
    constructor. }
  exact (batch_reports_progress
           (Demo.services "gsk_test" (inr 200) (Demo.replies "Yes."))
           [Binary64.lit 9 1] [Demo.policy] true
           [mkQuestion 1 "Is data encrypted?"; mkQuestion 2 "Is MFA enforced?"]
           Demo.start Hpad).
Defined.

Section UnavailableBatch.

Context {F : Type} `{FloatOps F} {V W : Type}.
Variable svc : Services F V W.
Hypothesis no_key : check_groq_available svc = false.
Hypothesis no_local : forall w, probe_ok (requests_get_tags svc w).1 = false.

Lemma batch_loop_unavailable index chunks progress_callback total :
  forall questions i acc (s : Net W),
  exists s',
    batch_loop svc questions index chunks progress_callback total i acc s
    = (inr (acc ++ map (fun q => row_of q (unavailable_record (F := F))) questions), s').
Proof.
  induction questions as [|q questions IH]; intros i acc s.
  - exists s. cbn. now rewrite app_nil_r.
  - cbn [batch_loop]. unfold bind at 1.
    rewrite generate_answer_run, no_key, no_local. cbn [negb andb].
    unfold bind at 1.
    destruct ((if progress_callback then emit (EvProgress (i + 1) total) else ret tt)
                (after_probe svc s)) as [[e|[]] s1] eqn:Hcb.
    { destruct progress_callback; discriminate. }
    destruct (IH (i + 1)%nat
                (acc ++ [row_of q (unavailable_record (F := F))]) s1) as (s' & Hrun).
    exists s'. unfold row_of in *. cbn [answer citation confidence snippet unavailable_record] in *.
    rewrite Hrun, <- app_assoc. reflexivity.
Qed.

End UnavailableBatch.

(** X10. A batch run while no provider is available gives every question
    the Unavailable record, and [get_coverage_summary] counts all these
    rows as answered and none as not found. *)
Theorem unavailable_batch_counts_as_answered {F : Type} `{FloatOps F} {V W : Type}
    (svc : Services F V W) (index : list V) (chunks : list Chunk)
    (progress_callback : bool) (questions : list Question) (s : Net W) :
  check_groq_available svc = false ->
  (forall w, probe_ok (requests_get_tags svc w).1 = false) ->
  exists rows s',
    generate_batch_answers svc questions index chunks progress_callback s
      = (inr rows, s')
    /\ rows = map (fun q => mkRow (q_number q) (q_question q)
                              NO_LLM_RESPONSE "N/A" f_zero "") questions
    /\ answered (get_coverage_summary rows) = Z.of_nat (length questions)
    /\ not_found (get_coverage_summary rows) = 0.
Proof.
  intros Hkey Hlocal.
  destruct (batch_loop_unavailable svc Hkey Hlocal index chunks progress_callback
              (length questions) questions 0%nat [] s) as (s' & Hrun).
  eexists _, s'. split; [exact Hrun|]. split; [reflexivity|].
  rewrite app_nil_l.
  set (rows := map _ questions).
  assert (filter (fun a => is_answered a = true) rows = rows) as Hall.
  { unfold rows. clear. induction questions as [|q questions IH]; [reflexivity|].
    cbn [map]. rewrite filter_cons_True by reflexivity. now rewrite IH. }
  unfold get_coverage_summary. cbn [answered not_found]. rewrite Hall.
  unfold rows. rewrite length_map. lia.
Qed.

Lemma unavailable_batch_counts_as_answered_witness :
  exists rows s',
    generate_batch_answers
      (Demo.services "" (inr 503) (Demo.replies "ok"))
      [mkQuestion 1 "Is data encrypted?"; mkQuestion 2 "Is MFA enforced?"]
      [Binary64.lit 9 1] [Demo.policy] false Demo.start
    = (inr rows, s')
    /\ answered (get_coverage_summary rows) = 2
    /\ not_found (get_coverage_summary rows) = 0.
Proof.
  destruct (unavailable_batch_counts_as_answered
              (Demo.services "" (inr 503) (Demo.replies "ok"))
              [Binary64.lit 9 1] [Demo.policy] false
              [mkQuestion 1 "Is data encrypted?"; mkQuestion 2 "Is MFA enforced?"]
              Demo.start eq_refl (fun _ => eq_refl))
    as (rows & s' & Hrun & _ & Ha & Hn).
  exists rows, s'. repeat split; assumption.
Defined.

(** X11. On the Groq path (key set, non-empty retrieval) the reply to the
    one request decides the record: an exception of the request, a status
    other than 200 (reported as "Groq error: " and the response body) and
    a 200 response whose answer field cannot be read all give the error
    record; a 200 response with an answer field gives that text,
    stripped, as the answer. *)
Theorem groq_reply_decides_record {F : Type} `{FloatOps F} {V W : Type}
    (svc : Services F V W) (question : string) (index : list V)
    (chunks : list Chunk) (s : Net W)
    (top : Retrieved F) (rest : list (Retrieved F))
    (reply : pyexn + Response) (w' : W) :
  check_groq_available svc = true ->
  (retrieve svc question index chunks default_top_k default_threshold
     (after_probe svc s)).1 = inr (top :: rest) ->
  requests_post_groq svc (prompt_for question (top :: rest))
    (world (after_retrieval svc question s)) = (reply, w') ->
  exists r,
    generate_answer svc question index chunks s
    = (inr r,
       mkNet w' (trace (after_retrieval svc question s)
                 ++ [EvGroq (prompt_for question (top :: rest))]))
    /\ match reply with
       | inl e => r = error_record e
       | inr response =>
           if status_code response =? 200
           then match resp_field response with
                | inl e => r = error_record e
                | inr content =>
                    answer r = Py.strip content
                    /\ citation r
                       = Py.join ", " (dict_fromkeys (map r_source (top :: rest)))
                end
           else r = error_record (Exception ("Groq error: " +:+ resp_text response))
       end.
Proof.
  intros Hkey Hret Hreply. rewrite retrieve_run in Hret. cbn [fst] in Hret.
  rewrite generate_answer_run, Hret.
  assert (negb (check_groq_available svc)
          && negb (probe_ok (requests_get_tags svc (world s)).1) = false) as ->
    by (now rewrite Hkey).
  unfold prompt_for in *.
  assert (generation_call svc (build_prompt (build_context (top :: rest)) question)
            (after_retrieval svc question s)
          = (match reply with
             | inl e => inl e
             | inr response =>
                 if status_code response =? 200
                 then match resp_field response with
                      | inl e => inl e
                      | inr content => inr (Py.strip content)
                      end
                 else inl (Exception ("Groq error: " +:+ resp_text response))
             end,
             mkNet w' (trace (after_retrieval svc question s)
                       ++ [EvGroq (build_prompt (build_context (top :: rest)) question)])))
    as Hgen.
  { unfold generation_call. rewrite Hkey. unfold generate_with_groq.
    unfold check_groq_available in Hkey. rewrite Hkey. cbn [negb].
    unfold bind, emit, call. cbn [world trace]. rewrite Hreply.
    destruct reply as [e|response]; [reflexivity|].
    destruct (status_code response =? 200); [|reflexivity].
    unfold lift. now destruct (resp_field response). }
  destruct reply as [e|response].
  - rewrite (answer_from_raise svc _ _ _ _ _ _ Hgen). eauto.
  - destruct (status_code response =? 200).
    + destruct (resp_field response) as [e|content].
      * rewrite (answer_from_raise svc _ _ _ _ _ _ Hgen). eauto.
      * rewrite (answer_from_return svc _ _ _ _ _ _ Hgen). eexists. split; [reflexivity|].
        now split.
    + rewrite (answer_from_raise svc _ _ _ _ _ _ Hgen). eauto.
Qed.

Lemma groq_reply_decides_record_witness :
  exists r s',
    generate_answer
      (Demo.services "gsk_test" (inr 200)
         (fun _ => inr (mkResponse 429 "rate limit exceeded" (inl (Exception "KeyError")))))
      "Is data encrypted?" [Binary64.lit 9 1] [Demo.policy] Demo.start
    = (inr r, s')
    /\ answer r = "Error generating answer: Groq error: rate limit exceeded".
Proof.
  destruct (groq_reply_decides_record
              (Demo.services "gsk_test" (inr 200)
                 (fun _ => inr (mkResponse 429 "rate limit exceeded"
                                  (inl (Exception "KeyError")))))
              "Is data encrypted?" [Binary64.lit 9 1] [Demo.policy] Demo.start
              (mkRetrieved (text Demo.policy) "policy.pdf" (Binary64.lit 9 1)) []
              (inr (mkResponse 429 "rate limit exceeded" (inl (Exception "KeyError"))))
              2%nat ltac:(reflexivity) ltac:(vm_compute; reflexivity)
              ltac:(reflexivity)) as (r & Hrun & Hr).
  eexists r, _. split; [exact Hrun|]. cbn in Hr. now rewrite Hr.
Defined.

(** X12. The source list behind a citation, [list(dict.fromkeys(...))],
    names every retrieved source, each exactly once. *)
Theorem citation_sources_once (keys : list string) :
  NoDup (dict_fromkeys keys)
  /\ forall x, x ∈ dict_fromkeys keys <-> x ∈ keys.
Proof.
  unfold dict_fromkeys.
  assert (forall ks seen, NoDup seen ->
            NoDup (dict_fromkeys_from seen ks)
            /\ forall x, x ∈ dict_fromkeys_from seen ks <-> x ∈ seen \/ x ∈ ks) as Hgen.
  { induction ks as [|k ks IH]; intros seen Hnd; cbn [dict_fromkeys_from].
    - split; [assumption|]. intros x. rewrite elem_of_nil. tauto.
    - destruct (bool_decide_reflect (k ∈ seen)) as [Hin | Hout].
      + destruct (IH seen Hnd) as [Hnd' Hel]. split; [assumption|].
        intros x. rewrite Hel, elem_of_cons. split; [tauto|].
        intros [? | [-> | ?]]; tauto.
      + destruct (IH (seen ++ [k])) as [Hnd' Hel].
        { apply NoDup_app. repeat split; [assumption | | apply NoDup_singleton].
          intros x Hx Hk. apply list_elem_of_singleton in Hk. now subst. }
        split; [assumption|].
        intros x. rewrite Hel, elem_of_app, list_elem_of_singleton, elem_of_cons. tauto. }
  destruct (Hgen keys [] (NoDup_nil_2)) as [Hnd Hel].
  split; [assumption|]. intros x. rewrite Hel, elem_of_nil. tauto.
Qed.

Section SnippetFacts.

Lemma length_append (a b : string) :
  String.length (a +:+ b) = (String.length a + String.length b)%nat.
Proof.
  induction a as [|c a IH]; [reflexivity|].
  rewrite append_cons. cbn [String.length]. now rewrite IH.
Qed.

Lemma length_prefix (n : nat) (t : string) : (String.length (Py.prefix n t) <= n)%nat.
Proof.
  unfold Py.prefix. revert t. induction n as [|n IH]; intros [|c t]; cbn; try lia.
  specialize (IH t). lia.
Qed.

End SnippetFacts.

(** X13. Whatever [generate_answer] returns, the snippet of the record has
    at most 303 characters: 300 of the top-ranked chunk and the
    ellipsis. *)
Theorem snippet_is_bounded {F : Type} `{FloatOps F} {V W : Type}
    (svc : Services F V W) (question : string) (index : list V)
    (chunks : list Chunk) (s : Net W) :
  match (generate_answer svc question index chunks s).1 with
  | inr r => (String.length (snippet r) <= 303)%nat
  | inl _ => True
  end.
Proof.
  rewrite generate_answer_run.
  destruct (negb (check_groq_available svc) && _); [cbn; lia|].
  destruct (retrieve_loop _ chunks default_threshold []) as [e|[|top rest]];
    [exact I | cbn; lia |].
  destruct (generation_call svc (build_prompt (build_context (top :: rest)) question)
              (after_retrieval svc question s)) as [[e|a] s3] eqn:Hgen.
  - erewrite answer_from_raise by eassumption. cbn. lia.
  - erewrite answer_from_return by eassumption. cbn [fst snippet].
    destruct (Py.truthy (r_text top)); [|cbn; lia].
    rewrite length_append. pose proof (length_prefix 300 (r_text top)).
    change (String.length "...") with 3%nat. lia.
Qed.

Section PickFacts.

Context {F : Type} `{FloatOps F}.

Lemma getitem_nonneg {A} (l : list A) (idx : Z) :
  0 <= idx < Z.of_nat (length l) ->
  getitem l idx = match l !! Z.to_nat idx with
                  | Some x => inr x
                  | None => inl (IndexError "list index out of range")
                  end.
Proof.
  intros Hidx. unfold getitem.
  destruct (Z.ltb_spec idx 0); [lia|].
  assert ((0 <=? idx) && (idx <? Z.of_nat (length l)) = true) as ->; [|reflexivity].
  apply andb_true_intro. split; [apply Z.leb_le | apply Z.ltb_lt]; lia.
Qed.

(** On hits at non-negative positions the loop is a filter-and-map. *)
Lemma retrieve_loop_pick (chunks : list Chunk) (threshold : F) :
  forall hits acc,
    Forall (fun h : F * Z => 0 <= h.2) hits ->
    retrieve_loop hits chunks threshold acc
    = inr (acc ++ omap (pick chunks threshold) hits).
Proof.
  induction hits as [|[score idx] hits IH]; intros acc Hpos.
  - cbn. now rewrite app_nil_r.
  - apply Forall_cons in Hpos as [Hidx Hpos]. cbn [snd] in Hidx.
    change (omap (pick chunks threshold) ((score, idx) :: hits))
      with (match pick chunks threshold (score, idx) with
            | Some r => r :: omap (pick chunks threshold) hits
            | None => omap (pick chunks threshold) hits
            end).
    unfold pick at 1. cbn [fst snd retrieve_loop].
    destruct (f_ge score (f_single threshold)); cbn [andb]; [|now apply IH].
    destruct (Z.ltb_spec idx (Z.of_nat (length chunks))) as [Hlt | Hge].
    + rewrite getitem_nonneg by lia.
      destruct (lookup_lt_is_Some_2 chunks (Z.to_nat idx) ltac:(lia)) as [c Hc].
      rewrite Hc. rewrite IH by assumption. now rewrite <- app_assoc.
    + rewrite lookup_ge_None_2 by lia. now apply IH.
Qed.

End PickFacts.

(** X14. When the search reports no negative position, [retrieve] never
    raises and returns, in hit order, the chunk at the position of every
    hit whose position is inside the chunk list and whose score passes
    the test [score >= threshold] as NumPy makes it, against the threshold
    cast to the single precision of the score; a hit at a position past
    the end of the list is skipped silently. *)
Theorem retrieve_picks_chunks {F : Type} `{FloatOps F} {V W : Type}
    (svc : Services F V W) (question : string) (index : list V)
    (chunks : list Chunk) (top_k : Z) (threshold : F) (s : Net W) :
  Forall (fun h : F * Z => 0 <= h.2)
    (index_search svc index (get_embedding svc question) top_k) ->
  (retrieve svc question index chunks top_k threshold s).1
  = inr (omap (pick chunks threshold)
           (index_search svc index (get_embedding svc question) top_k)).
Proof.
  intros Hpos. rewrite retrieve_run. cbn [fst].
  now rewrite retrieve_loop_pick.
Qed.

(** The scores 0.9, 0.35 and 0.2 in single precision against the
    threshold 0.35 and two chunks: the first two hits pass the test, the
    second with the score 0.3499999940395355; the third fails it. *)
Lemma retrieve_picks_chunks_witness :
  (retrieve (Demo.services "" (inr 200) (Demo.replies "ok")) "q"
     Demo.single_scores [Demo.policy; Demo.blank] 3 (Binary64.lit 35 2)
     Demo.start).1
  = inr [mkRetrieved (text Demo.policy) "policy.pdf"
           (Binary64.single (Binary64.lit 9 1));
         mkRetrieved "" "scan.pdf" (Binary64.single (Binary64.lit 35 2))].
Proof.
  rewrite (retrieve_picks_chunks (Demo.services "" (inr 200) (Demo.replies "ok")) "q"
             Demo.single_scores [Demo.policy; Demo.blank] 3 (Binary64.lit 35 2)
             Demo.start).
  - vm_compute. reflexivity.
  - vm_compute. repeat constructor; discriminate.
Defined.

(** ** Chunker with any valid parameters *)

Section GeneralChunks.

Lemma ceil_div_le (W step : Z) : 0 < step -> 0 <= W -> ceil_div W step <= W.
Proof.
  intros Hs HW.
  destruct (Z.le_gt_cases (ceil_div W step) W) as [|Hgt]; [assumption|].
  apply ceil_div_gt in Hgt; nia.
Qed.

(** The run of [chunk_text] for a positive size and a positive step: the
    windows, one per step. *)
Lemma chunk_text_run (text source_name : string) (chunk_size overlap : Z) :
  0 < chunk_size -> overlap < chunk_size ->
  chunk_text (S (length (Py.split text))) text source_name chunk_size overlap
  = Some (map (chunk_at (Py.split text) source_name
                 (Z.to_nat chunk_size) (Z.to_nat (chunk_size - overlap)))
            (seq 0 (Z.to_nat (window_count (Z.of_nat (length (Py.split text)))
                                chunk_size overlap)))).
Proof.
  intros Hsize Hstep. unfold chunk_text.
  set (ws := Py.split text). set (size := Z.to_nat chunk_size).
  set (step := Z.to_nat (chunk_size - overlap)).
  set (n := Z.to_nat (window_count (Z.of_nat (length ws)) chunk_size overlap)).
  assert (window_count (Z.of_nat (length ws)) chunk_size overlap
          = ceil_div (Z.of_nat (length ws)) (Z.of_nat step)) as Hcount
    by (unfold window_count, step; now rewrite Z2Nat.id by lia).
  pose proof (ceil_div_nonneg (Z.of_nat (length ws)) (Z.of_nat step)
                ltac:(unfold step; lia) ltac:(lia)) as Hn0.
  pose proof (ceil_div_le (Z.of_nat (length ws)) (Z.of_nat step)
                ltac:(unfold step; lia) ltac:(lia)) as HnW.
  pose proof (chunk_loop_windows ws source_name size step
                ltac:(unfold size; lia) ltac:(unfold step; lia) (split_words text)
                n 0 [] (S (length ws))) as Hloop.
  replace (Z.of_nat size) with chunk_size in Hloop by (unfold size; lia).
  replace (chunk_size - Z.of_nat step) with overlap in Hloop by (unfold step; lia).
  apply Hloop; unfold n; rewrite Hcount; lia.
Qed.

(** Cutting a list into pieces of [step] elements and gluing them gives
    the list back, once the pieces reach its end. *)
Lemma pieces_concat {A} (step : nat) :
  forall n (l : list A),
    (length l <= n * step)%nat ->
    concat (map (fun k => take step (drop (k * step) l)) (seq 0 n)) = l.
Proof.
  induction n as [|n IH]; intros l Hlen.
  - destruct l; [reflexivity | simpl in Hlen; lia].
  - cbn [seq map concat]. rewrite drop_0.
    rewrite <- fmap_S_seq, <- list_fmap_compose.
    transitivity (take step l ++ drop step l); [|apply take_drop].
    f_equal.
    etransitivity; [|apply (IH (drop step l)); rewrite length_drop; lia].
    f_equal. apply list_fmap_ext. intros _ k _. cbn.
    rewrite drop_drop. reflexivity.
Qed.

End GeneralChunks.

(** X15. For any [chunk_size > 0] and [overlap < chunk_size], [chunk_text]
    returns [ceil(W / (chunk_size - overlap))] chunks for a text of [W]
    words; chunk [k] carries the source name and holds the words from
    position [k (chunk_size - overlap)] on, at most [chunk_size] of them
    and at least one, joined by single spaces; and the result is empty
    exactly when the text has no word. *)
Theorem chunk_text_windows (document source_name : string) (chunk_size overlap : Z) :
  0 < chunk_size -> overlap < chunk_size ->
  let ws := Py.split document in
  exists chunks,
    chunk_text (S (length ws)) document source_name chunk_size overlap = Some chunks
    /\ Z.of_nat (length chunks) = window_count (Z.of_nat (length ws)) chunk_size overlap
    /\ (forall k c, chunks !! k = Some c ->
          source c = source_name
          /\ chunk_words c
             = take (Z.to_nat chunk_size)
                 (drop (k * Z.to_nat (chunk_size - overlap)) ws)
          /\ chunk_words c <> []
          /\ text c = Py.join " " (chunk_words c))
    /\ (chunks = [] <-> ws = []).
Proof.
  intros Hsize Hstep ws. eexists. split; [now apply chunk_text_run|].
  fold ws. set (size := Z.to_nat chunk_size).
  set (step := Z.to_nat (chunk_size - overlap)).
  set (count := window_count (Z.of_nat (length ws)) chunk_size overlap).
  assert (count = ceil_div (Z.of_nat (length ws)) (Z.of_nat step)) as Hcount
    by (unfold count, window_count, step; now rewrite Z2Nat.id by lia).
  assert (0 <= count) as Hn0
    by (rewrite Hcount; apply ceil_div_nonneg; unfold step; lia).
  assert (forall k, (k < Z.to_nat count)%nat <-> (k * step < length ws)%nat) as Hstart.
  { intros k.
    pose proof (ceil_div_gt (Z.of_nat (length ws)) (Z.of_nat step) (Z.of_nat k)
                  ltac:(unfold step; lia) ltac:(lia)) as Hgt.
    rewrite <- Hcount in Hgt. split; intros Hk.
    - assert (Z.of_nat step * Z.of_nat k < Z.of_nat (length ws)) by (apply Hgt; lia). nia.
    - assert (Z.of_nat k < count) by (apply Hgt; nia). lia. }
  split; [rewrite length_map, length_seq; lia|]. split.
  - intros k c Hk. apply lookup_windows in Hk as [Hlt ->].
    assert (chunk_words (chunk_at ws source_name size step k) = window ws size step k)
      as Hwords.
    { unfold chunk_words, chunk_at. cbn [text].
      apply split_join. exact (window_words ws size step (split_words document) k). }
    rewrite Hwords. split; [reflexivity|]. split; [reflexivity|]. split; [|reflexivity].
    apply (window_nonempty ws size step); try (unfold size, step; lia).
    now apply Hstart.
  - split.
    + intros Hnil. apply (f_equal length) in Hnil.
      rewrite length_map, length_seq in Hnil. cbn in Hnil.
      destruct ws as [|w ws']; [reflexivity|].
      assert (0 < Z.to_nat count)%nat by (apply Hstart; cbn; lia). lia.
    + intros Hnil. assert (Z.to_nat count = 0%nat) as ->; [|reflexivity].
      destruct (Z.to_nat count) eqn:Hc; [reflexivity|].
      assert (0 * step < length ws)%nat by (apply Hstart; lia).
      rewrite Hnil in *. cbn in *. lia.
Qed.

Lemma chunk_text_windows_witness :
  exists chunks,
    chunk_text 6 "a b c d e" "doc" 3 1 = Some chunks
    /\ Z.of_nat (length chunks) = 3
    /\ (chunks = [] <-> Py.split "a b c d e" = []).
Proof.
  destruct (chunk_text_windows "a b c d e" "doc" 3 1 ltac:(lia) ltac:(lia))
    as (chunks & Hrun & Hlen & _ & Hnil).
  exists chunks. split; [exact Hrun|]. split; [exact Hlen | exact Hnil].
Defined.

(** X16. With [0 <= overlap < chunk_size] no word is lost and none is
    reordered: the first [chunk_size - overlap] words of each chunk, glued
    in chunk order, are the words of the text. *)
Theorem chunks_cover_the_text (document source_name : string) (chunk_size overlap : Z) :
  0 <= overlap -> overlap < chunk_size ->
  exists chunks,
    chunk_text (S (length (Py.split document))) document source_name chunk_size overlap
      = Some chunks
    /\ concat (map (fun c => take (Z.to_nat (chunk_size - overlap)) (chunk_words c))
                 chunks)
       = Py.split document.
Proof.
  intros Hov Hstep. eexists. split; [apply chunk_text_run; lia|].
  set (ws := Py.split document). set (size := Z.to_nat chunk_size).
  set (step := Z.to_nat (chunk_size - overlap)).
  set (count := window_count (Z.of_nat (length ws)) chunk_size overlap).
  rewrite <- list_fmap_compose.
  rewrite <- (pieces_concat step (Z.to_nat count) ws) at 2.
  - f_equal. apply list_fmap_ext. intros _ k _.
    change (take step (chunk_words (chunk_at ws source_name size step k))
            = take step (drop (k * step) ws)).
    assert (chunk_words (chunk_at ws source_name size step k) = window ws size step k)
      as ->.
    { unfold chunk_words, chunk_at. cbn [text].
      apply split_join. exact (window_words ws size step (split_words document) k). }
    unfold window. rewrite take_take. f_equal. unfold size, step. lia.
  - assert (count = ceil_div (Z.of_nat (length ws)) (Z.of_nat step)) as Hcount
      by (unfold count, window_count, step; now rewrite Z2Nat.id by lia).
    pose proof (ceil_div_nonneg (Z.of_nat (length ws)) (Z.of_nat step)
                  ltac:(unfold step; lia) ltac:(lia)) as Hn0.
    destruct (Nat.le_gt_cases (length ws) (Z.to_nat count * step)) as [|Hlt];
      [assumption|].
    pose proof (ceil_div_gt (Z.of_nat (length ws)) (Z.of_nat step) count
                  ltac:(unfold step; lia) ltac:(lia)) as Hgt.
    rewrite <- Hcount in Hgt.
    assert (Z.of_nat step * count < Z.of_nat (length ws)) as Hc by nia.
    apply Hgt in Hc. lia.
Qed.

Lemma chunks_cover_the_text_witness :
  exists chunks,
    chunk_text 6 "a b c d e" "doc" 3 1 = Some chunks
    /\ concat (map (fun c => take 2 (chunk_words c)) chunks) = ["a"; "b"; "c"; "d"; "e"].
Proof.
  exact (chunks_cover_the_text "a b c d e" "doc" 3 1 ltac:(lia) ltac:(lia)).
Defined.

(** ** The questionnaire parser *)

Section ParserFacts.

Context {File : Type} (rd : Readers File).

Lemma to_questions_inr (matches : list (string * string)) (questions : list Question) :
  to_questions rd matches = inr questions ->
  Forall2 (question_of rd) matches questions.
Proof.
  revert questions.
  induction matches as [|[num question_text] rest IH]; intros questions Hrun.
  - injection Hrun as <-. constructor.
  - cbn in Hrun.
    destruct (py_int rd num) as [e|number] eqn:Hint; [discriminate|].
    destruct (to_questions rd rest) as [e|qs] eqn:Hrest; [discriminate|].
    injection Hrun as <-.
    constructor; [|apply IH; reflexivity].
    split; [exact Hint|reflexivity].
Qed.

Lemma to_questions_inl (matches : list (string * string)) (e : pyexn) :
  to_questions rd matches = inl e ->
  exists m, m ∈ matches /\ py_int rd m.1 = inl e.
Proof.
  induction matches as [|[num question_text] rest IH]; intros Hrun.
  - discriminate.
  - cbn in Hrun.
    destruct (py_int rd num) as [e'|number] eqn:Hint.
    + injection Hrun as <-.
      exists (num, question_text). split; [left|exact Hint].
    + destruct (to_questions rd rest) as [e'|qs] eqn:Hrest; [|discriminate].
      injection Hrun as <-.
      destruct (IH eq_refl) as (m & Hin & Hm).
      exists m. split; [right; exact Hin|exact Hm].
Qed.

Lemma questions_loop_used (text : string) :
  questions_loop rd patterns text = to_questions rd (used_matches rd text).
Proof.
  unfold patterns, used_matches. cbn.
  destruct (re_findall rd NUMBERED_PATTERN text) as [|m1 ms1]; [|reflexivity].
  destruct (re_findall rd QUESTION_PATTERN text) as [|m2 ms2]; reflexivity.
Qed.

End ParserFacts.

Section SortFacts.

Context {A : Type} (key : A -> Z).

Lemma keyed_cons (n : Z) (x : A) (l : list A) :
  keyed key n (x :: l)
  = if decide (key x = n) then x :: keyed key n l else keyed key n l.
Proof. unfold keyed. rewrite filter_cons. reflexivity. Qed.

(** The sort is stable: the elements of one key keep their order. *)
Lemma keyed_insert (n : Z) (x : A) (l : list A) :
  keyed key n (Stable.insert_by key x l) = keyed key n (x :: l).
Proof.
  induction l as [|y l IH]; [reflexivity|].
  cbn [Stable.insert_by].
  destruct (key x <=? key y) eqn:Hle; [reflexivity|].
  apply Z.leb_gt in Hle.
  rewrite (keyed_cons n y), IH, !keyed_cons.
  destruct (decide (key y = n)), (decide (key x = n)); try reflexivity.
  lia.
Qed.

Lemma keyed_sort (n : Z) (l : list A) :
  keyed key n (Stable.sort_by key l) = keyed key n l.
Proof.
  induction l as [|x l IH]; [reflexivity|].
  cbn [Stable.sort_by foldr].
  fold (Stable.sort_by key l).
  rewrite keyed_insert, !keyed_cons, IH. reflexivity.
Qed.

Lemma elem_of_insert_by (y x : A) (l : list A) :
  y ∈ Stable.insert_by key x l <-> y = x \/ y ∈ l.
Proof.
  induction l as [|z l IH]; cbn [Stable.insert_by].
  - rewrite list_elem_of_singleton, elem_of_nil. tauto.
  - destruct (key x <=? key z).
    + rewrite elem_of_cons. reflexivity.
    + rewrite !elem_of_cons, IH. tauto.
Qed.

Lemma elem_of_sort_by (y : A) (l : list A) :
  y ∈ Stable.sort_by key l <-> y ∈ l.
Proof.
  induction l as [|x l IH]; [reflexivity|].
  cbn [Stable.sort_by foldr]. fold (Stable.sort_by key l).
  rewrite elem_of_insert_by, elem_of_cons, IH. reflexivity.
Qed.

Lemma insert_by_sorted (x : A) (l : list A) :
  StronglySorted (key_le key) l ->
  StronglySorted (key_le key) (Stable.insert_by key x l).
Proof.
  induction l as [|y l IH]; intros Hs; cbn [Stable.insert_by].
  - repeat constructor.
  - apply StronglySorted_inv in Hs as [Hl Hy].
    destruct (key x <=? key y) eqn:Hle.
    + apply Z.leb_le in Hle.
      constructor; [constructor; assumption|].
      constructor; [exact Hle|].
      eapply Forall_impl; [exact Hy|].
      intros z Hz. unfold key_le in *. lia.
    + apply Z.leb_gt in Hle.
      constructor; [apply IH; exact Hl|].
      apply Forall_forall. intros z Hz.
      apply elem_of_insert_by in Hz as [->|Hz].
      * unfold key_le. lia.
      * rewrite Forall_forall in Hy. apply Hy. exact Hz.
Qed.

Lemma sort_by_sorted (l : list A) :
  StronglySorted (key_le key) (Stable.sort_by key l).
Proof.
  induction l as [|x l IH]; [constructor|].
  cbn [Stable.sort_by foldr]. fold (Stable.sort_by key l).
  apply insert_by_sorted. exact IH.
Qed.

Lemma insert_by_Permutation (x : A) (l : list A) :
  Stable.insert_by key x l ≡ₚ x :: l.
Proof.
  induction l as [|y l IH]; [reflexivity|].
  cbn [Stable.insert_by].
  destruct (key x <=? key y); [reflexivity|].
  rewrite IH. apply perm_swap.
Qed.

Lemma sort_by_Permutation (l : list A) : Stable.sort_by key l ≡ₚ l.
Proof.
  induction l as [|x l IH]; [reflexivity|].
  cbn [Stable.sort_by foldr]. fold (Stable.sort_by key l).
  rewrite insert_by_Permutation, IH. reflexivity.
Qed.

(** A list that is in order already is left as it is. *)
Lemma sort_by_in_order (l : list A) :
  StronglySorted (key_le key) l -> Stable.sort_by key l = l.
Proof.
  induction l as [|x l IH]; intros Hs; [reflexivity|].
  apply StronglySorted_inv in Hs as [Hl Hx].
  cbn [Stable.sort_by foldr]. fold (Stable.sort_by key l).
  rewrite IH by exact Hl.
  destruct l as [|y l]; [reflexivity|].
  cbn [Stable.insert_by].
  apply Forall_cons in Hx as [Hxy _]. unfold key_le in Hxy.
  rewrite (proj2 (Z.leb_le _ _) Hxy). reflexivity.
Qed.

(** Sorting commutes with a change of the elements that keeps the keys. *)
Lemma sort_by_map (f : A -> A) (l : list A) :
  (forall x, key (f x) = key x) ->
  Stable.sort_by key (map f l) = map f (Stable.sort_by key l).
Proof.
  intros Hkey.
  assert (forall x l', Stable.insert_by key (f x) (map f l')
                       = map f (Stable.insert_by key x l')) as Hins.
  { intros x l'. induction l' as [|y l' IH]; [reflexivity|].
    cbn [map Stable.insert_by]. rewrite !Hkey.
    destruct (key x <=? key y); [reflexivity|].
    cbn [map]. rewrite IH. reflexivity. }
  induction l as [|x l IH]; [reflexivity|].
  cbn [map Stable.sort_by foldr].
  fold (Stable.sort_by key l). fold (Stable.sort_by key (map f l)).
  rewrite IH. apply Hins.
Qed.

End SortFacts.

Section UniqueFacts.

Lemma elem_of_unique_from (y : Question) (seen : gset Z) (l : list Question) :
  y ∈ unique_from seen l -> y ∈ l /\ q_number y ∉ seen.
Proof.
  revert seen. induction l as [|q l IH]; intros seen; cbn [unique_from].
  - intros Hy. apply elem_of_nil in Hy. contradiction.
  - destruct (decide (q_number q ∈ seen)) as [Hin|Hout].
    + intros Hy. apply IH in Hy as [Hy Hs]. split; [right; exact Hy|exact Hs].
    + intros Hy. apply elem_of_cons in Hy as [->|Hy].
      * split; [left|exact Hout].
      * apply IH in Hy as [Hy Hs]. split; [right; exact Hy|].
        intros Hin. apply Hs. apply elem_of_union. right. exact Hin.
Qed.

Lemma unique_from_increasing (seen : gset Z) (l : list Question) :
  StronglySorted (key_le q_number) l ->
  StronglySorted (key_lt q_number) (unique_from seen l).
Proof.
  revert seen. induction l as [|q l IH]; intros seen Hs; cbn [unique_from].
  - constructor.
  - apply StronglySorted_inv in Hs as [Hl Hq].
    destruct (decide (q_number q ∈ seen)); [apply IH; exact Hl|].
    constructor; [apply IH; exact Hl|].
    apply Forall_forall. intros y Hy.
    apply elem_of_unique_from in Hy as [Hy Hs].
    rewrite Forall_forall in Hq. specialize (Hq y Hy).
    assert (q_number y <> q_number q) as Hne.
    { intros Heq. apply Hs. apply elem_of_union. left.
      apply elem_of_singleton. exact Heq. }
    unfold key_le, key_lt in *. lia.
Qed.

(** Of each number the loop keeps the first question, whether the list is
    sorted or not. *)
Lemma keyed_unique_from (n : Z) (seen : gset Z) (l : list Question) :
  keyed q_number n (unique_from seen l)
  = if decide (n ∈ seen) then [] else option_list (head (keyed q_number n l)).
Proof.
  revert seen. induction l as [|q l IH]; intros seen; cbn [unique_from].
  - destruct (decide (n ∈ seen)); reflexivity.
  - destruct (decide (q_number q ∈ seen)) as [Hin|Hout].
    + rewrite IH, keyed_cons.
      destruct (decide (n ∈ seen)) as [Hn|Hn]; [reflexivity|].
      destruct (decide (q_number q = n)) as [Heq|Hne]; [|reflexivity].
      subst n. contradiction.
    + rewrite !keyed_cons, IH.
      destruct (decide (q_number q = n)) as [Heq|Hne].
      * subst n.
        rewrite decide_True by (apply elem_of_union; left; apply elem_of_singleton; reflexivity).
        rewrite decide_False by exact Hout. reflexivity.
      * destruct (decide (n ∈ seen)) as [Hn|Hn].
        -- rewrite decide_True by (apply elem_of_union; right; exact Hn). reflexivity.
        -- rewrite decide_False; [reflexivity|].
           intros Hin. apply elem_of_union in Hin as [Hin|Hin]; [|contradiction].
           apply elem_of_singleton in Hin. congruence.
Qed.

Lemma replace_drops (old new : ascii) (s : string) :
  old <> new -> PyStr.contains old (PyStr.replace old new s) = false.
Proof.
  intros Hne. induction s as [|c s IH]; [reflexivity|].
  cbn [PyStr.replace PyStr.contains]. rewrite IH, orb_false_r.
  destruct (Ascii.eqb c old) eqn:Hc.
  - apply Ascii.eqb_neq. congruence.
  - exact Hc.
Qed.

End UniqueFacts.

(** X17. [parse_questionnaire] works on the matches of one pattern only,
    the numbered one when it matches anything.  It raises exactly what
    [int] raises on a matched number; otherwise the numbers of the
    questions it returns are strictly increasing, and of each matched
    number it returns exactly one question: the first match of that number
    in the order of the document, its text stripped and free of line
    breaks. *)
Theorem parse_questionnaire_keeps_first {File : Type} (rd : Readers File)
    (uploaded_file : File) (pages : list (option string)) :
  pdf_pages rd uploaded_file = inr pages ->
  let matches := used_matches rd (pages_text pages) in
  match parse_questionnaire rd uploaded_file with
  | inl e => exists m, m ∈ matches /\ py_int rd m.1 = inl e
  | inr result =>
      exists questions,
        Forall2 (question_of rd) matches questions
        /\ StronglySorted Z.lt (map q_number result)
        /\ (forall n, keyed q_number n result
                      = option_list (head (keyed q_number n questions)))
        /\ Forall (fun q => PyStr.contains newline (q_question q) = false) result
  end.
Proof.
  intros Hpages matches. unfold parse_questionnaire. rewrite Hpages.
  rewrite questions_loop_used. fold matches.
  destruct (to_questions rd matches) as [e|questions] eqn:Hrun.
  - apply to_questions_inl. exact Hrun.
  - exists questions.
    pose proof (to_questions_inr rd _ _ Hrun) as Hqs.
    split; [exact Hqs|]. split; [|split].
    + pose proof (unique_from_increasing ∅ _ (sort_by_sorted q_number questions)) as Hs.
      fold (sorted_by_number questions) in Hs.
      induction Hs as [|q l Hl IH Hq]; [constructor|].
      cbn [map]. constructor; [exact IH|].
      apply Forall_map. exact Hq.
    + intros n. rewrite keyed_unique_from. unfold sorted_by_number. rewrite keyed_sort.
      rewrite decide_False by apply not_elem_of_empty. reflexivity.
    + apply Forall_forall. intros q Hq.
      apply elem_of_unique_from in Hq as [Hq _].
      apply (proj1 (elem_of_sort_by _ _ _)) in Hq.
      apply list_elem_of_lookup in Hq as [i Hi].
      destruct (Forall2_lookup_r _ _ _ _ _ Hqs Hi) as (m & _ & _ & Htext).
      rewrite Htext. apply replace_drops. discriminate.
Qed.

Lemma parse_questionnaire_keeps_first_witness :
  parse_questionnaire DemoReaders.readers DemoReaders.questionnaire
  = inr [mkQuestion 1 "Do you hold a SOC 2 report?";
         mkQuestion 2 "Is data encrypted at rest?";
         mkQuestion 3 "Who approves access?"]
  /\ match parse_questionnaire DemoReaders.readers DemoReaders.questionnaire with
     | inl _ => False
     | inr result => StronglySorted Z.lt (map q_number result)
     end.
Proof.
  split; [vm_compute; reflexivity|].
  pose proof (parse_questionnaire_keeps_first DemoReaders.readers
                DemoReaders.questionnaire _ eq_refl) as Hparse.
  cbv zeta in Hparse.
  destruct (parse_questionnaire DemoReaders.readers DemoReaders.questionnaire)
    as [e|result] eqn:Hrun.
  - vm_compute in Hrun. discriminate.
  - destruct Hparse as (questions & _ & Hsorted & _). exact Hsorted.
Defined.

(** ** Text extraction *)

Section SuffixFacts.

Lemma endswith_refl (s : string) : PyStr.endswith s s = true.
Proof. destruct s; cbn; rewrite ?Ascii.eqb_refl, ?String.eqb_refl; reflexivity. Qed.

(** Two suffixes of one string: one is a suffix of the other. *)
Lemma endswith_comparable (s a b : string) :
  PyStr.endswith s a = true -> PyStr.endswith s b = true ->
  PyStr.endswith a b = true \/ PyStr.endswith b a = true.
Proof.
  induction s as [|c s IH]; intros Ha Hb.
  - cbn [PyStr.endswith] in Ha, Hb. rewrite orb_false_r in Ha, Hb.
    apply String.eqb_eq in Ha, Hb. subst a b. left. reflexivity.
  - cbn [PyStr.endswith] in Ha, Hb.
    apply orb_true_iff in Ha as [Ha|Ha]; apply orb_true_iff in Hb as [Hb|Hb].
    + apply String.eqb_eq in Ha, Hb. subst a b. left. apply endswith_refl.
    + apply String.eqb_eq in Ha. subst a. left.
      cbn [PyStr.endswith]. rewrite Hb. apply orb_true_r.
    + apply String.eqb_eq in Hb. subst b. right.
      cbn [PyStr.endswith]. rewrite Ha. apply orb_true_r.
    + apply IH; assumption.
Qed.

Lemma endswith_exclusive (s a b : string) :
  PyStr.endswith a b = false -> PyStr.endswith b a = false ->
  PyStr.endswith s a = true -> PyStr.endswith s b = false.
Proof.
  intros Hab Hba Ha.
  destruct (PyStr.endswith s b) eqn:Hb; [|reflexivity].
  destruct (endswith_comparable s a b Ha Hb); congruence.
Qed.

End SuffixFacts.

(** X18. [extract_text] chooses the reader by the end of the file name
    alone.  For a name in [.docx] every failure, of whatever kind, comes
    out as a [ValueError] "Error reading DOCX file: ..." and success gives
    every paragraph followed by a line break; for [.pdf] and [.txt] the
    reader's own result or exception passes through; any other name
    raises [ValueError] "Unsupported file type: <name>" whatever the file
    holds. *)
Theorem extract_text_by_extension {File : Type} (rd : Readers File)
    (uploaded_file : File) :
  let filename := file_name rd uploaded_file in
  (PyStr.endswith filename ".docx" = true ->
     extract_text rd uploaded_file
     = match docx_paragraphs rd uploaded_file with
       | inl e => inl (ValueError ("Error reading DOCX file: " +:+ exn_str e))
       | inr paragraphs => inr (paragraphs_text paragraphs)
       end)
  /\ (PyStr.endswith filename ".txt" = true ->
        extract_text rd uploaded_file = file_read_utf8 rd uploaded_file)
  /\ (PyStr.endswith filename ".pdf" = true ->
        extract_text rd uploaded_file
        = match pdf_pages rd uploaded_file with
          | inl e => inl e
          | inr pages => inr (pages_text pages)
          end)
  /\ (PyStr.endswith filename ".pdf" = false ->
      PyStr.endswith filename ".txt" = false ->
      PyStr.endswith filename ".docx" = false ->
        extract_text rd uploaded_file
        = inl (ValueError ("Unsupported file type: " +:+ filename))).
Proof.
  intros filename. unfold extract_text, detect_file_type. fold filename.
  repeat split.
  - intros Hdocx.
    rewrite (endswith_exclusive filename ".docx" ".pdf" eq_refl eq_refl Hdocx).
    rewrite (endswith_exclusive filename ".docx" ".txt" eq_refl eq_refl Hdocx).
    rewrite Hdocx. reflexivity.
  - intros Htxt.
    rewrite (endswith_exclusive filename ".txt" ".pdf" eq_refl eq_refl Htxt).
    rewrite Htxt. reflexivity.
  - intros Hpdf. rewrite Hpdf. reflexivity.
  - intros Hpdf Htxt Hdocx. rewrite Hpdf, Htxt, Hdocx. reflexivity.
Qed.

(** ** Accounts and saved answers *)

Section RowidFacts.

Lemma foldr_max_ge_seq (seq : Z) (ids : list Z) : seq <= foldr Z.max seq ids.
Proof. induction ids as [|i ids IH]; cbn [foldr]; lia. Qed.

Lemma foldr_max_ge (seq : Z) (ids : list Z) :
  Forall (fun i => i <= foldr Z.max seq ids) ids.
Proof.
  induction ids as [|i ids IH]; cbn [foldr]; constructor; [lia|].
  eapply Forall_impl; [exact IH|]. intros j Hj. cbn beta in *. lia.
Qed.

Lemma foldr_max_top (n : Z) (ids : list Z) :
  Forall (fun i => i <= n) ids -> foldr Z.max n ids = n.
Proof.
  induction 1 as [|i ids Hi _ IH]; cbn [foldr]; [reflexivity|].
  rewrite IH. lia.
Qed.

Lemma next_rowid_fresh (seq : Z) (ids : list Z) :
  seq < next_rowid seq ids /\ Forall (fun i => i < next_rowid seq ids) ids.
Proof.
  unfold next_rowid. split.
  - pose proof (foldr_max_ge_seq seq ids). lia.
  - eapply Forall_impl; [apply (foldr_max_ge seq)|]. intros i Hi. cbn beta in *. lia.
Qed.

(** After an insertion the next rowid is the next integer. *)
Lemma next_rowid_snoc (seq : Z) (ids : list Z) :
  next_rowid (next_rowid seq ids) (ids ++ [next_rowid seq ids])
  = next_rowid seq ids + 1.
Proof.
  destruct (next_rowid_fresh seq ids) as [_ Hids].
  set (n := next_rowid seq ids) in *.
  unfold next_rowid at 1. rewrite foldr_max_top; [lia|].
  apply Forall_app. split.
  - eapply Forall_impl; [exact Hids|]. intros i Hi. cbn beta in *. lia.
  - constructor; [lia|constructor].
Qed.

Lemma bind_int_ok {St : Type} (z : Z) (s : St) :
  int64 z -> bind_int z s = (inr z, s).
Proof.
  intros [Hlo Hhi]. unfold bind_int, fits_int64.
  rewrite (proj2 (Z.leb_le _ _) Hlo), (proj2 (Z.ltb_lt _ _) Hhi).
  reflexivity.
Qed.

(** Selecting by key among the rows that another key value left. *)
Lemma filter_other {A : Type} (key : A -> Z) (q other : Z) (l : list A) :
  filter (fun x => key x = other) (filter (fun x => key x <> q) l)
  = if decide (q = other) then [] else filter (fun x => key x = other) l.
Proof.
  induction l as [|x l IH].
  - destruct (decide (q = other)); reflexivity.
  - rewrite (filter_cons (fun x => key x <> q)).
    destruct (decide (key x <> q)) as [Hne|Heq].
    + rewrite !filter_cons, IH.
      destruct (decide (q = other)) as [<-|Hother]; [|reflexivity].
      rewrite decide_False by exact Hne. reflexivity.
    + apply dec_stable in Heq. rewrite IH, filter_cons.
      destruct (decide (q = other)) as [<-|Hother]; [reflexivity|].
      rewrite decide_False by congruence. reflexivity.
Qed.

(** Selecting commutes with a change of the rows that keeps the key. *)
Lemma filter_map_key {A : Type} (key : A -> Z) (f : A -> A) (q : Z) (l : list A) :
  (forall x, key (f x) = key x) ->
  filter (fun x => key x = q) (map f l) = map f (filter (fun x => key x = q) l).
Proof.
  intros Hkey. induction l as [|x l IH]; [reflexivity|].
  cbn [map]. rewrite !filter_cons, IH, Hkey.
  destruct (decide (key x = q)); reflexivity.
Qed.

Lemma sorted_map_key {A : Type} (key : A -> Z) (l : list A) :
  StronglySorted (key_le key) l <-> StronglySorted Z.le (map key l).
Proof.
  induction l as [|x l IH]; cbn [map].
  - split; constructor.
  - split; intros Hs; apply StronglySorted_inv in Hs as [Hl Hx];
      (constructor; [apply IH; exact Hl|]).
    + apply Forall_map. exact Hx.
    + exact (proj1 (Forall_map _ _ _) Hx).
Qed.

End RowidFacts.

Section AnswerFacts.

Context {F : Type} (sql_real : F -> option F).

Lemma get_answers_run (questionnaire_id : Z) (db : Db F) :
  int64 questionnaire_id ->
  get_answers questionnaire_id db
  = (inr (Stable.sort_by a_question_number (answers_of questionnaire_id db)), db).
Proof.
  intros Hq. unfold get_answers, bind. rewrite (bind_int_ok _ _ Hq). reflexivity.
Qed.

(** [get_answers] sees the rows of its questionnaire only. *)
Lemma get_answers_same (questionnaire_id : Z) (db db' : Db F) :
  answers_of questionnaire_id db' = answers_of questionnaire_id db ->
  (get_answers questionnaire_id db').1 = (get_answers questionnaire_id db).1.
Proof.
  intros Hrows. unfold get_answers, bind, bind_int.
  destruct (fits_int64 questionnaire_id); [|reflexivity].
  unfold ret. cbn [fst]. fold (answers_of questionnaire_id db').
  fold (answers_of questionnaire_id db). rewrite Hrows. reflexivity.
Qed.

Lemma answers_of_stored (questionnaire_id other first : Z)
    (answers : list (AnswerRow F)) :
  filter (fun r : SavedAnswer F => a_questionnaire_id r = other)
    (stored_answers sql_real questionnaire_id first answers)
  = if decide (questionnaire_id = other)
    then stored_answers sql_real questionnaire_id first answers
    else [].
Proof.
  revert first. induction answers as [|a rest IH]; intros first.
  - destruct (decide (questionnaire_id = other)); reflexivity.
  - cbn [stored_answers]. rewrite filter_cons, IH. cbn [stored_answer a_questionnaire_id].
    destruct (decide (questionnaire_id = other)); reflexivity.
Qed.

Lemma stored_numbers (questionnaire_id first : Z) (answers : list (AnswerRow F)) :
  map a_question_number (stored_answers sql_real questionnaire_id first answers)
  = map row_number answers.
Proof.
  revert first. induction answers as [|a rest IH]; intros first; [reflexivity|].
  cbn [stored_answers map]. rewrite IH. reflexivity.
Qed.

(** The insertions of [save_answers]: the rows get consecutive fresh
    ids. *)
Lemma insert_answers_run (questionnaire_id : Z) (answers : list (AnswerRow F))
    (db : Db F) :
  int64 questionnaire_id ->
  Forall (fun a => int64 (row_number a)) answers ->
  exists seq,
    insert_answers sql_real questionnaire_id answers db
    = (inr tt,
       mkDb (t_users db) (seq_users db)
         (t_questionnaires db) (seq_questionnaires db)
         (t_answers db
          ++ stored_answers sql_real questionnaire_id
               (next_rowid (seq_answers db) (map a_id (t_answers db))) answers)
         seq).
Proof.
  intros Hq Hnumbers. revert db.
  induction Hnumbers as [|a rest Ha _ IH]; intros db.
  - exists (seq_answers db). cbn [insert_answers stored_answers].
    rewrite app_nil_r. destruct db; reflexivity.
  - cbn [insert_answers stored_answers].
    unfold bind at 1. unfold insert_answer, bind.
    rewrite (bind_int_ok _ _ Hq), (bind_int_ok _ _ Ha).
    set (first := next_rowid (seq_answers db) (map a_id (t_answers db))).
    match goal with
    | |- context [insert_answers _ _ _ ?d] => destruct (IH d) as [seq Hrest]
    end.
    exists seq. rewrite Hrest.
    cbn [t_users seq_users t_questionnaires seq_questionnaires t_answers seq_answers].
    rewrite map_app. cbn [map a_id].
    subst first. rewrite next_rowid_snoc, <- app_assoc. reflexivity.
Qed.

Lemma save_answers_run (questionnaire_id : Z) (answers : list (AnswerRow F))
    (db : Db F) :
  int64 questionnaire_id ->
  Forall (fun a => int64 (row_number a)) answers ->
  exists seq first,
    save_answers sql_real questionnaire_id answers db
    = (inr tt,
       mkDb (t_users db) (seq_users db)
         (t_questionnaires db) (seq_questionnaires db)
         (filter (fun r : SavedAnswer F => a_questionnaire_id r <> questionnaire_id)
            (t_answers db)
          ++ stored_answers sql_real questionnaire_id first answers)
         seq)
    /\ seq_answers db < first.
Proof.
  intros Hq Hnumbers.
  unfold save_answers, transaction, bind at 1.
  unfold delete_answers, bind. rewrite (bind_int_ok _ _ Hq).
  match goal with
  | |- context [insert_answers _ _ _ ?d] =>
      destruct (insert_answers_run questionnaire_id answers d Hq Hnumbers)
        as [seq Hrun]
  end.
  rewrite Hrun.
  cbn [t_users seq_users t_questionnaires seq_questionnaires t_answers seq_answers].
  eexists seq, _. split; [reflexivity|].
  apply next_rowid_fresh.
Qed.

(** What [get_answers] returns right after [save_answers]: the rows just
    stored, sorted. *)
Lemma save_then_get (questionnaire_id : Z) (answers : list (AnswerRow F))
    (db : Db F) :
  int64 questionnaire_id ->
  Forall (fun a => int64 (row_number a)) answers ->
  exists db' first,
    save_answers sql_real questionnaire_id answers db = (inr tt, db')
    /\ seq_answers db < first
    /\ t_users db' = t_users db
    /\ t_questionnaires db' = t_questionnaires db
    /\ (forall other,
          answers_of other db'
          = if decide (questionnaire_id = other)
            then stored_answers sql_real questionnaire_id first answers
            else answers_of other db)
    /\ get_answers questionnaire_id db'
       = (inr (Stable.sort_by a_question_number
                 (stored_answers sql_real questionnaire_id first answers)), db').
Proof.
  intros Hq Hnumbers.
  destruct (save_answers_run questionnaire_id answers db Hq Hnumbers)
    as (seq & first & Hrun & Hfresh).
  eexists _, first. split; [exact Hrun|].
  split; [exact Hfresh|]. split; [reflexivity|]. split; [reflexivity|].
  assert (forall other,
            answers_of other
              (mkDb (t_users db) (seq_users db) (t_questionnaires db)
                 (seq_questionnaires db)
                 (filter (fun r : SavedAnswer F => a_questionnaire_id r <> questionnaire_id)
                    (t_answers db)
                  ++ stored_answers sql_real questionnaire_id first answers) seq)
            = if decide (questionnaire_id = other)
              then stored_answers sql_real questionnaire_id first answers
              else answers_of other db) as Hof.
  { intros other. unfold answers_of. cbn [t_answers].
    rewrite filter_app, answers_of_stored.
    rewrite (filter_other a_questionnaire_id).
    destruct (decide (questionnaire_id = other)); [reflexivity|].
    apply app_nil_r. }
  split; [exact Hof|].
  rewrite (get_answers_run _ _ Hq), Hof.
  rewrite decide_True by reflexivity. reflexivity.
Qed.

End AnswerFacts.

(** X19. [save_answers] followed by [get_answers]: the rows that come back
    are exactly the answers just saved, one row each, whatever the table
    held for this questionnaire before; each carries the fields of its
    answer, its [edited_answer] set to the generated answer, and the ids
    are consecutive and above the table's counter.  They come back sorted
    by question number, and in the very order they were saved when that
    order was ascending already.  The answers of other questionnaires, the
    accounts and the questionnaires are as before. *)
Theorem saved_answers_come_back {F : Type} (sql_real : F -> option F)
    (questionnaire_id : Z) (answers : list (AnswerRow F)) (db : Db F) :
  int64 questionnaire_id ->
  Forall (fun a => int64 (row_number a)) answers ->
  exists db' first rows,
    save_answers sql_real questionnaire_id answers db = (inr tt, db')
    /\ get_answers questionnaire_id db' = (inr rows, db')
    /\ Permutation rows (stored_answers sql_real questionnaire_id first answers)
    /\ StronglySorted Z.le (map a_question_number rows)
    /\ (StronglySorted Z.le (map row_number answers) ->
        rows = stored_answers sql_real questionnaire_id first answers)
    /\ seq_answers db < first
    /\ (forall other, other <> questionnaire_id ->
          (get_answers other db').1 = (get_answers other db).1)
    /\ t_users db' = t_users db
    /\ t_questionnaires db' = t_questionnaires db.
Proof.
  intros Hq Hnumbers.
  destruct (save_then_get sql_real questionnaire_id answers db Hq Hnumbers)
    as (db' & first & Hsave & Hfresh & Husers & Hquestionnaires & Hof & Hget).
  exists db', first. eexists. split; [exact Hsave|]. split; [exact Hget|].
  split; [apply sort_by_Permutation|].
  split; [apply (proj1 (sorted_map_key a_question_number _)), sort_by_sorted|].
  split.
  { intros Hsorted. apply sort_by_in_order.
    apply (proj2 (sorted_map_key a_question_number _)).
    rewrite stored_numbers. exact Hsorted. }
  split; [exact Hfresh|].
  split; [|split; assumption].
  intros other Hother. apply get_answers_same.
  rewrite Hof. rewrite decide_False by congruence. reflexivity.
Qed.

Lemma saved_answers_come_back_witness :
  exists db' first rows,
    save_answers DemoDb.sql_real 7 DemoDb.answers empty_db = (inr tt, db')
    /\ get_answers 7 db' = (inr rows, db')
    /\ Permutation rows (stored_answers DemoDb.sql_real 7 first DemoDb.answers)
    /\ StronglySorted Z.le (map a_question_number rows)
    /\ (StronglySorted Z.le (map row_number DemoDb.answers) ->
        rows = stored_answers DemoDb.sql_real 7 first DemoDb.answers)
    /\ seq_answers (@empty_db spec_float) < first
    /\ (forall other, other <> 7 ->
          (get_answers other db').1 = (get_answers other (@empty_db spec_float)).1)
    /\ t_users db' = t_users (@empty_db spec_float)
    /\ t_questionnaires db' = t_questionnaires (@empty_db spec_float).
Proof.
  apply saved_answers_come_back.
  - unfold int64. lia.
  - repeat constructor; unfold int64; cbn; lia.
Defined.

Section ExportFacts.

Context {F : Type} (sql_real : F -> option F) (writerow : list (Cell F) -> string).

Lemma shown_answer_stored (questionnaire_id id : Z) (a : AnswerRow F) :
  csv_cells (stored_answer sql_real questionnaire_id id a) = answer_cells sql_real a.
Proof.
  unfold csv_cells, answer_cells, shown_answer, stored_answer.
  cbn [a_question_number a_question_text a_edited_answer a_generated_answer
       a_citation a_confidence_score a_evidence_snippet].
  destruct (Py.truthy (row_answer a)); reflexivity.
Qed.

Lemma export_stored (questionnaire_id first : Z) (answers : list (AnswerRow F))
    (output : string) :
  fold_left (fun output row => output +:+ writerow (csv_cells row))
    (stored_answers sql_real questionnaire_id first answers) output
  = fold_left (fun output a => output +:+ writerow (answer_cells sql_real a))
      answers output.
Proof.
  revert first output. induction answers as [|a rest IH]; intros first output.
  - reflexivity.
  - cbn [stored_answers fold_left]. rewrite shown_answer_stored. apply IH.
Qed.

End ExportFacts.

(** X20. From the answers of a batch to the CSV file: when answers in
    ascending question order are saved and read back, [export_to_csv]
    writes the header and then, answer by answer in that order, the number,
    the question, the generated answer, the citation, the confidence as
    the column gives it back, and the snippet. *)
Theorem saved_answers_export {F : Type} (sql_real : F -> option F)
    (writerow : list (Cell F) -> string)
    (questionnaire_id : Z) (answers : list (AnswerRow F)) (db : Db F) :
  int64 questionnaire_id ->
  Forall (fun a => int64 (row_number a)) answers ->
  StronglySorted Z.le (map row_number answers) ->
  exists db' rows,
    save_answers sql_real questionnaire_id answers db = (inr tt, db')
    /\ get_answers questionnaire_id db' = (inr rows, db')
    /\ export_to_csv writerow rows
       = fold_left (fun output a => output +:+ writerow (answer_cells sql_real a))
           answers (writerow CSV_HEADER).
Proof.
  intros Hq Hnumbers Hsorted.
  destruct (save_then_get sql_real questionnaire_id answers db Hq Hnumbers)
    as (db' & first & Hsave & _ & _ & _ & _ & Hget).
  exists db'. eexists. split; [exact Hsave|]. split; [exact Hget|].
  rewrite sort_by_in_order
    by (apply (proj2 (sorted_map_key a_question_number _));
        rewrite stored_numbers; exact Hsorted).
  unfold export_to_csv. apply export_stored.
Qed.

Lemma saved_answers_export_witness :
  exists db' rows,
    save_answers DemoDb.sql_real 7 DemoDb.answers empty_db = (inr tt, db')
    /\ get_answers 7 db' = (inr rows, db')
    /\ export_to_csv DemoDb.writerow rows
       = fold_left
           (fun output a =>
              output +:+ DemoDb.writerow (answer_cells DemoDb.sql_real a))
           DemoDb.answers (DemoDb.writerow CSV_HEADER).
Proof.
  apply saved_answers_export.
  - unfold int64. lia.
  - repeat constructor; unfold int64; cbn; lia.
  - repeat constructor; cbn; lia.
Defined.

Section EditFacts.

Context {F : Type} (writerow : list (Cell F) -> string).

Lemma csv_cells_edited (answer_id : Z) (edited_text : string) (row : SavedAnswer F) :
  csv_cells (edited answer_id edited_text row)
  = cells_after_edit answer_id edited_text row.
Proof.
  unfold edited, cells_after_edit.
  destruct (decide (a_id row = answer_id)); reflexivity.
Qed.

Lemma export_edited (answer_id : Z) (edited_text : string)
    (rows : list (SavedAnswer F)) (output : string) :
  fold_left (fun output row => output +:+ writerow (csv_cells row))
    (map (edited answer_id edited_text) rows) output
  = fold_left
      (fun output row =>
         output +:+ writerow (cells_after_edit answer_id edited_text row))
      rows output.
Proof.
  revert output. induction rows as [|row rows IH]; intros output; [reflexivity|].
  cbn [map fold_left]. rewrite csv_cells_edited. apply IH.
Qed.

End EditFacts.

(** X21. [update_edited_answer] changes the [edited_answer] of the row
    with that id and nothing else: every [get_answers] returns afterwards
    the rows it returned before, in the same order, with that one field
    replaced.  [export_to_csv] on the rows read back then writes what it
    wrote before the edit, except for the Answer cell of that row, which
    holds the edited text when it is non-empty and the generated answer
    when it is empty. *)
Theorem edit_changes_one_answer {F : Type} (writerow : list (Cell F) -> string)
    (answer_id : Z) (edited_text : string) (db : Db F) :
  int64 answer_id ->
  exists db',
    update_edited_answer answer_id edited_text db = (inr tt, db')
    /\ (forall questionnaire_id, int64 questionnaire_id ->
        exists rows rows',
          get_answers questionnaire_id db = (inr rows, db)
          /\ get_answers questionnaire_id db' = (inr rows', db')
          /\ rows' = map (edited answer_id edited_text) rows
          /\ export_to_csv writerow rows'
             = fold_left
                 (fun output row =>
                    output
                    +:+ writerow (cells_after_edit answer_id edited_text row))
                 rows (writerow CSV_HEADER))
    /\ (forall r : SavedAnswer F,
          (a_id r <> answer_id -> edited answer_id edited_text r = r)
          /\ (a_id r = answer_id ->
              edited answer_id edited_text r = set_edited_answer edited_text r))
    /\ t_users db' = t_users db
    /\ t_questionnaires db' = t_questionnaires db.
Proof.
  intros Hid.
  unfold update_edited_answer, bind. rewrite (bind_int_ok _ _ Hid).
  eexists. split; [reflexivity|].
  split; [|split; [|split; reflexivity]].
  - intros questionnaire_id Hq. eexists _, _.
    split; [apply get_answers_run; exact Hq|].
    split; [apply get_answers_run; exact Hq|].
    assert (forall r : SavedAnswer F,
              a_questionnaire_id (edited answer_id edited_text r)
              = a_questionnaire_id r) as Hsame_q.
    { intros r. unfold edited. destruct (decide (a_id r = answer_id)); reflexivity. }
    assert (forall r : SavedAnswer F,
              a_question_number (edited answer_id edited_text r)
              = a_question_number r) as Hsame_n.
    { intros r. unfold edited. destruct (decide (a_id r = answer_id)); reflexivity. }
    assert (Stable.sort_by a_question_number
              (answers_of questionnaire_id
                 (mkDb (t_users db) (seq_users db) (t_questionnaires db)
                    (seq_questionnaires db)
                    (map (fun r : SavedAnswer F =>
                            if decide (a_id r = answer_id)
                            then set_edited_answer edited_text r else r)
                       (t_answers db))
                    (seq_answers db)))
            = map (edited answer_id edited_text)
                (Stable.sort_by a_question_number (answers_of questionnaire_id db)))
      as Hrows.
    { unfold answers_of. cbn [t_answers].
      change (map _ (t_answers db))
        with (map (@edited F answer_id edited_text) (t_answers db)).
      rewrite (filter_map_key a_questionnaire_id _ _ _ Hsame_q).
      rewrite (sort_by_map a_question_number _ _ Hsame_n). reflexivity. }
    split; [exact Hrows|].
    rewrite Hrows. unfold export_to_csv. apply export_edited.
  - intros r. unfold edited. split.
    + intros Hne. rewrite decide_False by exact Hne. reflexivity.
    + intros Heq. rewrite decide_True by exact Heq. reflexivity.
Qed.

(** The first answer of the saved questionnaire is edited; the export of
    the rows read back holds the new text for it. *)
Lemma edit_changes_one_answer_witness :
  (exists db',
     update_edited_answer 1 "Yes, every January." DemoDb.saved = (inr tt, db')
     /\ (forall questionnaire_id, int64 questionnaire_id ->
         exists rows rows',
           get_answers questionnaire_id DemoDb.saved = (inr rows, DemoDb.saved)
           /\ get_answers questionnaire_id db' = (inr rows', db')
           /\ rows' = map (edited 1 "Yes, every January.") rows
           /\ export_to_csv DemoDb.writerow rows'
              = fold_left
                  (fun output row =>
                     output
                     +:+ DemoDb.writerow
                           (cells_after_edit 1 "Yes, every January." row))
                  rows (DemoDb.writerow CSV_HEADER))
     /\ (forall r : SavedAnswer spec_float,
           (a_id r <> 1 -> edited 1 "Yes, every January." r = r)
           /\ (a_id r = 1 ->
               edited 1 "Yes, every January." r
               = set_edited_answer "Yes, every January." r))
     /\ t_users db' = t_users DemoDb.saved
     /\ t_questionnaires db' = t_questionnaires DemoDb.saved)
  /\ map shown_answer
       (Stable.sort_by a_question_number
          (answers_of 1 (update_edited_answer 1 "Yes, every January." DemoDb.saved).2))
     = ["Yes, every January."; NO_CONTEXT_RESPONSE].
Proof.
  split; [|vm_compute; reflexivity].
  apply edit_changes_one_answer. unfold int64. lia.
Defined.

Section QuestionnaireFacts.

Context {F : Type}.

Lemma get_questionnaire_run (questionnaire_id : Z) (db : Db F) :
  int64 questionnaire_id ->
  get_questionnaire_by_id questionnaire_id db
  = (inr (match head (filter (fun q => qn_id q = questionnaire_id)
                        (t_questionnaires db)) with
          | Some q => Some (qn_id q, qn_user_id q, qn_filename q, qn_uploaded_at q)
          | None => None
          end), db).
Proof.
  intros Hq. unfold get_questionnaire_by_id, bind.
  rewrite (bind_int_ok _ _ Hq). reflexivity.
Qed.

(** [get_questionnaire_by_id] sees the rows of its id only. *)
Lemma get_questionnaire_same (questionnaire_id : Z) (db db' : Db F) :
  filter (fun q => qn_id q = questionnaire_id) (t_questionnaires db')
  = filter (fun q => qn_id q = questionnaire_id) (t_questionnaires db) ->
  (get_questionnaire_by_id questionnaire_id db').1
  = (get_questionnaire_by_id questionnaire_id db).1.
Proof.
  intros Hrows. unfold get_questionnaire_by_id, bind, bind_int.
  destruct (fits_int64 questionnaire_id); [|reflexivity].
  unfold ret. cbn [fst]. rewrite Hrows. reflexivity.
Qed.

Lemma delete_questionnaire_run (questionnaire_id : Z) (db : Db F) :
  int64 questionnaire_id ->
  delete_questionnaire questionnaire_id db
  = (inr tt,
     mkDb (t_users db) (seq_users db)
       (filter (fun q => qn_id q <> questionnaire_id) (t_questionnaires db))
       (seq_questionnaires db)
       (filter (fun r : SavedAnswer F => a_questionnaire_id r <> questionnaire_id)
          (t_answers db))
       (seq_answers db)).
Proof.
  intros Hq. unfold delete_questionnaire, bind at 1.
  unfold delete_answers, bind.
  rewrite !(bind_int_ok _ _ Hq). reflexivity.
Qed.

Lemma filter_below (questionnaire_id : Z) (rows : list QuestionnaireRow) :
  Forall (fun q => qn_id q < questionnaire_id) rows ->
  filter (fun q => qn_id q = questionnaire_id) rows = [].
Proof.
  induction 1 as [|q rows Hq _ IH]; [reflexivity|].
  rewrite filter_cons, IH. rewrite decide_False by lia. reflexivity.
Qed.

End QuestionnaireFacts.

(** X22. [delete_questionnaire] removes the questionnaire and all its
    answers: afterwards [get_answers] of it is empty and
    [get_questionnaire_by_id] finds nothing, while every other
    questionnaire, its answers and the accounts are as before. *)
Theorem delete_questionnaire_clears {F : Type} (questionnaire_id : Z) (db : Db F) :
  int64 questionnaire_id ->
  exists db',
    delete_questionnaire questionnaire_id db = (inr tt, db')
    /\ get_answers questionnaire_id db' = (inr [], db')
    /\ get_questionnaire_by_id questionnaire_id db' = (inr None, db')
    /\ (forall other, other <> questionnaire_id ->
          (get_answers other db').1 = (get_answers other db).1
          /\ (get_questionnaire_by_id other db').1
             = (get_questionnaire_by_id other db).1)
    /\ t_users db' = t_users db.
Proof.
  intros Hq. rewrite (delete_questionnaire_run _ _ Hq).
  eexists. split; [reflexivity|].
  split; [|split; [|split; [|reflexivity]]].
  - rewrite (get_answers_run _ _ Hq). unfold answers_of. cbn [t_answers].
    rewrite (filter_other a_questionnaire_id).
    rewrite decide_True by reflexivity. reflexivity.
  - rewrite (get_questionnaire_run _ _ Hq). cbn [t_questionnaires].
    rewrite (filter_other qn_id).
    rewrite decide_True by reflexivity. reflexivity.
  - intros other Hother. split.
    + apply get_answers_same. unfold answers_of. cbn [t_answers].
      rewrite (filter_other a_questionnaire_id).
      rewrite decide_False by congruence. reflexivity.
    + apply get_questionnaire_same. cbn [t_questionnaires].
      rewrite (filter_other qn_id).
      rewrite decide_False by congruence. reflexivity.
Qed.

Lemma delete_questionnaire_clears_witness :
  (get_answers 1 DemoDb.saved).1
  = inr (stored_answers DemoDb.sql_real 1 1 DemoDb.answers)
  /\ exists db',
       delete_questionnaire 1 DemoDb.saved = (inr tt, db')
       /\ get_answers 1 db' = (inr [], db')
       /\ get_questionnaire_by_id 1 db' = (inr None, db')
       /\ (forall other, other <> 1 ->
             (get_answers other db').1 = (get_answers other DemoDb.saved).1
             /\ (get_questionnaire_by_id other db').1
                = (get_questionnaire_by_id other DemoDb.saved).1)
       /\ t_users db' = t_users DemoDb.saved.
Proof.
  split; [vm_compute; reflexivity|].
  apply delete_questionnaire_clears. unfold int64. lia.
Defined.

(** X23. [save_questionnaire] returns an id above every id the table holds
    or ever held, and [get_questionnaire_by_id] of that id then returns
    the user, the file name and the time of the upload, while every other
    id is answered as before.  Ids are never used again: after the
    questionnaire is deleted, the next upload gets a larger id. *)
Theorem questionnaire_ids_are_fresh {F : Type} (now : string) (user_id : Z)
    (filename : string) (db : Db F) :
  int64 user_id ->
  exists questionnaire_id db',
    save_questionnaire now user_id filename db = (inr questionnaire_id, db')
    /\ seq_questionnaires db < questionnaire_id
    /\ Forall (fun q => qn_id q < questionnaire_id) (t_questionnaires db)
    /\ (int64 questionnaire_id ->
        get_questionnaire_by_id questionnaire_id db'
        = (inr (Some (questionnaire_id, user_id, filename, now)), db'))
    /\ (forall other, other <> questionnaire_id ->
          (get_questionnaire_by_id other db').1
          = (get_questionnaire_by_id other db).1)
    /\ (forall now' user_id' filename' next,
          int64 user_id' ->
          (save_questionnaire now' user_id' filename'
             (delete_questionnaire questionnaire_id db').2).1 = inr next ->
          questionnaire_id < next).
Proof.
  intros Huser. unfold save_questionnaire at 1, bind.
  rewrite (bind_int_ok _ _ Huser).
  set (qid := next_rowid (seq_questionnaires db) (map qn_id (t_questionnaires db))).
  destruct (next_rowid_fresh (seq_questionnaires db) (map qn_id (t_questionnaires db)))
    as [Hseq Hids]. fold qid in Hseq, Hids.
  assert (Forall (fun q => qn_id q < qid) (t_questionnaires db)) as Hrows.
  { exact (proj1 (Forall_map _ _ _) Hids). }
  eexists qid, _. split; [reflexivity|].
  split; [exact Hseq|]. split; [exact Hrows|].
  split; [|split].
  - intros Hq. rewrite (get_questionnaire_run _ _ Hq). cbn [t_questionnaires].
    rewrite filter_app, (filter_below _ _ Hrows).
    rewrite filter_cons, filter_nil. cbn [qn_id].
    rewrite decide_True by reflexivity. reflexivity.
  - intros other Hother. apply get_questionnaire_same. cbn [t_questionnaires].
    rewrite filter_app, filter_cons, filter_nil. cbn [qn_id].
    rewrite decide_False by congruence. apply app_nil_r.
  - intros now' user_id' filename' next Huser'.
    set (db1 := mkDb _ _ _ _ _ _).
    assert (seq_questionnaires (delete_questionnaire qid db1).2 = qid) as Hkept.
    { unfold delete_questionnaire, bind at 1. unfold delete_answers, bind, bind_int.
      destruct (fits_int64 qid); reflexivity. }
    unfold save_questionnaire, bind. rewrite (bind_int_ok _ _ Huser').
    cbn [fst]. intros Hnext. injection Hnext as <-.
    rewrite Hkept.
    apply (next_rowid_fresh qid).
Qed.

Lemma questionnaire_ids_are_fresh_witness :
  exists questionnaire_id db',
    save_questionnaire "2024-05-02 16:00:00" 3 "renewal.pdf" DemoDb.saved
    = (inr questionnaire_id, db')
    /\ seq_questionnaires DemoDb.saved < questionnaire_id
    /\ Forall (fun q => qn_id q < questionnaire_id) (t_questionnaires DemoDb.saved)
    /\ (int64 questionnaire_id ->
        get_questionnaire_by_id questionnaire_id db'
        = (inr (Some (questionnaire_id, 3, "renewal.pdf", "2024-05-02 16:00:00")), db'))
    /\ (forall other, other <> questionnaire_id ->
          (get_questionnaire_by_id other db').1
          = (get_questionnaire_by_id other DemoDb.saved).1)
    /\ (forall now' user_id' filename' next,
          int64 user_id' ->
          (save_questionnaire now' user_id' filename'
             (delete_questionnaire questionnaire_id db').2).1 = inr next ->
          questionnaire_id < next).
Proof.
  apply questionnaire_ids_are_fresh. unfold int64. lia.
Defined.

Section AccountFacts.

Context {F : Type} (sha256_hex : string -> string).

Lemma verify_user_run (email password : string) (db : Db F) :
  verify_user sha256_hex email password db
  = (inr (match head (filter (fun u => u_email u = email
                                       /\ u_password_hash u = sha256_hex password)
                        (t_users db)) with
          | Some u => Some (u_id u)
          | None => None
          end), db).
Proof. reflexivity. Qed.

Lemma filter_unknown_email (email hash : string) (rows : list UserRow) :
  email ∉ map u_email rows ->
  filter (fun u => u_email u = email /\ u_password_hash u = hash) rows = [].
Proof.
  induction rows as [|u rows IH]; intros Hout; [reflexivity|].
  cbn [map] in Hout. apply not_elem_of_cons in Hout as [Hne Hout].
  rewrite filter_cons, (IH Hout).
  rewrite decide_False; [reflexivity|]. intros [Heq _]. congruence.
Qed.

End AccountFacts.

(** X24. [create_user] refuses an email that is registered already, and
    then changes nothing.  Otherwise it adds one account, under an id above
    every id in use: [verify_user] with the same email and password
    returns that id, and with a password of another hash returns [None].
    Either way the other emails verify as before, and emails stay
    unique. *)
Theorem create_user_then_verify {F : Type} (sha256_hex : string -> string)
    (now email password : string) (db : Db F) :
  exists created db',
    create_user sha256_hex now email password db = (inr created, db')
    /\ (created = false <-> email ∈ map u_email (t_users db))
    /\ (created = false -> db' = db)
    /\ (created = true ->
        exists id,
          verify_user sha256_hex email password db' = (inr (Some id), db')
          /\ Forall (fun u => u_id u < id) (t_users db)
          /\ (forall other_password,
                sha256_hex other_password <> sha256_hex password ->
                verify_user sha256_hex email other_password db' = (inr None, db')))
    /\ (forall other_email other_password, other_email <> email ->
          (verify_user sha256_hex other_email other_password db').1
          = (verify_user sha256_hex other_email other_password db).1)
    /\ (NoDup (map u_email (t_users db)) -> NoDup (map u_email (t_users db'))).
Proof.
  unfold create_user, hash_password.
  destruct (bool_decide (email ∈ map u_email (t_users db))) eqn:Hknown.
  - apply bool_decide_eq_true in Hknown.
    exists false, db. split; [reflexivity|].
    split; [tauto|]. split; [reflexivity|]. split; [discriminate|].
    split; [reflexivity|]. tauto.
  - apply bool_decide_eq_false in Hknown.
    set (id := next_rowid (seq_users db) (map u_id (t_users db))).
    eexists true, _. split; [reflexivity|].
    split; [split; [discriminate|contradiction]|].
    split; [discriminate|].
    split; [|split].
    + intros _. exists id.
      rewrite !verify_user_run. cbn [t_users].
      split; [|split].
      * rewrite filter_app, (filter_unknown_email _ _ _ Hknown).
        rewrite filter_cons, filter_nil. cbn [u_email u_password_hash].
        rewrite decide_True by (split; reflexivity). reflexivity.
      * destruct (next_rowid_fresh (seq_users db) (map u_id (t_users db)))
          as [_ Hids].
        exact (proj1 (Forall_map _ _ _) Hids).
      * intros other_password Hother. rewrite verify_user_run. cbn [t_users].
        rewrite filter_app, (filter_unknown_email _ _ _ Hknown).
        rewrite filter_cons, filter_nil. cbn [u_email u_password_hash].
        rewrite decide_False; [reflexivity|]. intros [_ Heq]. congruence.
    + intros other_email other_password Hother.
      rewrite !verify_user_run. cbn [t_users fst].
      rewrite filter_app, filter_cons, filter_nil. cbn [u_email u_password_hash].
      rewrite decide_False; [|intros [Heq _]; congruence].
      rewrite app_nil_r. reflexivity.
    + intros Hunique. cbn [t_users]. rewrite map_app. cbn [map u_email].
      apply NoDup_app. split; [exact Hunique|].
      split; [|apply NoDup_singleton].
      intros e He Hin. apply list_elem_of_singleton in Hin. subst e. contradiction.
Qed.
